(** * Catalog synchronisation service (back-urbanz): normalisers, product
    cache, bulk replace and category deletion, embedded from the three
    variants of the service: index.js, server.js and a third file of unknown
    name (part_000), modules [IndexJs], [ServerJs] and [Part000]. *)

From Stdlib Require Import ZArith NArith List String Ascii Bool Lia.
From Stdlib Require Import DecimalN.
From stdpp Require Import base list.

Local Open Scope Z_scope.
Set Warnings "-register-all".

(** ** JavaScript values as the handlers see them

    Request bodies come from [express.json] and rows from the remote store:
    both are JSON documents.  [VUndefined] is what a property read gives for
    a missing key.  A string is the sequence of the bytes of its UTF-8 form,
    a lone surrogate being written as the three bytes of its code point.
    [charAt(0).toUpperCase()] is that of a text whose first character is
    ASCII, or lies outside the Basic Multilingual Plane and is left alone;
    the case mapping of the other characters is not modelled, and the
    statements on the saved categories ask for an ASCII first character
    ([asciiNamed]).  A finite number is kept as the decimal that
    Number::toString prints: [parseFloat] and [parseInt] give the exact
    decimal they read, which is the number of the code when it has at most 15
    significant digits and lies between 1e-300 and 1e300 ([exact15]);
    rounding to binary64, overflow and underflow are not modelled, and
    [exactValue] marks the values on which the model and the code agree.
    The two zeros are one value (nothing in the service tells them apart). *)
Module JS.

(** A finite non-zero number is [0.d1 d2 ... dk * 10^n] with [d1] and [dk]
    non-zero: the triple (digits, k, n) of Number::toString. *)
Inductive number :=
| NaN
| Infinity (neg : bool)
| Zero
| Dec (neg : bool) (ds : list nat) (n : Z).

Inductive value :=
| VUndefined
| VNull
| VBool (b : bool)
| VNum (x : number)
| VStr (s : string)
| VArr (elems : list value)
| VObj (fields : list (string * value)).

(** *** Digits *)

Definition isDigit (c : ascii) : bool :=
  let k := nat_of_ascii c in (48 <=? k)%nat && (k <=? 57)%nat.

Definition digitVal (c : ascii) : nat := (nat_of_ascii c - 48)%nat.

Definition digitChar (d : nat) : ascii := ascii_of_nat (48 + d).

Fixpoint spanDigits (s : list ascii) : list nat * list ascii :=
  match s with
  | c :: r =>
      if isDigit c then let '(ds, rest) := spanDigits r in (digitVal c :: ds, rest)
      else ([], s)
  | [] => ([], [])
  end.

Fixpoint stripZeros (ds : list nat) : list nat * nat :=
  match ds with
  | O :: r => let '(r', k) := stripZeros r in (r', S k)
  | _ => (ds, O)
  end.

(** Canonical form of [0.ds * 10^n]. *)
Definition mkDec (neg : bool) (ds : list nat) (n : Z) : number :=
  let '(ds1, lead) := stripZeros ds in
  let '(rds2, _) := stripZeros (rev ds1) in
  match rds2 with
  | [] => Zero
  | _ => Dec neg (rev rds2) (n - Z.of_nat lead)
  end.

Fixpoint uintOfDigits (ds : list nat) : Decimal.uint :=
  match ds with
  | [] => Decimal.Nil
  | d :: r =>
      let u := uintOfDigits r in
      match d with
      | 0%nat => Decimal.D0 u | 1%nat => Decimal.D1 u | 2%nat => Decimal.D2 u
      | 3%nat => Decimal.D3 u | 4%nat => Decimal.D4 u | 5%nat => Decimal.D5 u
      | 6%nat => Decimal.D6 u | 7%nat => Decimal.D7 u | 8%nat => Decimal.D8 u
      | _ => Decimal.D9 u
      end
  end.

Fixpoint digitsOfUint (u : Decimal.uint) : list nat :=
  match u with
  | Decimal.Nil => []
  | Decimal.D0 r => 0%nat :: digitsOfUint r
  | Decimal.D1 r => 1%nat :: digitsOfUint r
  | Decimal.D2 r => 2%nat :: digitsOfUint r
  | Decimal.D3 r => 3%nat :: digitsOfUint r
  | Decimal.D4 r => 4%nat :: digitsOfUint r
  | Decimal.D5 r => 5%nat :: digitsOfUint r
  | Decimal.D6 r => 6%nat :: digitsOfUint r
  | Decimal.D7 r => 7%nat :: digitsOfUint r
  | Decimal.D8 r => 8%nat :: digitsOfUint r
  | Decimal.D9 r => 9%nat :: digitsOfUint r
  end.

Definition natOfDigits (ds : list nat) : N := N.of_uint (uintOfDigits ds).
Definition digitsOfNat (n : N) : list nat := digitsOfUint (N.to_uint n).

(** The number denoted by a non-negative integer (an array index, a literal). *)
Definition ofN (n : N) : number :=
  let ds := digitsOfNat n in mkDec false ds (Z.of_nat (length ds)).

(** *** Number::toString, radix 10 *)

Definition showDigits (ds : list nat) : list ascii := map digitChar ds.

Definition showExponent (e : Z) : list ascii :=
  (if 0 <=? e then "+"%char else "-"%char) :: showDigits (digitsOfNat (Z.to_N (Z.abs e))).

Definition showDec (ds : list nat) (n : Z) : list ascii :=
  let k := Z.of_nat (length ds) in
  if (k <=? n) && (n <=? 21) then
    showDigits ds ++ repeat "0"%char (Z.to_nat (n - k))
  else if (0 <? n) && (n <=? 21) then
    showDigits (take (Z.to_nat n) ds) ++ "."%char :: showDigits (drop (Z.to_nat n) ds)
  else if (-6 <? n) && (n <=? 0) then
    "0"%char :: "."%char :: repeat "0"%char (Z.to_nat (- n)) ++ showDigits ds
  else
    match ds with
    | [d] => digitChar d :: "e"%char :: showExponent (n - 1)
    | d :: r => digitChar d :: "."%char :: showDigits r ++ "e"%char :: showExponent (n - 1)
    | [] => []
    end.

Definition numberToString (x : number) : list ascii :=
  match x with
  | NaN => list_ascii_of_string "NaN"
  | Infinity false => list_ascii_of_string "Infinity"
  | Infinity true => list_ascii_of_string "-Infinity"
  | Zero => list_ascii_of_string "0"
  | Dec neg ds n => (if neg then ["-"%char] else []) ++ showDec ds n
  end.

(** *** parseFloat and parseInt on the characters of a string *)

(** StrWhiteSpaceChar, on the bytes of the text.  One byte: TAB, LF, VT, FF,
    CR and the space. *)
Definition isWhite (c : ascii) : bool :=
  let k := nat_of_ascii c in
  ((9 <=? k)%nat && (k <=? 13)%nat) || (k =? 32)%nat.

(** Two bytes: U+00A0. *)
Definition isWhite2 (c1 c2 : ascii) : bool :=
  (nat_of_ascii c1 =? 194)%nat && (nat_of_ascii c2 =? 160)%nat.

(** Three bytes: U+1680, U+2000 to U+200A, U+2028, U+2029, U+202F, U+205F,
    U+3000 and U+FEFF. *)
Definition isWhite3 (c1 c2 c3 : ascii) : bool :=
  let k1 := nat_of_ascii c1 in
  let k2 := nat_of_ascii c2 in
  let k3 := nat_of_ascii c3 in
  ((k1 =? 225) && (k2 =? 154) && (k3 =? 128))%nat
  || ((k1 =? 226) && (k2 =? 128)
      && (((128 <=? k3) && (k3 <=? 138)) || (k3 =? 168) || (k3 =? 169) || (k3 =? 175)))%nat
  || ((k1 =? 226) && (k2 =? 129) && (k3 =? 159))%nat
  || ((k1 =? 227) && (k2 =? 128) && (k3 =? 128))%nat
  || ((k1 =? 239) && (k2 =? 187) && (k3 =? 191))%nat.

Fixpoint trimStart (s : list ascii) : list ascii :=
  match s with
  | c1 :: r1 =>
      if isWhite c1 then trimStart r1
      else
        match r1 with
        | c2 :: r2 =>
            if isWhite2 c1 c2 then trimStart r2
            else
              match r2 with
              | c3 :: r3 => if isWhite3 c1 c2 c3 then trimStart r3 else s
              | [] => s
              end
        | [] => s
        end
  | [] => []
  end.

Definition takeSign (s : list ascii) : bool * list ascii :=
  match s with
  | "-"%char :: r => (true, r)
  | "+"%char :: r => (false, r)
  | _ => (false, s)
  end.

Fixpoint startsWith (p s : list ascii) : bool :=
  match p, s with
  | [], _ => true
  | a :: p', b :: s' => if Ascii.eqb a b then startsWith p' s' else false
  | _ :: _, [] => false
  end.

(** ExponentPart: [e] or [E], an optional sign, at least one digit. *)
Definition scanExponent (s : list ascii) : Z :=
  match s with
  | c :: r =>
      if Ascii.eqb c "e" || Ascii.eqb c "E" then
        let '(neg, r') := takeSign r in
        match spanDigits r' with
        | ([], _) => 0
        | (ds, _) => let e := Z.of_N (natOfDigits ds) in if neg then - e else e
        end
      else 0
  | [] => 0
  end.

(** StrUnsignedDecimalLiteral: [Infinity], or digits with an optional
    fraction and exponent; what does not start with one is NaN. *)
Definition parseDecimal (neg : bool) (s1 : list ascii) : number :=
  if startsWith (list_ascii_of_string "Infinity") s1 then Infinity neg
  else
    let '(ip, r1) := spanDigits s1 in
    let '(fp, r2) := match r1 with
                     | "."%char :: r => spanDigits r
                     | _ => ([], r1)
                     end in
    match ip, fp with
    | [], [] => NaN
    | _, _ => mkDec neg (ip ++ fp) (Z.of_nat (length ip) + scanExponent r2)
    end.

(** The longest prefix that is a StrDecimalLiteral, after leading blanks. *)
Definition parseFloatChars (s : list ascii) : number :=
  let '(neg, s1) := takeSign (trimStart s) in parseDecimal neg s1.

Definition hexVal (c : ascii) : option N :=
  let k := nat_of_ascii c in
  if (48 <=? k)%nat && (k <=? 57)%nat then Some (N.of_nat (k - 48))
  else if (65 <=? k)%nat && (k <=? 70)%nat then Some (N.of_nat (k - 55))
  else if (97 <=? k)%nat && (k <=? 102)%nat then Some (N.of_nat (k - 87))
  else None.

Fixpoint spanHex (acc : option N) (s : list ascii) : option N :=
  match s with
  | c :: r =>
      match hexVal c with
      | Some d => spanHex (Some (16 * default 0%N acc + d)%N) r
      | None => acc
      end
  | [] => acc
  end.

Definition withSign (neg : bool) (x : number) : number :=
  match x with
  | Dec _ ds n => Dec neg ds n
  | _ => x
  end.

(** The digits of parseInt with no radix argument: radix 16 after [0x],
    else radix 10; no digit at all is NaN. *)
Definition parseInteger (neg : bool) (s1 : list ascii) : number :=
  match s1 with
  | "0"%char :: x :: r =>
      if Ascii.eqb x "x" || Ascii.eqb x "X" then
        match spanHex None r with
        | Some n => withSign neg (ofN n)
        | None => NaN
        end
      else
        let '(ds, _) := spanDigits s1 in mkDec neg ds (Z.of_nat (length ds))
  | _ =>
      match spanDigits s1 with
      | ([], _) => NaN
      | (ds, _) => mkDec neg ds (Z.of_nat (length ds))
      end
  end.

Definition parseIntChars (s : list ascii) : number :=
  let '(neg, s1) := takeSign (trimStart s) in parseInteger neg s1.

(** *** Exceptions and results *)

(** What a handler's [try] block can catch.  [TypeError] is a property read
    on [null] or [undefined], a call of something that is not a function, or
    a failed conversion to string; [StoreError] is an error object handed
    back (or a rejection raised) by the remote store; [InsertFailures] is the
    [Error] thrown after the row-by-row retry, whose message is the
    serialised list of [{product, error}] entries. *)
Inductive exn :=
| TypeError
| StoreError (message : string)
| InsertFailures (errors : list (value * string)).

Inductive result (A : Type) :=
| Ok (a : A)
| Throw (e : exn).
Arguments Ok {A} a.
Arguments Throw {A} e.

#[global] Instance result_ret : MRet result := @Ok.
#[global] Instance result_bind : MBind result :=
  fun A B f m => match m with Ok a => f a | Throw e => Throw e end.
#[global] Instance result_fmap : FMap result :=
  fun A B f m => match m with Ok a => Ok (f a) | Throw e => Throw e end.

(** *** Truthiness, property reads, conversion to string *)

Definition truthy (v : value) : bool :=
  match v with
  | VUndefined | VNull => false
  | VBool b => b
  | VNum NaN | VNum Zero => false
  | VNum _ => true
  | VStr EmptyString => false
  | VStr _ => true
  | VArr _ | VObj _ => true
  end.

(** [a || b] on values already computed ([b] has no effect in the uses below). *)
Definition orElse (a b : value) : value := if truthy a then a else b.

Definition isArray (v : value) : bool :=
  match v with VArr _ => true | _ => false end.

Fixpoint lookupField (k : string) (fs : list (string * value)) : value :=
  match fs with
  | [] => VUndefined
  | (k', v) :: r => if String.eqb k k' then v else lookupField k r
  end.

Definition hasField (k : string) (fs : list (string * value)) : bool :=
  existsb (fun kv => String.eqb k (fst kv)) fs.

(** [v.k] for the property names the service reads (id, name, description,
    title, category, price, status, image, color, colors, sizes, stock):
    none of them is defined on a primitive or on an array, and reading any
    property of [null] or [undefined] throws. *)
Definition getProp (v : value) (k : string) : result value :=
  match v with
  | VUndefined | VNull => Throw TypeError
  | VObj fs => Ok (lookupField k fs)
  | _ => Ok VUndefined
  end.

Fixpoint joinComma (l : list string) : string :=
  match l with
  | [] => EmptyString
  | [s] => s
  | s :: r => String.append s (String.append "," (joinComma r))
  end.

(** ToString: [String(v)], a template-literal hole, the argument of
    [parseFloat] and [parseInt].  An array is joined with commas ([null] and
    [undefined] elements print as nothing); a plain object prints as
    [[object Object]] unless it carries its own [toString] key, which in a
    JSON document is never callable, and then the conversion throws. *)
Fixpoint toStr (v : value) : result string :=
  match v with
  | VUndefined => Ok "undefined"%string
  | VNull => Ok "null"%string
  | VBool true => Ok "true"%string
  | VBool false => Ok "false"%string
  | VNum x => Ok (string_of_list_ascii (numberToString x))
  | VStr s => Ok s
  | VArr l =>
      ss ← (fix go (l : list value) : result (list string) :=
              match l with
              | [] => Ok []
              | e :: r =>
                  s ← match e with
                      | VUndefined | VNull => Ok EmptyString
                      | _ => toStr e
                      end;
                  ss ← go r;
                  Ok (s :: ss)
              end) l;
      Ok (joinComma ss)
  | VObj fs =>
      if hasField "toString" fs then Throw TypeError
      else Ok "[object Object]"%string
  end.

Definition parseFloat (v : value) : result number :=
  s ← toStr v; Ok (parseFloatChars (list_ascii_of_string s)).

(** What [JSON.stringify] followed by [JSON.parse] leaves of a value, the way
    a row reaches the store: [undefined], NaN and the infinities become
    [null], and an object key whose value is [undefined] is dropped. *)
Fixpoint toJson (v : value) : value :=
  match v with
  | VUndefined => VNull
  | VNum NaN => VNull
  | VNum (Infinity _) => VNull
  | VArr l => VArr (map toJson l)
  | VObj fs =>
      VObj ((fix go (fs : list (string * value)) : list (string * value) :=
               match fs with
               | [] => []
               | (k, VUndefined) :: r => go r
               | (k, x) :: r => (k, toJson x) :: go r
               end) fs)
  | _ => v
  end.

(** The message of the TypeError that a template literal raises on a value
    without a string form. *)
Definition cannotConvert : string := "Cannot convert object to primitive value".

Definition parseInt (v : value) : result number :=
  s ← toStr v; Ok (parseIntChars (list_ascii_of_string s)).

(** *** The string methods of [normalizeCategories] *)

Definition toUpperChar (c : ascii) : ascii :=
  let k := nat_of_ascii c in
  if (97 <=? k)%nat && (k <=? 122)%nat then ascii_of_nat (k - 32) else c.

Fixpoint toUpperCase (s : string) : string :=
  match s with
  | EmptyString => EmptyString
  | String c r => String (toUpperChar c) (toUpperCase r)
  end.

(** [s.charAt(0)] and [s.slice(1)]. *)
Definition charAt0 (s : string) : string :=
  match s with
  | EmptyString => EmptyString
  | String c _ => String c EmptyString
  end.

Definition slice1 (s : string) : string :=
  match s with
  | EmptyString => EmptyString
  | String _ r => r
  end.

End JS.

Import JS.
Local Open Scope string_scope.

(** ** Schema normaliser *)

Definition isNull (v : value) : bool :=
  match v with VNull => true | _ => false end.

(** [s.charAt(0).toUpperCase() + s.slice(1)] *)
Definition capitalized (s : string) : string :=
  (toUpperCase (charAt0 s) ++ slice1 s)%string.

(** The callback of [categories.map] in [normalizeCategories]; the three
    files have the same text.  [VNull] is the [return null] of the last line. *)
Definition normalizeCategory (cat : value) : result value :=
  match cat with
  | VStr s =>
      Ok (VObj [("id", VStr s);
                ("name", VStr (capitalized s));
                ("description", VStr ("Categoria de " ++ s)%string)])
  | VObj fs =>
      let id := lookupField "id" fs in
      let name := lookupField "name" fs in
      let description := lookupField "description" fs in
      if truthy id then
        name' ← (if truthy name then Ok name
                 else match id with
                      | VStr s => Ok (VStr (capitalized s))
                      | _ => Throw TypeError
                      end);
        description' ← (if truthy description then Ok description
                        else s ← toStr (orElse name id);
                             Ok (VStr ("Categoria de " ++ s)%string));
        Ok (VObj [("id", id); ("name", name'); ("description", description')])
      else Ok VNull
  | _ => Ok VNull
  end.

Definition normalizeCategories (categories : value) : result (list value) :=
  match categories with
  | VArr l =>
      mapped ← mapM normalizeCategory l;
      Ok (filter (fun cat => negb (isNull cat)) mapped)
  | _ => Ok []
  end.

Definition placeholder : string := "https://via.placeholder.com/400x300".

Definition size (name : string) (stock : number) : value :=
  VObj [("name", VStr name); ("stock", VNum stock)].

(** [[{name:'P',stock:0}, {name:'M',stock:0}, {name:'G',stock:0}, {name:'GG',stock:0}]] *)
Definition defaultSizes : value :=
  VArr [size "P" Zero; size "M" Zero; size "G" Zero; size "GG" Zero].

(** [xs.map((x, index) => f(index, x))], stopping at the first exception. *)
Fixpoint mapWithIndex {A B} (f : nat -> A -> result B) (index : nat) (xs : list A)
  : result (list B) :=
  match xs with
  | [] => Ok []
  | x :: r =>
      y ← f index x;
      ys ← mapWithIndex f (S index) r;
      Ok (y :: ys)
  end.

(** [{...object, k: v}]: the own keys keep their order, [k] keeps its place
    when it is already there and goes last otherwise. *)
Fixpoint setField (k : string) (v : value) (fs : list (string * value))
  : list (string * value) :=
  match fs with
  | [] => [(k, v)]
  | (k', v') :: r =>
      if String.eqb k k' then (k, v) :: r else (k', v') :: setField k v r
  end.

Local Open Scope list_scope.
Local Open Scope Z_scope.

(** The value under key [k] of an object, [undefined] elsewhere. *)
Definition field (k : string) (v : value) : value :=
  match v with
  | VObj fs => lookupField k fs
  | _ => VUndefined
  end.

(** ** The remote store and the handlers' world

    The store is reached through the Supabase client, whose calls resolve to
    [{data, error}].  It is kept here as two tables.  A product row is the
    JSON object that was inserted, with the id the store gave it; a category
    row has text columns, keyed by [cat_id].  Every call first asks the next
    entry of [faults] whether the store answers, hands back an error object,
    or rejects (the [await] then throws); past the end of [faults] the store
    answers.  A call that does not answer leaves the tables as they are.
    [trace] lists the calls in the order issued.  A row reaches the store as
    JSON ([toJson]).  The filter of [.not('id', 'in', text)] reaches it as
    the text the handler builds: [inList] is the store's reading of such a
    text, the list of values it finds in it. *)

Record categoryRow := {
  cat_id : string;
  cat_name : string;
  cat_description : string
}.

Record store := {
  products : list value;
  categories : list categoryRow;
  nextId : N;
  inList : string -> list string
}.

Inductive reply (A : Type) :=
| Data (data : A)
| Error (message : string).
Arguments Data {A} data.
Arguments Error {A} message.

Inductive fault :=
| Answers
| Fails (message : string)
| Rejects (message : string).

Inductive command :=
| SelectProducts
| DeleteProducts
| InsertProducts (rows : list value)
| InsertProduct (row : value)
| SelectCategory (id : string)
| SelectProductsOf (id : string)
| SelectOtherCategory (id : string)
| UpdateProductsCategory (from to : string)
| DeleteCategory (id : string)
| DeleteCategoriesNotIn (filter : string)
| UpsertCategories (rows : list categoryRow).

(** [let cache = { products: null, productsTimestamp: 0 }] *)
Record cacheState := {
  cache_products : option (list value);
  productsTimestamp : Z
}.

Record world := {
  db : store;
  cache : cacheState;
  faults : list fault;
  trace : list command
}.

Definition M (A : Type) : Type := world -> result A * world.

Definition ret {A} (a : A) : M A := fun w => (Ok a, w).

Definition bind {A B} (m : M A) (k : A -> M B) : M B :=
  fun w => match m w with
           | (Ok a, w') => k a w'
           | (Throw e, w') => (Throw e, w')
           end.

Notation "'let*' x ':=' m 'in' k" := (bind m (fun x => k))
  (at level 10, x pattern, m at level 100, k at level 200).

(** A pure computation that may throw, run inside a handler. *)
Definition lift {A} (r : result A) : M A := fun w => (r, w).

Definition throw {A} (e : exn) : M A := fun w => (Throw e, w).

Definition issued (c : command) (fs : list fault) (d : store) (w : world) : world :=
  {| db := d; cache := cache w; faults := fs; trace := trace w ++ [c] |}.

(** [await supabase.from(...)...] *)
Definition call {A} (c : command) (op : store -> reply A * store) : M (reply A) :=
  fun w =>
    match faults w with
    | Fails m :: fs => (Ok (Error m), issued c fs (db w) w)
    | Rejects m :: fs => (Throw (StoreError m), issued c fs (db w) w)
    | Answers :: fs => let '(r, d) := op (db w) in (Ok r, issued c fs d w)
    | [] => let '(r, d) := op (db w) in (Ok r, issued c [] d w)
    end.

Definition setCache (c : cacheState) : M unit :=
  fun w => (Ok tt, {| db := db w; cache := c; faults := faults w; trace := trace w |}).

Definition getCache : M cacheState := fun w => (Ok (cache w), w).

(** *** What the store does when it answers *)

Definition hasCategory (id : string) (row : value) : bool :=
  match field "category" row with
  | VStr c => String.eqb c id
  | _ => false
  end.

Definition isRow0 (row : value) : bool :=
  match field "id" row with
  | VNum Zero => true
  | _ => false
  end.

Definition withId (id : N) (row : value) : value :=
  match row with
  | VObj fs => VObj (("id", VNum (ofN id)) :: fs)
  | _ => row
  end.

Fixpoint numbered (id : N) (rows : list value) : list value :=
  match rows with
  | [] => []
  | r :: rest => withId id r :: numbered (N.succ id) rest
  end.

Module Supabase.

(** [.from('products').select('*').order('id')] *)
Definition selectProducts (s : store) : reply (list value) * store :=
  (Data (products s), s).

(** [.from('products').delete().neq('id', 0)] *)
Definition deleteProducts (s : store) : reply unit * store :=
  (Data tt, {| products := filter (fun r => isRow0 r) (products s);
               categories := categories s; nextId := nextId s;
               inList := inList s |}).

(** [.from('products').insert(rows)] *)
Definition insertProducts (rows : list value) (s : store) : reply (list value) * store :=
  let added := numbered (nextId s) (map toJson rows) in
  (Data added, {| products := products s ++ added;
                  categories := categories s;
                  nextId := (nextId s + N.of_nat (length rows))%N;
                  inList := inList s |}).

(** [.from('categories').select('*').eq('id', id).single()]: exactly one row,
    or an error. *)
Definition selectCategory (id : string) (s : store) : reply categoryRow * store :=
  match filter (fun c => String.eqb (cat_id c) id) (categories s) with
  | [c] => (Data c, s)
  | _ => (Error "JSON object requested, multiple (or no) rows returned", s)
  end.

(** [.from('products').select('id, title').eq('category', id)] *)
Definition selectProductsOf (id : string) (s : store) : reply (list value) * store :=
  (Data (filter (fun r => hasCategory id r) (products s)), s).

(** [.from('categories').select('id').neq('id', id).limit(1)] *)
Definition selectOtherCategory (id : string) (s : store) : reply (list categoryRow) * store :=
  (Data (take 1 (filter (fun c => negb (String.eqb (cat_id c) id)) (categories s))), s).

Definition setCategory (to : string) (row : value) : value :=
  match row with
  | VObj fs => VObj (setField "category" (VStr to) fs)
  | _ => row
  end.

(** [.from('products').update({ category: to }).eq('category', from)] *)
Definition updateProductsCategory (from to : string) (s : store) : reply unit * store :=
  (Data tt, {| products := map (fun r => if hasCategory from r then setCategory to r else r)
                               (products s);
               categories := categories s; nextId := nextId s;
               inList := inList s |}).

(** [.from('categories').delete().eq('id', id)] *)
Definition deleteCategory (id : string) (s : store) : reply unit * store :=
  (Data tt, {| products := products s;
               categories := filter (fun c => negb (String.eqb (cat_id c) id)) (categories s);
               nextId := nextId s; inList := inList s |}).

Definition memberOf (ids : list string) (id : string) : bool :=
  existsb (String.eqb id) ids.

(** [.from('categories').delete().not('id', 'in', text)]: the rows whose id
    the store finds in the list that it reads in [text] stay. *)
Definition deleteCategoriesNotIn (text : string) (s : store) : reply unit * store :=
  (Data tt, {| products := products s;
               categories := filter (fun c => memberOf (inList s text) (cat_id c))
                                    (categories s);
               nextId := nextId s; inList := inList s |}).

(** Insert, or on a conflicting id update in place. *)
Fixpoint upsertCategory (row : categoryRow) (table : list categoryRow) : list categoryRow :=
  match table with
  | [] => [row]
  | c :: rest =>
      if String.eqb (cat_id c) (cat_id row) then row :: rest
      else c :: upsertCategory row rest
  end.

(** [.from('categories').upsert(rows, { onConflict: 'id' })] *)
Definition upsertCategories (rows : list categoryRow) (s : store) : reply unit * store :=
  (Data tt, {| products := products s;
               categories := fold_left (fun t r => upsertCategory r t) rows (categories s);
               nextId := nextId s; inList := inList s |}).

End Supabase.

(** *** Requests and responses *)

Record request := {
  authorization : option string;
  body : value;
  categoryId : string
}.

(** [res.status(status).json(...)].  [Json v] is a body without error text;
    [ErrorJson text cause details] is [{ error: text + cause.message }], with
    [details: cause.message] beside it when [details] is set, and plain
    [{ error: text }] when there is no cause. *)
Inductive responseBody :=
| Json (v : value)
| ErrorJson (text : string) (cause : option exn) (details : bool).

Record response := {
  status : Z;
  payload : responseBody
}.

Definition json (v : value) : response := {| status := 200; payload := Json v |}.

Definition failure (status : Z) (text : string) : response :=
  {| status := status; payload := ErrorJson text None false |}.

(** [try { body } catch (error) { handler(error) }] around a whole handler. *)
Definition tryCatch (body : M response) (handler : exn -> response) : world -> response * world :=
  fun w => match body w with
           | (Ok r, w') => (r, w')
           | (Throw e, w') => (handler e, w')
           end.

(** [s.replace(pattern, "")]: the first occurrence goes. *)
Fixpoint removeFirst (pattern s : string) : string :=
  if String.prefix pattern s then
    String.substring (String.length pattern) (String.length s - String.length pattern) s
  else match s with
       | EmptyString => EmptyString
       | String c r => String c (removeFirst pattern r)
       end.

(** [`${n} ...`] for an array length. *)
Definition count (n : nat) : string :=
  string_of_list_ascii (numberToString (ofN (N.of_nat n))).

(** [message.includes(needle)] *)
Fixpoint includes (needle message : string) : bool :=
  String.prefix needle message ||
  match message with
  | EmptyString => false
  | String _ r => includes needle r
  end.

(** [!authHeader || !checkAuth(authHeader.replace("Bearer ", ""))] *)
Definition unauthorized (checkAuth : string -> bool) (req : request) : bool :=
  match authorization req with
  | Some h => negb (truthy (VStr h)) || negb (checkAuth (removeFirst "Bearer " h))
  | None => true
  end.

(** The text a value takes in a text column of the store. *)
Definition text (v : value) : string :=
  match toStr v with
  | Ok s => s
  | Throw _ => EmptyString
  end.

(** The six fields sent to the store for a normalised product. *)
Definition productsToInsert (normalizedProducts : list value) : list value :=
  map (fun product =>
         VObj [("title", field "title" product);
               ("category", field "category" product);
               ("price", field "price" product);
               ("description", field "description" product);
               ("status", field "status" product);
               ("colors", field "colors" product)])
      normalizedProducts.

(** The three fields sent to the store for a normalised category. *)
Definition categoriesToUpsert (normalizedCategories : list value) : list categoryRow :=
  map (fun category =>
         {| cat_id := text (field "id" category);
            cat_name := text (field "name" category);
            cat_description := text (field "description" category) |})
      normalizedCategories.

(** [clearCache()] *)
Definition clearCache : M unit :=
  setCache {| cache_products := None; productsTimestamp := 0 |}.

Definition quote : string := String (ascii_of_nat 34) EmptyString.

(** The message of a successful category deletion, the name in quotes. *)
Definition deletedMessage (name : string) : string :=
  ("Categoria " ++ quote ++ name ++ quote ++ " excluída")%string.

(** [list?.length || 0] in a log line, put into a template literal: only
    an object can carry a [length] whose string form fails. *)
Definition logLength (list : value) : result string :=
  match list with
  | VObj fs => toStr (orElse (lookupField "length" fs) (VNum Zero))
  | _ => Ok EmptyString
  end.

(** [`(${categoryIds.map(id => `'${id}'`).join(',')})`], the ids already in
    their string form. *)
Definition notInFilter (categoryIds : list string) : string :=
  ("(" ++ joinComma (map (fun id => "'" ++ id ++ "'") categoryIds) ++ ")")%string.

(** [cache.products && (now - cache.productsTimestamp) < CACHE_DURATION] *)
Definition cacheRead (duration now : Z) (c : cacheState) : option (list value) :=
  match cache_products c with
  | Some ps => if now - productsTimestamp c <? duration then Some ps else None
  | None => None
  end.

(** ** The password scrambler

    [Buffer.from(text).toString('base64')] on the bytes of [text], standard
    alphabet, padded with [=]. *)

Definition base64Alphabet : list ascii :=
  list_ascii_of_string
    "ABCDEFGHIJKLMNOPQRSTUVWXYZabcdefghijklmnopqrstuvwxyz0123456789+/".

Definition sextetChar (n : N) : ascii :=
  nth (N.to_nat n) base64Alphabet "A"%char.

Fixpoint indexOf (c : ascii) (l : list ascii) (i : N) : option N :=
  match l with
  | [] => None
  | x :: r => if Ascii.eqb c x then Some i else indexOf c r (N.succ i)
  end.

Definition charSextet (c : ascii) : option N := indexOf c base64Alphabet 0.

Fixpoint toBase64 (bytes : list N) : list ascii :=
  match bytes with
  | a :: b :: c :: rest =>
      sextetChar (a / 4) :: sextetChar ((a mod 4) * 16 + b / 16)
      :: sextetChar ((b mod 16) * 4 + c / 64) :: sextetChar (c mod 64)
      :: toBase64 rest
  | [a; b] =>
      [sextetChar (a / 4); sextetChar ((a mod 4) * 16 + b / 16);
       sextetChar ((b mod 16) * 4); "="%char]
  | [a] =>
      [sextetChar (a / 4); sextetChar ((a mod 4) * 16); "="%char; "="%char]
  | [] => []
  end%N.

(** [Buffer.from(text, 'base64')] on a text made of groups of four alphabet
    characters, the last one possibly padded; [None] on any other text, where
    the decoder is lenient in ways that are not modelled. *)
Fixpoint fromBase64 (chars : list ascii) : option (list N) :=
  match chars with
  | [] => Some []
  | c1 :: c2 :: c3 :: c4 :: rest =>
      match charSextet c1, charSextet c2 with
      | Some s1, Some s2 =>
          let a := (s1 * 4 + s2 / 16)%N in
          if Ascii.eqb c3 "=" then
            if Ascii.eqb c4 "=" then
              match rest with [] => Some [a] | _ => None end
            else None
          else
            match charSextet c3 with
            | Some s3 =>
                let b := ((s2 mod 16) * 16 + s3 / 4)%N in
                if Ascii.eqb c4 "=" then
                  match rest with [] => Some [a; b] | _ => None end
                else
                  match charSextet c4, fromBase64 rest with
                  | Some s4, Some bytes => Some (a :: b :: ((s3 mod 4) * 64 + s4)%N :: bytes)
                  | _, _ => None
                  end
            | None => None
            end
      | _, _ => None
      end
  | _ => None
  end.

Definition continuation (b : N) : bool := ((128 <=? b) && (b <=? 191))%N.

(** Well-formed UTF-8: the bytes are those of a text, and [toString('utf8')]
    substitutes nothing. *)
Fixpoint utf8 (bytes : list N) : bool :=
  match bytes with
  | [] => true
  | a :: r =>
      if (a <=? 127)%N then utf8 r
      else match r with
           | b :: r1 =>
               if ((194 <=? a) && (a <=? 223))%N then continuation b && utf8 r1
               else match r1 with
                    | c :: r2 =>
                        if ((224 <=? a) && (a <=? 239))%N then
                          continuation b && continuation c &&
                          (if (a =? 224)%N then (160 <=? b)%N
                           else if (a =? 237)%N then (b <=? 159)%N else true) &&
                          utf8 r2
                        else match r2 with
                             | d :: r3 =>
                                 ((240 <=? a) && (a <=? 244))%N &&
                                 continuation b && continuation c && continuation d &&
                                 (if (a =? 240)%N then (144 <=? b)%N
                                  else if (a =? 244)%N then (b <=? 143)%N else true) &&
                                 utf8 r3
                             | [] => false
                             end
                    | [] => false
                    end
           | [] => false
           end
  end.

Definition bytesOf (text : string) : list N :=
  map N_of_ascii (list_ascii_of_string text).

Definition textOf (bytes : list N) : string :=
  string_of_list_ascii (map ascii_of_N bytes).

(** [Buffer.from(text)]: the UTF-8 bytes of the text, each lone surrogate
    (the three bytes ED A0..BF 80..BF of its code point) replaced by U+FFFD
    (EF BF BD). *)
Fixpoint utf8Bytes (bytes : list N) : list N :=
  match bytes with
  | a :: r =>
      match r with
      | b :: c :: r2 =>
          if ((a =? 237) && (160 <=? b) && (b <=? 191) && continuation c)%N
          then 239%N :: 191%N :: 189%N :: utf8Bytes r2
          else a :: utf8Bytes r
      | _ => a :: utf8Bytes r
      end
  | [] => []
  end.

(** [Buffer.from(text).toString('base64').split('').reverse().join('')];
    the three files have the same text. *)
Definition simpleEncrypt (text : string) : string :=
  string_of_list_ascii (rev (toBase64 (utf8Bytes (bytesOf text)))).

(** [Buffer.from(encrypted.split('').reverse().join(''), 'base64').toString('utf8')],
    where the reversed text is padded base64 of well-formed UTF-8; [None]
    elsewhere (lenient decoding and substituted characters are not modelled). *)
Definition simpleDecrypt (encrypted : string) : option string :=
  match fromBase64 (rev (list_ascii_of_string encrypted)) with
  | Some bytes => if utf8 bytes then Some (textOf bytes) else None
  | None => None
  end.

(** [simpleEncrypt(password)] on a value of the request body.  [Buffer.from]
    takes the bytes of a string and throws a TypeError on [undefined],
    [null], a boolean or a number.  It also accepts an array (of bytes) and
    some objects (array-likes); what it makes of them is left out, [None],
    and the statements on the password say so. *)
Definition encrypted (password : value) : option (result string) :=
  match password with
  | VStr p => Some (Ok (simpleEncrypt p))
  | VArr _ | VObj _ => None
  | _ => Some (Throw TypeError)
  end.

(** [s === v] for a string [s]. *)
Definition isStr (s : string) (v : value) : bool :=
  match v with
  | VStr s' => String.eqb s s'
  | _ => false
  end.

(** The login handlers from the awaited query on.  The table
    [admin_credentials] is not one of the two tables of [store]: the handler
    is given [answer], what
    [await supabase.from('admin_credentials').select('*').eq('username', username).single()]
    gives, an exception when the call rejects.  [token] is the token of the
    success body.  [password === credentials.password] is reached with a
    string password only. *)
Definition loginWith (token : value) (answer : result (reply value))
    (username password : value) : option response :=
  match answer with
  | Throw _ => Some (failure 500 "Erro no processo de login")
  | Ok (Error _) => Some (failure 401 "Credenciais inválidas")
  | Ok (Data credentials) =>
      if negb (truthy credentials) then Some (failure 401 "Credenciais inválidas")
      else
        match encrypted password with
        | None => None
        | Some (Throw _) => Some (failure 500 "Erro no processo de login")
        | Some (Ok encryptedPassword) =>
            if isStr encryptedPassword (field "encrypted_password" credentials)
               || match password with
                  | VStr p => isStr p (field "password" credentials)
                  | _ => false
                  end
            then Some (json (VObj [("success", VBool true);
                                   ("token", token);
                                   ("user", VObj [("username", username)])]))
            else Some (failure 401 "Credenciais inválidas")
        end
  end.

(** [app.get("/api/auth/verify")]:
    [token = req.headers.authorization?.replace("Bearer ", "")], then
    [token && checkAuth(token)]; the three files have the same text. *)
Definition verifyWith (checkAuth : string -> bool) (req : request) : response :=
  let valid := match authorization req with
               | Some h =>
                   let token := removeFirst "Bearer " h in
                   truthy (VStr token) && checkAuth token
               | None => false
               end in
  if valid
  then json (VObj [("valid", VBool true); ("user", VObj [("username", VStr "admin")])])
  else json (VObj [("valid", VBool false)]).

(** The message of a successful category addition, the name in quotes. *)
Definition addedMessage (name : string) : string :=
  ("Categoria " ++ quote ++ name ++ quote ++ " adicionada")%string.

(** The row sent by [/api/categories/add]:
    [{ id: category.id, name: category.name,
       description: category.description || `Categoria de ${category.name}` }],
    [name] being the string form of [category.name]. *)
Definition categoryToAdd (category : value) (name : string) : value :=
  VObj [("id", field "id" category);
        ("name", field "name" category);
        ("description", orElse (field "description" category)
                               (VStr ("Categoria de " ++ name)%string))].

(** [!category || !category.id || !category.name] *)
Definition invalidCategory (category : value) : bool :=
  negb (truthy category) || negb (truthy (field "id" category))
  || negb (truthy (field "name" category)).

(** *** The third file, of unknown name (part_000): the Vercel handler whose
    normaliser carries the remark VERSAO CORRIGIDA *)
Module Part000.

Definition normalizeSize (sz : value) : result value :=
  n ← getProp sz "name";
  name ← toStr (orElse n (VStr "M"));
  st ← getProp sz "stock";
  stock ← parseInt st;
  Ok (VObj [("name", VStr name); ("stock", orElse (VNum stock) (VNum Zero))]).

Definition normalizeColor (color : value) : result value :=
  name ← getProp color "name";
  image ← getProp color "image";
  sizes ← getProp color "sizes";
  sizes' ← match sizes with
           | VArr l => VArr <$> mapM normalizeSize l
           | _ => Ok defaultSizes
           end;
  Ok (VObj [("name", orElse name (VStr "Padrão"));
            ("image", orElse image (VStr placeholder));
            ("sizes", sizes')]).

Definition normalizeProduct (index : nat) (product : value) : result value :=
  pid ← getProp product "id";
  let id := orElse pid (VNum (ofN (N.of_nat index + 1))) in
  pcolors ← getProp product "colors";
  colors ← match pcolors with
           | VArr l => mapM normalizeColor l
           | _ =>
               image ← getProp product "image";
               Ok [VObj [("name", VStr "Padrão");
                         ("image", orElse image (VStr placeholder));
                         ("sizes", defaultSizes)]]
           end;
  title ← getProp product "title";
  category ← getProp product "category";
  pprice ← getProp product "price";
  price ← parseFloat pprice;
  description ← getProp product "description";
  status ← getProp product "status";
  Ok (VObj [("id", id);
            ("title", orElse title (VStr "Produto sem nome"));
            ("category", orElse category (VStr "camisa"));
            ("price", orElse (VNum price) (VNum Zero));
            ("description", orElse description (VStr "Sem descrição"));
            ("status", orElse status (VStr "active"));
            ("colors", VArr colors)]).

Definition normalizeProducts (products : value) : result (list value) :=
  match products with
  | VArr l => mapWithIndex normalizeProduct 0 l
  | _ => Ok []
  end.

Definition CACHE_DURATION : Z := 2 * 60 * 1000.

Definition checkAuth (token : string) : bool :=
  String.eqb token "authenticated_admin_token".

(** [app.get("/api/products")] at time [now = Date.now()]. *)
Definition getProducts (now : Z) : world -> response * world :=
  tryCatch
    (let* c := getCache in
     match cacheRead CACHE_DURATION now c with
     | Some cached => ret (json (VObj [("products", VArr cached)]))
     | None =>
         let* r := call SelectProducts Supabase.selectProducts in
         match r with
         | Error _ => ret (json (VObj [("products", VArr [])]))
         | Data products =>
             let* normalizedProducts := lift (normalizeProducts (VArr products)) in
             let* _ := setCache {| cache_products := Some normalizedProducts;
                                   productsTimestamp := now |} in
             ret (json (VObj [("products", VArr normalizedProducts)]))
         end
     end)
    (fun _ => json (VObj [("products", VArr [])])).

(** What one row adds to [errors] when the store hands back an error
    object: [{product, error}], and, when the title has no string form, a
    second entry pushed by the [catch] after the log line has thrown. *)
Definition rowError (title : value) (message : string) : list (value * string) :=
  match toStr title with
  | Ok _ => [(title, message)]
  | Throw _ => [(title, message); (title, cannotConvert)]
  end.

(** The [for] loop of the row-by-row retry: each row is inserted on its own,
    inside a [try]; an error object adds [{product, error}] to [errors] and
    is logged with the title in a template literal, a rejection is caught
    and adds [{product, error}]. *)
Fixpoint insertEach (rows : list value) (errors : list (value * string))
    (successful : list value) : M (list (value * string) * list value) :=
  match rows with
  | [] => ret (errors, successful)
  | product :: rest =>
      fun w =>
        match call (InsertProduct product) (Supabase.insertProducts [product]) w with
        | (Ok (Data _), w') =>
            insertEach rest errors (successful ++ [field "title" product]) w'
        | (Ok (Error message), w') =>
            insertEach rest (errors ++ rowError (field "title" product) message) successful w'
        | (Throw (StoreError message), w') =>
            insertEach rest (errors ++ [(field "title" product, message)]) successful w'
        | (Throw _, w') =>
            insertEach rest (errors ++ [(field "title" product, cannotConvert)]) successful w'
        end
  end.

(** [app.post("/api/products")] *)
Definition replaceAllProducts (req : request) : world -> response * world :=
  tryCatch
    (if unauthorized checkAuth req then ret (failure 401 "Não autorizado")
     else
       let* products := lift (getProp (body req) "products") in
       let* _ := lift (logLength products) in
       if negb (truthy products) || negb (isArray products)
       then ret (failure 400 "Dados de produtos inválidos")
       else
         let* normalizedProducts := lift (normalizeProducts products) in
         let* _ := call DeleteProducts Supabase.deleteProducts in
         let* _ :=
           (if (0 <? length normalizedProducts)%nat then
              let rows := productsToInsert normalizedProducts in
              let* r := call (InsertProducts rows) (Supabase.insertProducts rows) in
              match r with
              | Data _ => ret tt
              | Error _ =>
                  let* (errors, successful) := insertEach rows [] [] in
                  if (0 <? length errors)%nat then throw (InsertFailures errors)
                  else ret tt
              end
            else ret tt) in
         let* _ := clearCache in
         ret (json (VObj [("success", VBool true);
                          ("message", VStr (count (length normalizedProducts)
                                            ++ " produtos salvos")%string);
                          ("products", VArr normalizedProducts)])))
    (fun e => {| status := 500;
                 payload := ErrorJson "Erro ao salvar produtos: " (Some e) true |}).

(** [app.delete("/api/categories/:categoryId")] *)
Definition deleteCategory (req : request) : world -> response * world :=
  tryCatch
    (if unauthorized checkAuth req then ret (failure 401 "Não autorizado")
     else
       let id := categoryId req in
       let* fetched := call (SelectCategory id) (Supabase.selectCategory id) in
       match fetched with
       | Error _ => ret (failure 404 "Categoria não encontrada")
       | Data category =>
           let* found := call (SelectProductsOf id) (Supabase.selectProductsOf id) in
           match found with
           | Error message => throw (StoreError message)
           | Data productsInCategory =>
               let* _ :=
                 (if (0 <? length productsInCategory)%nat then
                    let* others := call (SelectOtherCategory id)
                                        (Supabase.selectOtherCategory id) in
                    match others with
                    | Data (other :: _) =>
                        let newCategoryId := cat_id other in
                        let* updated :=
                          call (UpdateProductsCategory id newCategoryId)
                               (Supabase.updateProductsCategory id newCategoryId) in
                        match updated with
                        | Error message => throw (StoreError message)
                        | Data _ => ret tt
                        end
                    | _ => ret tt
                    end
                  else ret tt) in
               let* deleted := call (DeleteCategory id) (Supabase.deleteCategory id) in
               match deleted with
               | Error message => throw (StoreError message)
               | Data _ =>
                   ret (json (VObj [("success", VBool true);
                                    ("message", VStr (deletedMessage (cat_name category)))]))
               end
           end
       end)
    (fun e => {| status := 500;
                 payload := ErrorJson "Erro ao excluir categoria: " (Some e) false |}).

(** [app.post("/api/categories")] *)
Definition replaceAllCategories (req : request) : world -> response * world :=
  tryCatch
    (if unauthorized checkAuth req then ret (failure 401 "Não autorizado")
     else
       let* categories := lift (getProp (body req) "categories") in
       let* _ := lift (logLength categories) in
       let* normalizedCategories := lift (normalizeCategories categories) in
       if (length normalizedCategories =? 0)%nat
       then ret (failure 400 "Nenhuma categoria fornecida")
       else
         let* categoryIds := lift (mapM (fun cat => toStr (field "id" cat))
                                        normalizedCategories) in
         let text := notInFilter categoryIds in
         let* deleted := call (DeleteCategoriesNotIn text)
                              (Supabase.deleteCategoriesNotIn text) in
         let* _ := match deleted with
                   | Error message =>
                       if negb (includes "No rows found" message)
                       then throw (StoreError message) else ret tt
                   | Data _ => ret tt
                   end in
         let rows := categoriesToUpsert normalizedCategories in
         let* upserted := call (UpsertCategories rows) (Supabase.upsertCategories rows) in
         match upserted with
         | Error message => throw (StoreError message)
         | Data _ =>
             ret (json (VObj [("success", VBool true);
                              ("message", VStr (count (length normalizedCategories)
                                                ++ " categorias salvas")%string);
                              ("categories", VArr normalizedCategories)]))
         end)
    (fun e => {| status := 500;
                 payload := ErrorJson "Erro ao salvar categorias: " (Some e) false |}).

(** [app.post("/api/cache/clear")] *)
Definition clearCacheEndpoint : world -> response * world :=
  fun w => match clearCache w with
           | (_, w') => (json (VObj [("success", VBool true);
                                     ("message", VStr "Cache de produtos limpo com sucesso")]),
                         w')
           end.

(** [app.post("/api/auth/login")] *)
Definition login (answer : result (reply value)) (req : request) : option response :=
  match getProp (body req) "username", getProp (body req) "password" with
  | Ok username, Ok password =>
      loginWith (VStr "authenticated_admin_token") answer username password
  | _, _ => Some (failure 500 "Erro no processo de login")
  end.

(** [app.get("/api/auth/verify")] *)
Definition verify (req : request) : response := verifyWith checkAuth req.

(** [app.post("/api/categories/add")]; the name and the id go through a
    template literal (the log line) before the store is called. *)
Definition addCategory (req : request) : world -> response * world :=
  tryCatch
    (if unauthorized checkAuth req then ret (failure 401 "Não autorizado")
     else
       let* category := lift (getProp (body req) "category") in
       if invalidCategory category
       then ret (failure 400 "Dados da categoria inválidos")
       else
         let* name := lift (toStr (field "name" category)) in
         let* _ := lift (toStr (field "id" category)) in
         let rows := categoriesToUpsert [categoryToAdd category name] in
         let* upserted := call (UpsertCategories rows) (Supabase.upsertCategories rows) in
         match upserted with
         | Error message => throw (StoreError message)
         | Data _ =>
             ret (json (VObj [("success", VBool true);
                              ("message", VStr (addedMessage name));
                              ("category", category)]))
         end)
    (fun e => {| status := 500;
                 payload := ErrorJson "Erro ao adicionar categoria: " (Some e) false |}).

(** [app.get("/api/categories")], given [answer], what
    [await supabase.from('categories').select('*').order('name')] gives; the
    order of the rows is the store's. *)
Definition getCategories (answer : result (reply (list value))) : response :=
  match answer with
  | Ok (Data (row :: rows)) =>
      match normalizeCategories (VArr (row :: rows)) with
      | Ok normalizedCategories => json (VObj [("categories", VArr normalizedCategories)])
      | Throw _ => json (VObj [("categories", VArr [])])
      end
  | _ => json (VObj [("categories", VArr [])])
  end.

End Part000.

(** *** server.js *)
Module ServerJs.

Definition normalizeColor (color : value) : result value :=
  name ← getProp color "name";
  image ← getProp color "image";
  sizes ← getProp color "sizes";
  Ok (VObj [("name", orElse name (VStr "Sem nome"));
            ("image", orElse image (VStr placeholder));
            ("sizes", orElse sizes (VArr []))]).

(** [product.colors.map] is a function only when [product.colors] is an
    array; on any other truthy value the call throws. *)
Definition normalizeProduct (product : value) : result value :=
  sizes ← getProp product "sizes";
  pcolors ← getProp product "colors";
  id ← getProp product "id";
  title ← getProp product "title";
  category ← getProp product "category";
  pprice ← getProp product "price";
  price ← parseFloat pprice;
  description ← getProp product "description";
  status ← getProp product "status";
  colors ←
    (if truthy sizes && negb (truthy pcolors) then
       color ← getProp product "color";
       image ← getProp product "image";
       Ok [VObj [("name", orElse color (VStr "Padrão"));
                 ("image", orElse image (VStr placeholder));
                 ("sizes", orElse sizes (VArr []))]]
     else if truthy pcolors then
       match pcolors with
       | VArr l => mapM normalizeColor l
       | _ => Throw TypeError
       end
     else Ok []);
  Ok (VObj [("id", id);
            ("title", title);
            ("category", category);
            ("price", VNum price);
            ("description", orElse description (VStr ""));
            ("status", orElse status (VStr "active"));
            ("colors", VArr colors)]).

Definition normalizeProducts (products : value) : result (list value) :=
  match products with
  | VArr l => mapM normalizeProduct l
  | _ => Ok []
  end.

(** [token === process.env.ADMIN_TOKEN || token === "authenticated_admin_token"];
    [ADMIN_TOKEN] is [None] when the variable is not set. *)
Definition checkAuth (ADMIN_TOKEN : option string) (token : string) : bool :=
  match ADMIN_TOKEN with
  | Some t => String.eqb token t
  | None => false
  end || String.eqb token "authenticated_admin_token".

(** [app.get("/api/products")]; [CACHE_DURATION] is the number computed at
    start-up from [PRODUCTS_CACHE_DURATION], 120000 by default. *)
Definition getProducts (CACHE_DURATION now : Z) : world -> response * world :=
  tryCatch
    (let* c := getCache in
     match cacheRead CACHE_DURATION now c with
     | Some cached => ret (json (VObj [("products", VArr cached)]))
     | None =>
         let* r := call SelectProducts Supabase.selectProducts in
         match r with
         | Error _ => ret (failure 500 "Erro ao buscar produtos")
         | Data products =>
             let* normalizedProducts := lift (normalizeProducts (VArr products)) in
             let* _ := setCache {| cache_products := Some normalizedProducts;
                                   productsTimestamp := now |} in
             ret (json (VObj [("products", VArr normalizedProducts)]))
         end
     end)
    (fun _ => failure 500 "Erro interno do servidor").

(** [app.post("/api/products")] *)
Definition replaceAllProducts (ADMIN_TOKEN : option string) (req : request)
  : world -> response * world :=
  tryCatch
    (if unauthorized (checkAuth ADMIN_TOKEN) req then ret (failure 401 "Não autorizado")
     else
       let* products := lift (getProp (body req) "products") in
       if negb (isArray products) then ret (failure 400 "Formato de dados inválido")
       else
         let* normalizedProducts := lift (normalizeProducts products) in
         let* deleted := call DeleteProducts Supabase.deleteProducts in
         match deleted with
         | Error _ => ret (failure 500 "Erro ao limpar dados antigos")
         | Data _ =>
             let saved :=
               let* _ := clearCache in
               ret (json (VObj [("success", VBool true);
                                ("message", VStr (count (length normalizedProducts)
                                                  ++ " produtos salvos")%string);
                                ("count", VNum (ofN (N.of_nat (length normalizedProducts))))])) in
             if (0 <? length normalizedProducts)%nat then
               let rows := productsToInsert normalizedProducts in
               let* inserted := call (InsertProducts rows) (Supabase.insertProducts rows) in
               match inserted with
               | Error _ => ret (failure 500 "Erro ao salvar novos dados")
               | Data _ => saved
               end
             else saved
         end)
    (fun _ => failure 500 "Erro ao processar requisição").

(** [app.post("/api/categories")] *)
Definition replaceAllCategories (ADMIN_TOKEN : option string) (req : request)
  : world -> response * world :=
  tryCatch
    (if unauthorized (checkAuth ADMIN_TOKEN) req then ret (failure 401 "Não autorizado")
     else
       let* categories := lift (getProp (body req) "categories") in
       if negb (isArray categories) then ret (failure 400 "Formato de dados inválido")
       else
         let* normalizedCategories := lift (normalizeCategories categories) in
         if (length normalizedCategories =? 0)%nat
         then ret (failure 400 "Nenhuma categoria válida fornecida")
         else
           let rows := categoriesToUpsert normalizedCategories in
           let* upserted := call (UpsertCategories rows) (Supabase.upsertCategories rows) in
           match upserted with
           | Error _ => ret (failure 500 "Erro ao salvar categorias")
           | Data _ =>
               ret (json (VObj [("success", VBool true);
                                ("message", VStr (count (length normalizedCategories)
                                                  ++ " categorias salvas")%string);
                                ("count", VNum (ofN (N.of_nat (length normalizedCategories))))]))
           end)
    (fun _ => failure 500 "Erro interno do servidor").

(** [process.env.ADMIN_TOKEN] as a value. *)
Definition envToken (ADMIN_TOKEN : option string) : value :=
  match ADMIN_TOKEN with
  | Some t => VStr t
  | None => VUndefined
  end.

(** [app.post("/api/auth/login")]; the username goes through a template
    literal before the query. *)
Definition login (ADMIN_TOKEN : option string) (answer : result (reply value))
    (req : request) : option response :=
  match getProp (body req) "username", getProp (body req) "password" with
  | Ok username, Ok password =>
      if negb (truthy username) || negb (truthy password)
      then Some (failure 400 "Username e password são obrigatórios")
      else match toStr username with
           | Ok _ => loginWith (envToken ADMIN_TOKEN) answer username password
           | Throw _ => Some (failure 500 "Erro no processo de login")
           end
  | _, _ => Some (failure 500 "Erro no processo de login")
  end.

(** [app.get("/api/auth/verify")] *)
Definition verify (ADMIN_TOKEN : option string) (req : request) : response :=
  verifyWith (checkAuth ADMIN_TOKEN) req.

(** [app.get("/api/categories")]: [normalizeCategories(categories || [])] *)
Definition getCategories (answer : result (reply (list value))) : response :=
  match answer with
  | Ok (Data rows) =>
      match normalizeCategories (VArr rows) with
      | Ok normalizedCategories => json (VObj [("categories", VArr normalizedCategories)])
      | Throw _ => json (VObj [("categories", VArr [])])
      end
  | _ => json (VObj [("categories", VArr [])])
  end.

(** [app.delete("/api/categories/:categoryId")]: as in index.js, of the
    answers to the product query, to the search for another category and to
    the update only [data] is read; the catch block does not pass the cause
    on. *)
Definition deleteCategory (ADMIN_TOKEN : option string) (req : request)
  : world -> response * world :=
  tryCatch
    (if unauthorized (checkAuth ADMIN_TOKEN) req then ret (failure 401 "Não autorizado")
     else
       let id := categoryId req in
       let* fetched := call (SelectCategory id) (Supabase.selectCategory id) in
       match fetched with
       | Error _ => ret (failure 404 "Categoria não encontrada")
       | Data category =>
           let* found := call (SelectProductsOf id) (Supabase.selectProductsOf id) in
           let* _ :=
             match found with
             | Data (p :: ps) =>
                 let* others := call (SelectOtherCategory id)
                                     (Supabase.selectOtherCategory id) in
                 match others with
                 | Data (other :: _) =>
                     let newCategoryId := cat_id other in
                     let* _ := call (UpdateProductsCategory id newCategoryId)
                                    (Supabase.updateProductsCategory id newCategoryId) in
                     ret tt
                 | _ => ret tt
                 end
             | _ => ret tt
             end in
           let* deleted := call (DeleteCategory id) (Supabase.deleteCategory id) in
           match deleted with
           | Error message => throw (StoreError message)
           | Data _ =>
               ret (json (VObj [("success", VBool true);
                                ("message", VStr (deletedMessage (cat_name category)))]))
           end
       end)
    (fun _ => failure 500 "Erro ao excluir categoria").

(** [app.post("/api/categories/add")].  The success body carries the [data]
    of an upsert without [select]: [data rows] is what the client library in
    use hands back for the rows written ([null] in supabase-js 2, the rows in
    supabase-js 1). *)
Definition addCategory (ADMIN_TOKEN : option string) (data : list categoryRow -> value)
    (req : request) : world -> response * world :=
  tryCatch
    (if unauthorized (checkAuth ADMIN_TOKEN) req then ret (failure 401 "Não autorizado")
     else
       let* category := lift (getProp (body req) "category") in
       if invalidCategory category
       then ret (failure 400 "Dados da categoria inválidos")
       else
         let* name := lift (toStr (field "name" category)) in
         let rows := categoriesToUpsert [categoryToAdd category name] in
         let* upserted := call (UpsertCategories rows) (Supabase.upsertCategories rows) in
         match upserted with
         | Error _ => ret (failure 500 "Erro ao salvar categoria")
         | Data _ =>
             ret (json (VObj [("success", VBool true);
                              ("message", VStr (addedMessage name));
                              ("category", data rows)]))
         end)
    (fun _ => failure 500 "Erro interno do servidor").

End ServerJs.

(** *** index.js *)
Module IndexJs.

(** [{...product, colors: c}].  Both uses are reached only when
    [product.sizes] is truthy or [product.colors] is an array, which a
    primitive or an array never satisfies: [product] is then a plain object. *)
Definition spreadWithColors (product : value) (c : value) : value :=
  match product with
  | VObj fs => VObj (setField "colors" c fs)
  | _ => VObj [("colors", c)]
  end.

Definition normalizeColor (color : value) : result value :=
  name ← getProp color "name";
  image ← getProp color "image";
  sizes ← getProp color "sizes";
  Ok (VObj [("name", orElse name (VStr "Sem nome"));
            ("image", orElse image (VStr placeholder));
            ("sizes", orElse sizes (VArr []))]).

Definition normalizeProduct (product : value) : result value :=
  sizes ← getProp product "sizes";
  pcolors ← getProp product "colors";
  if truthy sizes && negb (truthy pcolors) then
    color ← getProp product "color";
    image ← getProp product "image";
    Ok (spreadWithColors product
          (VArr [VObj [("name", orElse color (VStr "Padrão"));
                       ("image", orElse image (VStr placeholder));
                       ("sizes", sizes)]]))
  else
    match pcolors with
    | VArr l =>
        colors ← mapM normalizeColor l;
        Ok (spreadWithColors product (VArr colors))
    | _ => Ok product
    end.

Definition normalizeProducts (products : value) : result (list value) :=
  match products with
  | VArr l => mapM normalizeProduct l
  | _ => Ok []
  end.

Definition CACHE_DURATION : Z := 2 * 60 * 1000.

Definition checkAuth (token : string) : bool :=
  String.eqb token "authenticated_admin_token".

(** [app.get("/api/products")] *)
Definition getProducts (now : Z) : world -> response * world :=
  tryCatch
    (let* c := getCache in
     match cacheRead CACHE_DURATION now c with
     | Some cached => ret (json (VObj [("products", VArr cached)]))
     | None =>
         let* r := call SelectProducts Supabase.selectProducts in
         match r with
         | Error _ => ret (json (VObj [("products", VArr [])]))
         | Data products =>
             let* normalizedProducts := lift (normalizeProducts (VArr products)) in
             let* _ := setCache {| cache_products := Some normalizedProducts;
                                   productsTimestamp := now |} in
             ret (json (VObj [("products", VArr normalizedProducts)]))
         end
     end)
    (fun _ => json (VObj [("products", VArr [])])).

(** [app.delete("/api/categories/:categoryId")]: of the answers to the
    product query, to the search for another category and to the update,
    only [data] is read. *)
Definition deleteCategory (req : request) : world -> response * world :=
  tryCatch
    (if unauthorized checkAuth req then ret (failure 401 "Não autorizado")
     else
       let id := categoryId req in
       let* fetched := call (SelectCategory id) (Supabase.selectCategory id) in
       match fetched with
       | Error _ => ret (failure 404 "Categoria não encontrada")
       | Data category =>
           let* found := call (SelectProductsOf id) (Supabase.selectProductsOf id) in
           let* _ :=
             match found with
             | Data (p :: ps) =>
                 let* others := call (SelectOtherCategory id)
                                     (Supabase.selectOtherCategory id) in
                 match others with
                 | Data (other :: _) =>
                     let newCategoryId := cat_id other in
                     let* _ := call (UpdateProductsCategory id newCategoryId)
                                    (Supabase.updateProductsCategory id newCategoryId) in
                     ret tt
                 | _ => ret tt
                 end
             | _ => ret tt
             end in
           let* deleted := call (DeleteCategory id) (Supabase.deleteCategory id) in
           match deleted with
           | Error message => throw (StoreError message)
           | Data _ =>
               ret (json (VObj [("success", VBool true);
                                ("message", VStr (deletedMessage (cat_name category)))]))
           end
       end)
    (fun e => {| status := 500;
                 payload := ErrorJson "Erro ao excluir categoria: " (Some e) false |}).

(** [app.post("/api/auth/login")] *)
Definition login (answer : result (reply value)) (req : request) : option response :=
  match getProp (body req) "username", getProp (body req) "password" with
  | Ok username, Ok password =>
      loginWith (VStr "authenticated_admin_token") answer username password
  | _, _ => Some (failure 500 "Erro no processo de login")
  end.

(** [app.get("/api/auth/verify")] *)
Definition verify (req : request) : response := verifyWith checkAuth req.

(** [app.post("/api/products")] *)
Definition replaceAllProducts (req : request) : world -> response * world :=
  tryCatch
    (if unauthorized checkAuth req then ret (failure 401 "Não autorizado")
     else
       let* products := lift (getProp (body req) "products") in
       let* _ := lift (logLength products) in
       let* normalizedProducts := lift (normalizeProducts products) in
       let* deleted := call DeleteProducts Supabase.deleteProducts in
       let* _ := match deleted with
                 | Error message =>
                     if negb (includes "No rows found" message)
                     then throw (StoreError message) else ret tt
                 | Data _ => ret tt
                 end in
       let* _ :=
         (if (0 <? length normalizedProducts)%nat then
            let rows := productsToInsert normalizedProducts in
            let* inserted := call (InsertProducts rows) (Supabase.insertProducts rows) in
            match inserted with
            | Error message => throw (StoreError message)
            | Data _ => ret tt
            end
          else ret tt) in
       let* _ := clearCache in
       ret (json (VObj [("success", VBool true);
                        ("message", VStr (count (length normalizedProducts)
                                          ++ " produtos salvos")%string)])))
    (fun e => {| status := 500;
                 payload := ErrorJson "Erro ao salvar produtos: " (Some e) false |}).

(** [app.post("/api/categories/add")] *)
Definition addCategory (req : request) : world -> response * world :=
  tryCatch
    (if unauthorized checkAuth req then ret (failure 401 "Não autorizado")
     else
       let* category := lift (getProp (body req) "category") in
       if invalidCategory category
       then ret (failure 400 "Dados da categoria inválidos")
       else
         let* name := lift (toStr (field "name" category)) in
         let rows := categoriesToUpsert [categoryToAdd category name] in
         let* upserted := call (UpsertCategories rows) (Supabase.upsertCategories rows) in
         match upserted with
         | Error message => throw (StoreError message)
         | Data _ =>
             ret (json (VObj [("success", VBool true);
                              ("message", VStr (addedMessage name))]))
         end)
    (fun e => {| status := 500;
                 payload := ErrorJson "Erro ao adicionar categoria: " (Some e) false |}).

(** [app.get("/api/categories")] *)
Definition getCategories (answer : result (reply (list value))) : response :=
  match answer with
  | Ok (Data (row :: rows)) =>
      match normalizeCategories (VArr (row :: rows)) with
      | Ok normalizedCategories => json (VObj [("categories", VArr normalizedCategories)])
      | Throw _ => json (VObj [("categories", VArr [])])
      end
  | _ => json (VObj [("categories", VArr [])])
  end.

End IndexJs.

(** ** Vocabulary of the statements *)

Definition isString (v : value) : bool :=
  match v with VStr _ => true | _ => false end.

Definition isPlainObject (v : value) : bool :=
  match v with VObj _ => true | _ => false end.

(** The identifier an input category element carries: the element itself
    when it is a string, its [id] field when it is an object. *)
Definition idOf (cat : value) : value :=
  match cat with
  | VStr s => VStr s
  | _ => field "id" cat
  end.

(** An element is kept when it is a string or an object carrying an [id]. *)
Definition retained (cat : value) : bool :=
  isString cat || (isPlainObject cat && truthy (field "id" cat)).

(** The shape C2 asks of an output product. *)
Definition nonEmptySizes (color : value) : Prop :=
  exists s ss, field "sizes" color = VArr (s :: ss).

Definition colorsAndSizesNonEmpty (product : value) : Prop :=
  exists c cs, field "colors" product = VArr (c :: cs) /\ Forall nonEmptySizes (c :: cs).

(** An input product that carries no empty [colors] array and no color with
    an empty [sizes] array. *)
Definition noEmptySizes (color : value) : Prop :=
  field "sizes" color <> VArr [].

Definition noEmptyArrays (product : value) : Prop :=
  match field "colors" product with
  | VArr [] => False
  | VArr l => Forall noEmptySizes l
  | _ => True
  end.

(** The color injected when a product has no [colors] array. *)
(** The one color that index.js and server.js give to a product that has
    sizes and no colors. *)
Definition oneColor (product : value) : value :=
  VObj [("name", orElse (field "color" product) (VStr "Padrão"));
        ("image", orElse (field "image" product) (VStr placeholder));
        ("sizes", field "sizes" product)].

Definition defaultColor (image : value) : value :=
  VObj [("name", VStr "Padrão");
        ("image", orElse image (VStr placeholder));
        ("sizes", defaultSizes)].




(** Digits as Number::toString has them: decimal, no leading and no
    trailing zero. *)
Definition canonicalDigits (ds : list nat) : Prop :=
  Forall (fun d => (d < 10)%nat) ds /\
  (exists d r, ds = d :: r /\ d <> 0%nat) /\
  (exists r d, ds = r ++ [d] /\ d <> 0%nat).

Definition canonical (x : number) : Prop :=
  match x with
  | Dec _ ds _ => canonicalDigits ds
  | _ => True
  end.

(** An integer: no digit after the point. *)
Definition isInteger (x : number) : Prop :=
  match x with
  | Dec _ ds n => Z.of_nat (length ds) <= n
  | _ => True
  end.

(** Magnitude below 10^21, where Number::toString switches to exponent
    notation. *)
Definition below1e21 (x : number) : Prop :=
  match x with
  | Dec _ _ n => n <= 21
  | _ => True
  end.

Definition asList (v : value) : list value :=
  match v with VArr l => l | _ => [] end.

(** A normalised size that a second pass leaves alone: its name is not the
    empty string and its stock is below 10^21. *)
Definition stableSize (sz : value) : Prop :=
  field "name" sz <> VStr "" /\
  match field "stock" sz with
  | VNum x => below1e21 x
  | _ => True
  end.

Definition stableProduct (product : value) : Prop :=
  Forall (fun color => Forall stableSize (asList (field "sizes" color)))
         (asList (field "colors" product)).

(** The world once the GET handler has stored [v] in the cache at time [t]. *)
Definition filled (v : list value) (t : Z) (w : world) : world :=
  (setCache {| cache_products := Some v; productsTimestamp := t |} w).2.

(** One reading of a filter text: the items written between single quotes. *)
Fixpoint quotedItems (text : string) (item : option string) : list string :=
  match text with
  | EmptyString => []
  | String c r =>
      match item with
      | Some i =>
          if Ascii.eqb c "'" then i :: quotedItems r None
          else quotedItems r (Some (i ++ String c EmptyString)%string)
      | None =>
          if Ascii.eqb c "'" then quotedItems r (Some EmptyString)
          else quotedItems r None
      end
  end.

Definition singleQuoted (text : string) : list string := quotedItems text None.

(** A fresh process over an empty store that answers every call. *)
Definition emptyWorld : world :=
  {| db := {| products := []; categories := []; nextId := 1; inList := singleQuoted |};
     cache := {| cache_products := None; productsTimestamp := 0 |};
     faults := [];
     trace := [] |}.

(** The next call to the store does not answer. *)
Definition storeFails (w : world) : Prop :=
  exists f fs, faults w = f :: fs /\ f <> Answers.

Definition emptyList : response := json (VObj [("products", VArr [])]).

(** A success carrying some product list. *)
Definition successWithProducts (r : response) : Prop :=
  status r = 200 /\ exists ps, payload r = Json (VObj [("products", VArr ps)]).

(** A fresh process whose store fails the next call with an error object. *)
Definition failingWorld : world :=
  {| db := db emptyWorld; cache := cache emptyWorld;
     faults := [Fails "connection refused"]; trace := [] |}.

(** The [{product, error}] entries the row-by-row retry collects when the
    store treats the rows, in order, as [fs] says; past the end of [fs] the
    store answers. *)
Fixpoint rowFailures (rows : list value) (fs : list fault) : list (value * string) :=
  match rows, fs with
  | row :: rest, Fails message :: fs' =>
      Part000.rowError (field "title" row) message ++ rowFailures rest fs'
  | row :: rest, Rejects message :: fs' => (field "title" row, message) :: rowFailures rest fs'
  | row :: rest, Answers :: fs' => rowFailures rest fs'
  | _, _ => []
  end.

Definition savedProducts (normalizedProducts : list value) : response :=
  json (VObj [("success", VBool true);
              ("message", VStr (count (length normalizedProducts) ++ " produtos salvos")%string);
              ("products", VArr normalizedProducts)]).

Definition partialWriteFailure (errors : list (value * string)) : response :=
  {| status := 500;
     payload := ErrorJson "Erro ao salvar produtos: " (Some (InsertFailures errors)) true |}.

Definition adminRequest (body : value) : request :=
  {| authorization := Some "Bearer authenticated_admin_token";
     body := body; categoryId := "" |}.

(** A fresh process whose store answers the delete and fails the bulk insert;
    the calls after that go as [fs] says. *)
Definition bulkFailingWorld (fs : list fault) : world :=
  {| db := db emptyWorld; cache := cache emptyWorld;
     faults := Answers :: Fails "bulk insert failed" :: fs; trace := [] |}.

Definition tee : value := VObj [("title", VStr "Tee"); ("price", VStr "19.90")].

Definition idsOf (table : list categoryRow) : list string := map cat_id table.

(** The table after the rows are upserted one after the other. *)
Definition upsertAll (rows table : list categoryRow) : list categoryRow :=
  fold_left (fun t r => Supabase.upsertCategory r t) rows table.

Definition savedCategories (normalizedCategories : list value) : response :=
  json (VObj [("success", VBool true);
              ("message", VStr (count (length normalizedCategories)
                                ++ " categorias salvas")%string);
              ("categories", VArr normalizedCategories)]).

Definition categoryRowOf (id name : string) : categoryRow :=
  {| cat_id := id; cat_name := name; cat_description := ("Categoria de " ++ name)%string |}.

Definition productRow (id : N) (title category : string) : value :=
  VObj [("id", VNum (ofN id)); ("title", VStr title); ("category", VStr category)].

(** A store with two categories and three products, two of them in the
    first category; the store answers as [fs] says. *)
Definition catalogWorld (fs : list fault) : world :=
  {| db := {| products := [productRow 1 "Tee" "camisa"; productRow 2 "Polo" "camisa";
                           productRow 3 "Jeans" "calca"];
              categories := [categoryRowOf "camisa" "Camisa"; categoryRowOf "calca" "Calca"];
              nextId := 4; inList := singleQuoted |};
     cache := {| cache_products := None; productsTimestamp := 0 |};
     faults := fs;
     trace := [] |}.

Definition deleteRequest (id : string) : request :=
  {| authorization := Some "Bearer authenticated_admin_token";
     body := VUndefined; categoryId := id |}.

(** The five calls of a guarded deletion, in order. *)
Definition guardedDeletion (id newCategoryId : string) : list command :=
  [SelectCategory id; SelectProductsOf id; SelectOtherCategory id;
   UpdateProductsCategory id newCategoryId; DeleteCategory id].

Definition deletedCategory (category : categoryRow) : response :=
  json (VObj [("success", VBool true);
              ("message", VStr (deletedMessage (cat_name category)))]).

Definition loginRequest (username password : value) : request :=
  {| authorization := None;
     body := VObj [("username", username); ("password", password)];
     categoryId := "" |}.

(** The JSON document of a response. *)
Definition sent (r : response) : value :=
  match payload r with
  | Json v => v
  | ErrorJson _ _ _ => VUndefined
  end.

(** A request that carries [token] the way the client sends it. *)
Definition bearer (token : string) (body : value) (categoryId : string) : request :=
  {| authorization := Some ("Bearer " ++ token)%string;
     body := body; categoryId := categoryId |}.

Definition invalidCredentials : response := failure 401 "Credenciais inválidas".
(** The three variants of the service; [server.js] reads [ADMIN_TOKEN] from
    the environment. *)
Inductive file :=
| part_000
| index_js
| server_js (ADMIN_TOKEN : option string).

Definition checkAuthOf (f : file) : string -> bool :=
  match f with
  | part_000 => Part000.checkAuth
  | index_js => IndexJs.checkAuth
  | server_js ADMIN_TOKEN => ServerJs.checkAuth ADMIN_TOKEN
  end.

Definition loginOf (f : file) : result (reply value) -> request -> option response :=
  match f with
  | part_000 => Part000.login
  | index_js => IndexJs.login
  | server_js ADMIN_TOKEN => ServerJs.login ADMIN_TOKEN
  end.

Definition verifyOf (f : file) : request -> response :=
  match f with
  | part_000 => Part000.verify
  | index_js => IndexJs.verify
  | server_js ADMIN_TOKEN => ServerJs.verify ADMIN_TOKEN
  end.

(** The [valid] flag of the answer of [/api/auth/verify]. *)
Definition valid (r : response) : bool :=
  match field "valid" (sent r) with
  | VBool b => b
  | _ => false
  end.
(** The password of the request is not an array or an object: [Buffer.from]
    takes its bytes when it is a string and throws on the other values. *)
Definition plainPassword (req : request) : bool :=
  match getProp (body req) "password" with
  | Ok (VArr _) | Ok (VObj _) => false
  | _ => true
  end.

(** The row that [migrateDataToSupabase] of index.js inserts into
    [admin_credentials] when the table is empty. *)
Definition seededCredentials : value :=
  VObj [("username", VStr "admin");
        ("password", VStr "admin123");
        ("encrypted_password", VStr (simpleEncrypt "admin123"))].

Definition loggedIn (token username : value) : response :=
  json (VObj [("success", VBool true); ("token", token);
              ("user", VObj [("username", username)])]).

(** The admin-gated handlers of each file: every route that checks the
    token.  [data] is what the client library of server.js hands back for an
    upsert. *)
Definition adminHandlers (data : list categoryRow -> value) (f : file)
  : list (request -> world -> response * world) :=
  match f with
  | part_000 => [Part000.replaceAllProducts; Part000.replaceAllCategories;
                 Part000.addCategory; Part000.deleteCategory]
  | index_js => [IndexJs.replaceAllProducts; IndexJs.addCategory; IndexJs.deleteCategory]
  | server_js ADMIN_TOKEN => [ServerJs.replaceAllProducts ADMIN_TOKEN;
                              ServerJs.replaceAllCategories ADMIN_TOKEN;
                              ServerJs.addCategory ADMIN_TOKEN data;
                              ServerJs.deleteCategory ADMIN_TOKEN]
  end.

Definition notAuthorized : response := failure 401 "Não autorizado".
Definition addRequest (category : value) : request :=
  adminRequest (VObj [("category", category)]).

(** The table row that [/api/categories/add] writes for [category]. *)
Definition addedRow (category : value) (id name : string) : categoryRow :=
  {| cat_id := id; cat_name := name;
     cat_description := text (orElse (field "description" category)
                                     (VStr ("Categoria de " ++ name)%string)) |}.

Definition invalidCategoryData : response := failure 400 "Dados da categoria inválidos".
Definition getCategoriesOf (f : file) : result (reply (list value)) -> response :=
  match f with
  | part_000 => Part000.getCategories
  | index_js => IndexJs.getCategories
  | server_js _ => ServerJs.getCategories
  end.

(** A row of the categories table as the store hands it back. *)
Definition rowValue (c : categoryRow) : value :=
  VObj [("id", VStr (cat_id c)); ("name", VStr (cat_name c));
        ("description", VStr (cat_description c))].

Definition categoryList (cs : list value) : response :=
  json (VObj [("categories", VArr cs)]).

(** The store did not hand back rows. *)
Definition noRows {A} (answer : result (reply A)) : bool :=
  match answer with
  | Ok (Data _) => false
  | _ => true
  end.
Definition deleteCategoryOf (f : file) : request -> world -> response * world :=
  match f with
  | part_000 => Part000.deleteCategory
  | index_js => IndexJs.deleteCategory
  | server_js ADMIN_TOKEN => ServerJs.deleteCategory ADMIN_TOKEN
  end.

Definition categoryNotFound : response := failure 404 "Categoria não encontrada".

(** The products of a store after those of category [id] have moved to the
    first other category, when there is one and there is something to move. *)
Definition afterMove (id : string) (s : store) : list value :=
  match filter (fun r => hasCategory id r) (products s),
        filter (fun c => negb (String.eqb (cat_id c) id)) (categories s) with
  | _ :: _, other :: _ =>
      map (fun r => if hasCategory id r then Supabase.setCategory (cat_id other) r else r)
          (products s)
  | _, _ => products s
  end.

(** The calls of a deletion that the store answers. *)
Definition deletionCalls (id : string) (s : store) : list command :=
  match filter (fun r => hasCategory id r) (products s),
        filter (fun c => negb (String.eqb (cat_id c) id)) (categories s) with
  | [], _ => [SelectCategory id; SelectProductsOf id; DeleteCategory id]
  | _ :: _, [] => [SelectCategory id; SelectProductsOf id; SelectOtherCategory id;
                   DeleteCategory id]
  | _ :: _, other :: _ => guardedDeletion id (cat_id other)
  end.

(** Every product names a category of the table. *)
Definition consistent (s : store) : Prop :=
  Forall (fun r => exists c, c ∈ categories s /\ hasCategory (cat_id c) r = true)
         (products s).
(** A store whose only category has one product. *)
Definition lastCategoryWorld : world :=
  {| db := {| products := [productRow 1 "Tee" "camisa"];
              categories := [categoryRowOf "camisa" "Camisa"];
              nextId := 2; inList := singleQuoted |};
     cache := {| cache_products := None; productsTimestamp := 0 |};
     faults := [];
     trace := [] |}.
Definition productsRequest (products : value) : request :=
  adminRequest (VObj [("products", products)]).

Definition clearedCache : cacheState := {| cache_products := None; productsTimestamp := 0 |}.

(** The store after every row but those of id 0 is deleted. *)
Definition wiped (s : store) : store :=
  {| products := filter (fun r => isRow0 r) (products s);
     categories := categories s; nextId := nextId s; inList := inList s |}.
(** The rows of the store after a save of [normalizedProducts] that started
    with [nextId = id]. *)
Definition storedProducts (id : N) (normalizedProducts : list value) : list value :=
  numbered id (productsToInsert normalizedProducts).

Definition productList (ps : list value) : response :=
  json (VObj [("products", VArr ps)]).
Definition categoriesRequest (categories : value) : request :=
  adminRequest (VObj [("categories", categories)]).

Definition cachedAt (v : list value) (t : Z) : cacheState :=
  {| cache_products := Some v; productsTimestamp := t |}.
(** The canonical schema of part_000: the keys, in order, and what is known
    of each value. *)
Definition canonicalSize (sz : value) : Prop :=
  exists name stock,
    sz = VObj [("name", VStr name); ("stock", VNum stock)] /\ stock <> NaN.

Definition canonicalColor (color : value) : Prop :=
  exists name image sizes,
    color = VObj [("name", name); ("image", image); ("sizes", VArr sizes)] /\
    truthy name = true /\ truthy image = true /\ Forall canonicalSize sizes.

Definition canonicalProduct (product : value) : Prop :=
  exists id title category price description status colors,
    product = VObj [("id", id); ("title", title); ("category", category);
                    ("price", VNum price); ("description", description);
                    ("status", status); ("colors", VArr colors)] /\
    truthy id = true /\ truthy title = true /\ truthy category = true /\
    price <> NaN /\ truthy description = true /\ truthy status = true /\
    Forall canonicalColor colors.

(** The handlers of each file that write categories: replace, add, delete. *)
Definition categoryHandlers (data : list categoryRow -> value) (f : file)
  : list (request -> world -> response * world) :=
  match f with
  | part_000 => [Part000.replaceAllCategories; Part000.addCategory; Part000.deleteCategory]
  | index_js => [IndexJs.addCategory; IndexJs.deleteCategory]
  | server_js ADMIN_TOKEN => [ServerJs.replaceAllCategories ADMIN_TOKEN;
                              ServerJs.addCategory ADMIN_TOKEN data;
                              ServerJs.deleteCategory ADMIN_TOKEN]
  end.

(** A handler step that leaves the product cache alone. *)
Definition keepsCache {A} (m : M A) : Prop :=
  forall w, cache (m w).2 = cache w.

(** ** Where the model is the code

    The first character of a text is ASCII (or the text is empty). *)
Definition asciiFirst (s : string) : bool :=
  match s with
  | EmptyString => true
  | String c _ => (nat_of_ascii c <? 128)%nat
  end.

(** An input category whose name, when the normaliser has to derive it by
    capitalisation, comes from a text with an ASCII first character. *)
Definition asciiNamed (cat : value) : bool :=
  match cat with
  | VStr s => asciiFirst s
  | VObj fs =>
      truthy (lookupField "name" fs) ||
      match lookupField "id" fs with
      | VStr s => asciiFirst s
      | _ => true
      end
  | _ => true
  end.

(** A normalised category whose id, name and description are strings, as
    the text columns of the table hold them. *)
Definition textual (category : value) : bool :=
  isString (field "id" category) && isString (field "name" category)
  && isString (field "description" category).

(** A number that the model holds as the code does: at most 15 significant
    digits, between 1e-300 and 1e300, or not finite. *)
Definition exact15 (x : number) : bool :=
  match x with
  | Dec _ ds n => (length ds <=? 15)%nat && (-300 <=? n) && (n <=? 300)
  | _ => true
  end.

(** Every number inside a value is exact. *)
Fixpoint exactValue (v : value) : bool :=
  match v with
  | VNum x => exact15 x
  | VArr l => forallb exactValue l
  | VObj fs => forallb (fun kv => exactValue kv.2) fs
  | _ => true
  end.

(** The rows of a save reach the store as they are: JSON.stringify finds
    nothing undefined and no number that is not finite in them. *)
Definition sentAsIs (rows : list value) : Prop := map toJson rows = rows.

(** * Properties *)

Section ResultLists.
Context {A B : Type}.
Implicit Types (f : A -> result B) (l : list A) (k : list B).

Lemma mapM_Ok_inv f l k :
  mapM f l = Ok k -> Forall2 (fun x y => f x = Ok y) l k.
Proof.
  revert k; induction l as [|x l IH]; intros k; simpl.
  - intros [= <-]. constructor.
  - destruct (f x) as [y|e] eqn:Hx; simpl; [|discriminate].
    destruct (mapM f l) as [k'|e] eqn:Hl; simpl; [|discriminate].
    intros [= <-]. constructor; auto.
Qed.

Lemma mapM_Ok_intro f l k :
  Forall2 (fun x y => f x = Ok y) l k -> mapM f l = Ok k.
Proof.
  induction 1 as [|x y l k Hx _ IH]; simpl; [done|].
  by rewrite Hx; simpl; rewrite IH.
Qed.

Lemma mapM_Ok_length f l k : mapM f l = Ok k -> length k = length l.
Proof. intros H%mapM_Ok_inv. symmetry. by eapply Forall2_length. Qed.

Lemma mapWithIndex_Ok_inv (g : nat -> A -> result B) i l k :
  mapWithIndex g i l = Ok k ->
  length k = length l /\
  forall j x, l !! j = Some x -> exists y, k !! j = Some y /\ g (i + j)%nat x = Ok y.
Proof.
  revert i k; induction l as [|x l IH]; intros i k; simpl.
  - intros [= <-]. split; [done|]. intros j x Hj. by rewrite lookup_nil in Hj.
  - destruct (g i x) as [y|e] eqn:Hx; simpl; [|discriminate].
    destruct (mapWithIndex g (S i) l) as [k'|e] eqn:Hl; simpl; [|discriminate].
    intros [= <-]. destruct (IH _ _ Hl) as [Hlen Hk]. split; [simpl; lia|].
    intros [|j] x' Hj; simpl in *.
    + injection Hj as <-. exists y. by rewrite Nat.add_0_r.
    + destruct (Hk j x' Hj) as (y' & ? & ?). exists y'.
      by replace (i + S j)%nat with (S i + j)%nat by lia.
Qed.
End ResultLists.

(** *** normalizeCategories *)

Lemma normalizeCategory_id cat c :
  normalizeCategory cat = Ok c ->
  if retained cat then field "id" c = idOf cat else c = VNull.
Proof.
  destruct cat as [| |b|x|s|l|fs]; simpl; try (by intros [= <-]).
  unfold retained; simpl.
  destruct (truthy (lookupField "id" fs)); [|by intros [= <-]].
  destruct (if truthy (lookupField "name" fs) then _ else _) as [n|e]; simpl; [|done].
  destruct (if truthy (lookupField "description" fs) then _ else _) as [d|e]; simpl; [|done].
  by intros [= <-].
Qed.

Lemma normalizeCategory_null_iff cat c :
  normalizeCategory cat = Ok c -> isNull c = negb (retained cat).
Proof.
  destruct cat as [| |b|x|s|l|fs]; simpl; try (by intros [= <-]).
  unfold retained; simpl.
  destruct (truthy (lookupField "id" fs)); [|by intros [= <-]].
  destruct (if truthy (lookupField "name" fs) then _ else _) as [n|e]; simpl; [|done].
  destruct (if truthy (lookupField "description" fs) then _ else _) as [d|e]; simpl; [|done].
  by intros [= <-].
Qed.

Example normalizeCategories_shoes :
  normalizeCategories (VArr [VStr "shoes"])
  = Ok [VObj [("id", VStr "shoes"); ("name", VStr "Shoes");
              ("description", VStr "Categoria de shoes")]].
Proof. reflexivity. Qed.

(** C10.  Whenever [normalizeCategories] returns, its output lines up, in
    order, with the input elements it retains (the strings and the objects
    carrying an id), and each output category's id is the retained element
    itself (a string) or its id field (an object): no id is defaulted,
    renamed or invented. *)
Theorem normalizeCategories_ids_in_order (xs out : list value) :
  normalizeCategories (VArr xs) = Ok out ->
  Forall2 (fun x c => field "id" c = idOf x) (filter (fun x => retained x) xs) out.
Proof.
  unfold normalizeCategories.
  destruct (mapM normalizeCategory xs) as [mapped|e] eqn:Hm; simpl; [|done].
  intros [= <-]. apply mapM_Ok_inv in Hm.
  induction Hm as [|x c xs mapped Hx _ IH]; simpl; [constructor|].
  pose proof (normalizeCategory_id _ _ Hx) as Hid.
  pose proof (normalizeCategory_null_iff _ _ Hx) as Hnull.
  rewrite !filter_cons.
  destruct (retained x) eqn:Hr; simpl in *.
  - rewrite Hnull; simpl. by constructor.
  - by rewrite Hnull; simpl.
Qed.

Lemma normalizeCategories_ids_in_order_witness :
  exists out,
    normalizeCategories (VArr [VStr "shoes"; VNull; VObj [("id", VStr "hats")]]) = Ok out /\
    Forall2 (fun x c => field "id" c = idOf x) [VStr "shoes"; VObj [("id", VStr "hats")]] out.
Proof.
  eexists. split; [reflexivity|].
  exact (normalizeCategories_ids_in_order
           [VStr "shoes"; VNull; VObj [("id", VStr "hats")]] _ eq_refl).
Defined.

(** *** Reading the monadic code *)

Lemma bind_Ok_inv {A B} (f : A -> result B) (m : result A) (y : B) :
  m ≫= f = Ok y -> exists x, m = Ok x /\ f x = Ok y.
Proof. destruct m as [x|e]; simpl; [eauto|done]. Qed.

Lemma fmap_Ok_inv {A B} (f : A -> B) (m : result A) (y : B) :
  f <$> m = Ok y -> exists x, m = Ok x /\ y = f x.
Proof. destruct m as [x|e]; simpl; [|done]. intros [= <-]. eauto. Qed.

Lemma getProp_field v k w : getProp v k = Ok w -> w = field k v.
Proof. destruct v; simpl; congruence. Qed.

Ltac inv_bind :=
  repeat match goal with
    | H : _ ≫= _ = Ok _ |- _ =>
        let x := fresh "x" in
        let Hx := fresh "Hx" in
        apply bind_Ok_inv in H as (x & Hx & H)
    | H : _ <$> _ = Ok _ |- _ =>
        let x := fresh "x" in
        let Hx := fresh "Hx" in
        apply fmap_Ok_inv in H as (x & Hx & H)
    | H : getProp _ _ = Ok _ |- _ => apply getProp_field in H
    | H : Ok _ = Ok _ |- _ => injection H as H
    end.

(** *** normalizeProducts: colors and sizes *)

Lemma orElse_true a b : truthy a = true -> orElse a b = a.
Proof. unfold orElse. by intros ->. Qed.

Lemma getProp_total v k w :
  getProp v k = Ok w -> forall k', getProp v k' = Ok (field k' v).
Proof. destruct v; simpl; congruence. Qed.

Lemma Part000_normalizeColor_sizes color c :
  Part000.normalizeColor color = Ok c ->
  match field "sizes" color with
  | VArr l => exists ss, field "sizes" c = VArr ss /\ length ss = length l
  | _ => field "sizes" c = defaultSizes
  end.
Proof.
  unfold Part000.normalizeColor. intros H. inv_bind. subst.
  destruct (field "sizes" color) eqn:Hs; simpl in *; inv_bind; subst; simpl; try done.
  eexists; split; [done|]. by eapply mapM_Ok_length.
Qed.

Lemma Part000_normalizeProduct_colors index product p :
  Part000.normalizeProduct index product = Ok p ->
  match field "colors" product with
  | VArr l => exists cs, field "colors" p = VArr cs /\
                         Forall2 (fun c c' => Part000.normalizeColor c = Ok c') l cs
  | _ => field "colors" p = VArr [defaultColor (field "image" product)]
  end.
Proof.
  unfold Part000.normalizeProduct. intros H. inv_bind. subst.
  destruct (field "colors" product) eqn:Hs; simpl in *; inv_bind; subst; simpl; try done.
  eexists; split; [done|]. by apply mapM_Ok_inv.
Qed.

Example Part000_normalizeProducts_tee :
  exists p,
    Part000.normalizeProducts
      (VArr [VObj [("title", VStr "Tee"); ("price", VStr "19.90");
                   ("colors", VArr [VObj [("name", VStr "Red")]])]]) = Ok [p] /\
    field "price" p = VNum (Dec false [1; 9; 9]%nat 2) /\
    numberToString (Dec false [1; 9; 9]%nat 2) = list_ascii_of_string "19.9" /\
    exists c, field "colors" p = VArr [c] /\ field "sizes" c = defaultSizes.
Proof.
  eexists. split; [reflexivity|]. split; [reflexivity|]. split; [reflexivity|].
  eexists. split; reflexivity.
Qed.

Lemma defaultSizes_nonEmpty image : nonEmptySizes (defaultColor image).
Proof. by eexists _, _. Qed.

Lemma Part000_colors_and_sizes (xs out : list value) :
  Forall noEmptyArrays xs ->
  Part000.normalizeProducts (VArr xs) = Ok out ->
  Forall colorsAndSizesNonEmpty out /\
  Forall2 (fun x p =>
             (isArray (field "colors" x) = false ->
              field "colors" p = VArr [defaultColor (field "image" x)]) /\
             forall l cs, field "colors" x = VArr l -> field "colors" p = VArr cs ->
               Forall2 (fun c c' => isArray (field "sizes" c) = false ->
                                    field "sizes" c' = defaultSizes) l cs) xs out.
Proof.
  intros Hin Hn. simpl in Hn.
  apply mapWithIndex_Ok_inv in Hn as [Hlen Hn].
  assert (Hall : Forall2 (fun x p => exists i, Part000.normalizeProduct i x = Ok p) xs out).
  { apply Forall2_same_length_lookup_2; [done|].
    intros j x p Hx Hp. destruct (Hn j x Hx) as (p' & Hp' & Hnp).
    rewrite Hp in Hp'. injection Hp' as <-. eauto. }
  clear Hn Hlen. induction Hall as [|x p xs out [i Hp] _ IH].
  { split; constructor. }
  apply Forall_cons in Hin as [Hx Hxs]. destruct (IH Hxs) as [IH1 IH2].
  apply Part000_normalizeProduct_colors in Hp. unfold noEmptyArrays in Hx.
  assert (Hsz : forall l cs,
             Forall2 (fun c c' => Part000.normalizeColor c = Ok c') l cs ->
             Forall2 (fun c c' => isArray (field "sizes" c) = false ->
                                  field "sizes" c' = defaultSizes) l cs).
  { intros l cs H. eapply Forall2_impl; [exact H|]. intros c c' Hc Harr.
    apply Part000_normalizeColor_sizes in Hc.
    by destruct (field "sizes" c). }
  split; constructor; try done.
  - destruct (field "colors" x) as [| | | | |l|] eqn:Hcx;
      try (exists (defaultColor (field "image" x)), []; split; [done|];
           constructor; [apply defaultSizes_nonEmpty|constructor]).
    destruct Hp as (cs & Hcs & Hl). destruct l as [|c l]; [done|].
    destruct cs as [|c' cs]; [by apply Forall2_length in Hl|].
    exists c', cs. split; [done|].
    eapply Forall2_Forall_r; [exact Hl|]. eapply Forall_impl; [exact Hx|].
    intros c0 Hc0 c0' Hn0. apply Part000_normalizeColor_sizes in Hn0.
    unfold noEmptySizes in Hc0. unfold nonEmptySizes.
    destruct (field "sizes" c0) as [| | | | |ss|]; try (by rewrite Hn0; eexists _, _).
    destruct Hn0 as (ss' & -> & Hlen). destruct ss as [|? ?]; [done|].
    destruct ss'; [done|]. by eexists _, _.
  - split.
    + intros Harr. by destruct (field "colors" x).
    + intros l cs Hl Hcs. rewrite Hl in Hp. destruct Hp as (cs' & Hcs' & H).
      rewrite Hcs in Hcs'. injection Hcs' as <-. by apply Hsz.
Qed.

Lemma lookupField_setField k v fs : lookupField k (setField k v fs) = v.
Proof.
  induction fs as [|[k' v'] fs IH]; simpl.
  - by rewrite String.eqb_refl.
  - destruct (String.eqb_spec k k') as [->|Hne]; simpl.
    + by rewrite String.eqb_refl.
    + by destruct (String.eqb_spec k k').
Qed.

Lemma field_spreadWithColors product c :
  field "colors" (IndexJs.spreadWithColors product c) = c.
Proof.
  unfold IndexJs.spreadWithColors. destruct product; cbn [field]; try done.
  apply lookupField_setField.
Qed.

Lemma normalizeColor_sizes (l cs : list value) :
  Forall2 (fun c c' => IndexJs.normalizeColor c = Ok c') l cs ->
  Forall2 (fun c c' => field "sizes" c' = orElse (field "sizes" c) (VArr [])) l cs.
Proof.
  intros H. eapply Forall2_impl; [exact H|]. intros c c' Hc.
  unfold IndexJs.normalizeColor in Hc. inv_bind. by subst.
Qed.

Lemma IndexJs_normalizeProduct_colors product p :
  IndexJs.normalizeProduct product = Ok p ->
  (truthy (field "sizes" product) = true -> truthy (field "colors" product) = false ->
   field "colors" p = VArr [oneColor product]) /\
  (truthy (field "sizes" product) = false \/ truthy (field "colors" product) = true ->
   isArray (field "colors" product) = false -> p = product) /\
  (forall l, field "colors" product = VArr l ->
             exists cs, field "colors" p = VArr cs /\
                        Forall2 (fun c c' => field "sizes" c'
                                             = orElse (field "sizes" c) (VArr [])) l cs).
Proof.
  unfold IndexJs.normalizeProduct. intros H.
  destruct (getProp product "sizes") as [sizes|e] eqn:Hs; [|done].
  rewrite !(getProp_total _ _ _ Hs) in H. apply getProp_field in Hs as ->.
  cbn [mbind result_bind] in H.
  destruct (truthy (field "sizes" product)) eqn:Hsz;
    destruct (truthy (field "colors" product)) eqn:Hco; cbn [andb negb] in H.
  - split; [done|]. split.
    + intros _ Harr. destruct (field "colors" product); try done; by injection H.
    + intros l Hl. rewrite Hl in H. inv_bind. subst p.
      eexists. split; [apply field_spreadWithColors|].
      by apply normalizeColor_sizes, mapM_Ok_inv.
  - injection H as <-. split.
    + intros _ _. by rewrite field_spreadWithColors.
    + split; [by intros [?|?]|]. intros l Hl. by rewrite Hl in Hco.
  - split; [done|]. split.
    + intros _ Harr. destruct (field "colors" product); try done; by injection H.
    + intros l Hl. rewrite Hl in H. inv_bind. subst p.
      eexists. split; [apply field_spreadWithColors|].
      by apply normalizeColor_sizes, mapM_Ok_inv.
  - split; [done|]. split.
    + intros _ Harr. destruct (field "colors" product); try done; by injection H.
    + intros l Hl. by rewrite Hl in Hco.
Qed.

Lemma ServerJs_normalizeProduct_colors product p :
  ServerJs.normalizeProduct product = Ok p ->
  (truthy (field "sizes" product) = true -> truthy (field "colors" product) = false ->
   field "colors" p = VArr [oneColor product]) /\
  (truthy (field "sizes" product) = false -> truthy (field "colors" product) = false ->
   field "colors" p = VArr []) /\
  (forall l, field "colors" product = VArr l ->
             exists cs, field "colors" p = VArr cs /\
                        Forall2 (fun c c' => field "sizes" c'
                                             = orElse (field "sizes" c) (VArr [])) l cs).
Proof.
  unfold ServerJs.normalizeProduct. intros H.
  destruct (getProp product "sizes") as [sizes|e] eqn:Hs; [|done].
  rewrite !(getProp_total _ _ _ Hs) in H. apply getProp_field in Hs as ->.
  cbn [mbind result_bind] in H.
  destruct (parseFloat (field "price" product)) as [price|e]; [|done].
  cbn [mbind result_bind] in H.
  destruct (truthy (field "sizes" product)) eqn:Hsz;
    destruct (truthy (field "colors" product)) eqn:Hco; cbn [andb negb] in H.
  - split; [done|]. split; [done|]. intros l Hl. rewrite Hl in H.
    destruct (mapM ServerJs.normalizeColor l) as [cs|e] eqn:Hcs; [|done].
    injection H as <-. exists cs. split; [done|].
    by apply normalizeColor_sizes, mapM_Ok_inv.
  - injection H as <-. split; [|split; [done|]].
    + intros _ _. cbn [field lookupField]. vm_compute String.eqb. cbv iota.
      unfold oneColor. by rewrite (orElse_true _ _ Hsz).
    + intros l Hl. by rewrite Hl in Hco.
  - split; [done|]. split; [done|]. intros l Hl. rewrite Hl in H.
    destruct (mapM ServerJs.normalizeColor l) as [cs|e] eqn:Hcs; [|done].
    injection H as <-. exists cs. split; [done|].
    by apply normalizeColor_sizes, mapM_Ok_inv.
  - injection H as <-. split; [done|]. split; [done|].
    intros l Hl. by rewrite Hl in Hco.
Qed.

(** C2, as the code has it.  In the file with the corrected normaliser,
    whenever [normalizeProducts] returns on a list none of whose products
    carries an empty colors array and none of whose colors carries an empty
    sizes array, every output product has a non-empty colors sequence and
    every color a non-empty sizes sequence: a product whose colors is not an
    array gets the one default color, and a color whose sizes is not an
    array gets the four sizes P, M, G, GG at stock 0.  In index.js and
    server.js a product that has sizes and no colors gets one color, named
    by its [color] or [Padrão], that carries the sizes of the product; a
    product with neither keeps no color (index.js returns it as it is,
    server.js gives it the empty list); and a color without sizes gets the
    empty list, not the four sizes. *)
Theorem normalizeProducts_colors_and_sizes (xs out : list value) :
  Forall noEmptyArrays xs ->
  Part000.normalizeProducts (VArr xs) = Ok out ->
  (Forall colorsAndSizesNonEmpty out /\
   Forall2 (fun x p =>
              (isArray (field "colors" x) = false ->
               field "colors" p = VArr [defaultColor (field "image" x)]) /\
              forall l cs, field "colors" x = VArr l -> field "colors" p = VArr cs ->
                Forall2 (fun c c' => isArray (field "sizes" c) = false ->
                                     field "sizes" c' = defaultSizes) l cs) xs out) /\
  (forall product p, IndexJs.normalizeProduct product = Ok p ->
     (truthy (field "sizes" product) = true -> truthy (field "colors" product) = false ->
      field "colors" p = VArr [oneColor product]) /\
     (truthy (field "sizes" product) = false \/ truthy (field "colors" product) = true ->
      isArray (field "colors" product) = false -> p = product) /\
     (forall l, field "colors" product = VArr l ->
                exists cs, field "colors" p = VArr cs /\
                           Forall2 (fun c c' => field "sizes" c'
                                                = orElse (field "sizes" c) (VArr [])) l cs)) /\
  (forall product p, ServerJs.normalizeProduct product = Ok p ->
     (truthy (field "sizes" product) = true -> truthy (field "colors" product) = false ->
      field "colors" p = VArr [oneColor product]) /\
     (truthy (field "sizes" product) = false -> truthy (field "colors" product) = false ->
      field "colors" p = VArr []) /\
     (forall l, field "colors" product = VArr l ->
                exists cs, field "colors" p = VArr cs /\
                           Forall2 (fun c c' => field "sizes" c'
                                                = orElse (field "sizes" c) (VArr [])) l cs)).
Proof.
  intros Hin Hn. split; [by apply Part000_colors_and_sizes|].
  split; intros product p H;
    [by apply IndexJs_normalizeProduct_colors|by apply ServerJs_normalizeProduct_colors].
Qed.

Lemma normalizeProducts_colors_and_sizes_witness :
  exists out,
    Part000.normalizeProducts
      (VArr [VObj [("title", VStr "Tee"); ("price", VStr "19.90");
                   ("colors", VArr [VObj [("name", VStr "Red")]])]]) = Ok out /\
    Forall colorsAndSizesNonEmpty out.
Proof.
  eexists. split; [reflexivity|].
  refine (proj1 (proj1 (normalizeProducts_colors_and_sizes
                   [VObj [("title", VStr "Tee"); ("price", VStr "19.90");
                          ("colors", VArr [VObj [("name", VStr "Red")]])]] _ _ eq_refl))).
  repeat constructor. unfold noEmptySizes. simpl. discriminate.
Defined.

(** C2 fails as stated: an input product whose colors is the empty array
    keeps an empty colors sequence. *)
Lemma Part000_empty_colors_stay_empty :
  exists out,
    Part000.normalizeProducts (VArr [VObj [("colors", VArr [])]]) = Ok out /\
    ~ Forall colorsAndSizesNonEmpty out.
Proof.
  eexists. split; [reflexivity|].
  intros H. apply Forall_cons in H as [(c & cs & Hc & _) _]. simpl in Hc. discriminate.
Qed.

(** The same for sizes: an empty sizes array of a color stays empty. *)
Lemma Part000_empty_sizes_stay_empty :
  exists out,
    Part000.normalizeProducts
      (VArr [VObj [("colors", VArr [VObj [("sizes", VArr [])]])]]) = Ok out /\
    ~ Forall colorsAndSizesNonEmpty out.
Proof.
  eexists. split; [reflexivity|].
  intros H. apply Forall_cons in H as [(c & cs & Hc & Hs) _]. simpl in Hc.
  injection Hc as <- <-. apply Forall_cons in Hs as [(s & ss & Hs) _]. simpl in Hs.
  discriminate.
Qed.

(** The other two files: a product with neither colors nor sizes keeps no
    color (index.js returns it untouched, server.js gives it an empty list);
    a product with sizes and no colors gets one color that carries them. *)
Example IndexJs_no_default_color :
  IndexJs.normalizeProducts (VArr [VObj [("title", VStr "Tee")]])
  = Ok [VObj [("title", VStr "Tee")]].
Proof. reflexivity. Qed.

Example ServerJs_no_default_color :
  exists p, ServerJs.normalizeProducts (VArr [VObj [("title", VStr "Tee")]]) = Ok [p] /\
            field "colors" p = VArr [].
Proof. eexists. split; reflexivity. Qed.

Example IndexJs_color_from_sizes :
  exists p,
    IndexJs.normalizeProducts
      (VArr [VObj [("title", VStr "Tee"); ("sizes", VArr [VStr "M"])]]) = Ok [p] /\
    field "colors" p = VArr [VObj [("name", VStr "Padrão"); ("image", VStr placeholder);
                                   ("sizes", VArr [VStr "M"])]].
Proof. eexists. split; reflexivity. Qed.

(** *** normalizeProducts: element by element *)

(** C8 fails as stated: no per-element function, even one that may throw,
    gives the output of [normalizeProducts] on every list, because a product
    without an id takes its id from its position. *)
Lemma Part000_normalizeProducts_not_elementwise :
  ~ exists f : value -> result value,
      forall xs, Part000.normalizeProducts (VArr xs) = mapM f xs.
Proof.
  intros [f H].
  pose proof (H [VObj []]) as H1. pose proof (H [VObj []; VObj []]) as H2.
  simpl in H1, H2. destruct (f (VObj [])) as [p|e]; simpl in *; [|discriminate].
  injection H1 as <-. discriminate H2.
Qed.



Lemma Part000_normalizeProduct_id i x p :
  Part000.normalizeProduct i x = Ok p ->
  field "id" p = if truthy (field "id" x) then field "id" x
                 else VNum (ofN (N.of_nat i + 1)).
Proof.
  unfold Part000.normalizeProduct.
  destruct (getProp x "id") as [pid|e] eqn:Hid; [|done].
  rewrite !(getProp_total _ _ _ Hid). apply getProp_field in Hid as ->. simpl.
  destruct (match field "colors" x with VArr l => _ | _ => _ end) as [colors|e];
    simpl; [|done].
  destruct (parseFloat (field "price" x)) as [price|e]; simpl; [|done].
  by intros [= <-].
Qed.

Lemma Part000_normalizeProduct_position i j x p :
  Part000.normalizeProduct i x = Ok p ->
  exists q, Part000.normalizeProduct j x = Ok q /\
            (truthy (field "id" x) = true -> q = p) /\
            forall k, k <> "id" -> field k q = field k p.
Proof.
  unfold Part000.normalizeProduct.
  destruct (getProp x "id") as [pid|e] eqn:Hid; [|done].
  rewrite !(getProp_total _ _ _ Hid). apply getProp_field in Hid as ->. simpl.
  destruct (match field "colors" x with VArr l => _ | _ => _ end) as [colors|e];
    simpl; [|done].
  destruct (parseFloat (field "price" x)) as [price|e]; simpl; [|done].
  intros [= <-]. eexists; split; [done|]. split.
  - intros Ht. by rewrite !(orElse_true (field "id" x)) by done.
  - intros k Hk. simpl. by destruct (String.eqb_spec k "id").
Qed.

(** C8, as the code has it.  Whenever [normalizeProducts] returns, the output
    is as long as the input and its element at position [i] is the
    normalisation of the input element at [i] taken at position [i]; the
    position matters only for the id, and only when the element brings none
    (the id is then [i + 1]).  In index.js the per-element function takes no
    position at all. *)
Theorem Part000_normalizeProducts_positionwise (xs out : list value) :
  Part000.normalizeProducts (VArr xs) = Ok out ->
  length out = length xs /\
  (forall i x, xs !! i = Some x ->
     exists p, out !! i = Some p /\ Part000.normalizeProduct i x = Ok p /\
       field "id" p = (if truthy (field "id" x) then field "id" x
                       else VNum (ofN (N.of_nat i + 1))) /\
       forall j, exists q, Part000.normalizeProduct j x = Ok q /\
                           (truthy (field "id" x) = true -> q = p) /\
                           (forall k, k <> "id" -> field k q = field k p)) /\
  (forall ys, IndexJs.normalizeProducts (VArr ys) = mapM IndexJs.normalizeProduct ys).
Proof.
  intros H. simpl in H. apply mapWithIndex_Ok_inv in H as [Hlen H].
  split; [done|]. split; [|done].
  intros i x Hx. destruct (H i x Hx) as (p & Hp & Hn). simpl in Hn.
  exists p. split; [done|]. split; [done|].
  split; [by apply Part000_normalizeProduct_id|].
  intros j. by eapply Part000_normalizeProduct_position.
Qed.

Lemma Part000_normalizeProducts_positionwise_witness :
  exists out,
    Part000.normalizeProducts (VArr [VObj []; VObj [("id", VStr "a")]]) = Ok out /\
    length out = 2%nat.
Proof.
  eexists. split; [reflexivity|].
  exact (proj1 (Part000_normalizeProducts_positionwise
                  [VObj []; VObj [("id", VStr "a")]] _ eq_refl)).
Defined.

(** *** normalizeProducts: price *)

Lemma mkDec_cases neg ds n :
  mkDec neg ds n = Zero \/ exists ds' n', mkDec neg ds n = Dec neg ds' n'.
Proof.
  unfold mkDec. destruct (stripZeros ds) as [ds1 lead].
  destruct (stripZeros (rev ds1)) as [[|d r] ?]; eauto.
Qed.






(** In server.js nothing replaces a price that does not parse: it is NaN. *)
Example ServerJs_price_not_a_number :
  exists p, ServerJs.normalizeProducts (VArr [VObj [("price", VStr "abc")]]) = Ok [p] /\
            field "price" p = VNum NaN.
Proof. eexists. split; reflexivity. Qed.

(** *** normalizeProducts: idempotence *)

(** C7 fails as stated: a size whose name is the empty array normalises to
    the empty string, which a second pass replaces by the default ["M"]. *)
Lemma Part000_normalizeProducts_not_idempotent :
  exists x y z,
    Part000.normalizeProducts x = Ok y /\
    Part000.normalizeProducts (VArr y) = Ok z /\
    z <> y.
Proof.
  exists (VArr [VObj [("colors",
            VArr [VObj [("sizes", VArr [VObj [("name", VArr [])]])]])]]).
  eexists _, _. split; [reflexivity|]. split; [reflexivity|]. discriminate.
Qed.

(** *** Numbers and their string form *)

#[local] Arguments digitChar : simpl never.
#[local] Arguments isDigit : simpl never.
#[local] Arguments digitVal : simpl never.

Lemma digitChar_spec d :
  (d < 10)%nat -> isDigit (digitChar d) = true /\ digitVal (digitChar d) = d.
Proof. intros H. do 10 (destruct d as [|d]; [by vm_compute|]). lia. Qed.

Lemma spanDigits_show ds rest :
  Forall (fun d => (d < 10)%nat) ds ->
  match rest with [] => True | c :: _ => isDigit c = false end ->
  spanDigits (showDigits ds ++ rest) = (ds, rest).
Proof.
  intros Hds Hrest. induction Hds as [|d ds Hd _ IH]; cbn [showDigits map app].
  - destruct rest as [|c r]; [done|]. cbn [spanDigits]. by rewrite Hrest.
  - cbn [spanDigits]. destruct (digitChar_spec d Hd) as [H1 H2].
    rewrite H1, H2. unfold showDigits in IH. by rewrite IH.
Qed.

Lemma spanDigits_show_all ds :
  Forall (fun d => (d < 10)%nat) ds -> spanDigits (showDigits ds) = (ds, []).
Proof.
  intros H. rewrite <- (app_nil_r (showDigits ds)). by apply spanDigits_show.
Qed.

Lemma spanDigits_digits s :
  Forall (fun d => (d < 10)%nat) (spanDigits s).1.
Proof.
  induction s as [|c r IH]; simpl; [constructor|].
  destruct (isDigit c) eqn:Hc; [|constructor].
  destruct (spanDigits r) as [ds rest]. simpl in *. constructor; [|done].
  unfold isDigit in Hc. unfold digitVal.
  apply andb_true_iff in Hc as [_ Hc%Nat.leb_le]. lia.
Qed.

Lemma stripZeros_zeros k ds :
  (match ds with 0%nat :: _ => False | _ => True end) ->
  stripZeros (repeat 0%nat k ++ ds) = (ds, k).
Proof.
  intros H. induction k as [|k IH]; simpl.
  - by destruct ds as [|[|d] r].
  - by rewrite IH.
Qed.

Lemma stripZeros_spec ds :
  let '(r, k) := stripZeros ds in
  ds = repeat 0%nat k ++ r /\ match r with 0%nat :: _ => False | _ => True end.
Proof.
  induction ds as [|d ds IH]; simpl; [done|].
  destruct d as [|d]; [|done].
  destruct (stripZeros ds) as [r k]. destruct IH as [-> ?]. done.
Qed.

Lemma canonicalDigits_head ds :
  canonicalDigits ds -> match ds with 0%nat :: _ => False | _ => True end.
Proof. intros (_ & (d & r & -> & Hd) & _). by destruct d. Qed.

Lemma canonicalDigits_rev_head ds :
  canonicalDigits ds -> match rev ds with 0%nat :: _ => False | [] => False | _ => True end.
Proof.
  intros (_ & _ & (r & d & -> & Hd)). rewrite rev_app_distr. simpl. by destruct d.
Qed.

(** Zeros around canonical digits are stripped, and counted in the exponent. *)
Lemma mkDec_padded neg a b ds all n n' :
  canonicalDigits ds ->
  all = repeat 0%nat a ++ ds ++ repeat 0%nat b ->
  n' = n - Z.of_nat a ->
  mkDec neg all n = Dec neg ds n'.
Proof.
  intros Hc -> ->. unfold mkDec.
  pose proof (canonicalDigits_head _ Hc) as Hh.
  pose proof (canonicalDigits_rev_head _ Hc) as Hr.
  rewrite stripZeros_zeros.
  2:{ destruct ds as [|d r]; [by destruct Hc as (_ & (? & ? & ? & _) & _)|done]. }
  rewrite rev_app_distr, rev_repeat.
  rewrite stripZeros_zeros by (by destruct (rev ds) as [|[|?] ?]).
  destruct (rev ds) as [|d r] eqn:Hrev; [done|].
  by rewrite <- Hrev, rev_involutive.
Qed.

Lemma mkDec_canonical neg ds n :
  Forall (fun d => (d < 10)%nat) ds ->
  canonical (mkDec neg ds n) /\
  (n = Z.of_nat (length ds) -> isInteger (mkDec neg ds n)).
Proof.
  intros Hds. unfold mkDec.
  pose proof (stripZeros_spec ds) as H1. destruct (stripZeros ds) as [ds1 lead].
  destruct H1 as [-> H1].
  pose proof (stripZeros_spec (rev ds1)) as H2.
  destruct (stripZeros (rev ds1)) as [rds2 trail]. destruct H2 as [Hrev H2].
  destruct rds2 as [|d r]; [done|].
  assert (Hds1 : ds1 = rev (d :: r) ++ repeat 0%nat trail).
  { rewrite <- (rev_involutive ds1), Hrev, rev_app_distr, rev_repeat. done. }
  split.
  - simpl. apply Forall_app in Hds as [_ Hds]. rewrite Hds1 in Hds.
    apply Forall_app in Hds as [Hds _]. split; [done|]. split.
    + destruct (rev r) as [|d' r'] eqn:Hr; simpl in *; rewrite ?Hr; simpl.
      * eexists _, _. split; [done|]. by destruct d.
      * rewrite Hds1 in H1. simpl in H1. rewrite Hr in H1. simpl in H1.
        eexists _, _. split; [done|]. by destruct d'.
    + eexists _, _. split; [done|]. by destruct d.
  - intros ->. simpl. rewrite !length_app, Hds1, length_app, !repeat_length.
    simpl. rewrite length_app. simpl. lia.
Qed.

Lemma uintOfDigits_digitsOfUint u : uintOfDigits (digitsOfUint u) = u.
Proof. induction u; simpl; by rewrite ?IHu. Qed.

Lemma digitsOfUint_digits u : Forall (fun d => (d < 10)%nat) (digitsOfUint u).
Proof. induction u; simpl; constructor; (lia || done). Qed.

Lemma natOfDigits_digitsOfNat n : natOfDigits (digitsOfNat n) = n.
Proof.
  unfold natOfDigits, digitsOfNat. rewrite uintOfDigits_digitsOfUint.
  apply DecimalN.Unsigned.of_to.
Qed.

Lemma scanExponent_show e :
  scanExponent ("e"%char :: showExponent e) = e.
Proof.
  unfold showExponent. set (m := Z.to_N (Z.abs e)).
  assert (Hsp : spanDigits (showDigits (digitsOfNat m)) = (digitsOfNat m, [])).
  { apply spanDigits_show_all, digitsOfUint_digits. }
  assert (Hm : Z.of_N (natOfDigits (digitsOfNat m)) = Z.abs e).
  { rewrite natOfDigits_digitsOfNat. unfold m. lia. }
  destruct (Z.leb_spec 0 e); simpl; rewrite Hsp.
  - destruct (digitsOfNat m) eqn:Hd; [simpl in Hm|]; lia.
  - destruct (digitsOfNat m) eqn:Hd; [simpl in Hm|]; lia.
Qed.

Lemma startsWith_Infinity_digit c r :
  isDigit c = true -> startsWith (list_ascii_of_string "Infinity") (c :: r) = false.
Proof.
  intros Hc. cbn [list_ascii_of_string startsWith].
  destruct (Ascii.eqb_spec "I" c) as [<-|]; [by vm_compute in Hc|done].
Qed.

Lemma showDigits_zeros m : repeat "0"%char m = showDigits (repeat 0%nat m).
Proof. induction m as [|m IH]; cbn; [done|]. by rewrite IH. Qed.

Lemma showDigits_app a b : showDigits (a ++ b) = showDigits a ++ showDigits b.
Proof. apply map_app. Qed.

Lemma zeros_digits m : Forall (fun d => (d < 10)%nat) (repeat 0%nat m).
Proof. induction m; cbn; constructor; (lia || done). Qed.

Lemma parseDecimal_parts neg s1 ip r1 fp r2 :
  startsWith (list_ascii_of_string "Infinity") s1 = false ->
  spanDigits s1 = (ip, r1) ->
  match r1 with "."%char :: r => spanDigits r | _ => ([], r1) end = (fp, r2) ->
  ip <> [] ->
  parseDecimal neg s1 = mkDec neg (ip ++ fp) (Z.of_nat (length ip) + scanExponent r2).
Proof.
  intros Hinf Hip Hfp Hne. unfold parseDecimal. rewrite Hinf, Hip, Hfp.
  by destruct ip.
Qed.

Lemma isDigit_point : isDigit "." = false. Proof. done. Qed.
Lemma isDigit_e : isDigit "e" = false. Proof. done. Qed.

(** [parseFloat] reads back what Number::toString writes. *)
Lemma parseDecimal_showDec neg ds n :
  canonicalDigits ds -> parseDecimal neg (showDec ds n) = Dec neg ds n.
Proof.
  intros Hc. pose proof Hc as (Hlt & (d & r & -> & Hd) & _).
  pose proof (Forall_cons_1 _ _ _ Hlt) as [Hd10 Hr10].
  destruct (digitChar_spec d Hd10) as [Hdig Hval].
  unfold showDec. set (k := Z.of_nat (length (d :: r))).
  destruct ((k <=? n) && (n <=? 21)) eqn:Ha.
  { apply andb_true_iff in Ha as [Hkn%Z.leb_le Hn%Z.leb_le].
    rewrite showDigits_zeros, <- showDigits_app.
    erewrite parseDecimal_parts; cycle 1.
    - cbn [showDigits map app]. by apply startsWith_Infinity_digit.
    - apply spanDigits_show_all, Forall_app. split; [done|apply zeros_digits].
    - done.
    - done.
    - apply (mkDec_padded neg 0 (Z.to_nat (n - k))); [done|by rewrite app_nil_r|].
      cbn [scanExponent]. rewrite length_app, repeat_length. unfold k in *. lia. }
  destruct ((0 <? n) && (n <=? 21)) eqn:Hb.
  { apply andb_true_iff in Hb as [Hn0%Z.ltb_lt Hn%Z.leb_le].
    apply andb_false_iff in Ha as [Hkn%Z.leb_gt|Hkn%Z.leb_gt]; [|lia].
    assert (Htk : take (Z.to_nat n) (d :: r) <> []).
    { destruct (Z.to_nat n) eqn:E; [lia|done]. }
    erewrite parseDecimal_parts; cycle 1.
    - destruct (Z.to_nat n) eqn:E; [lia|].
      cbn [take showDigits map app]. by apply startsWith_Infinity_digit.
    - apply spanDigits_show; [by apply Forall_take|apply isDigit_point].
    - cbn beta iota. apply spanDigits_show_all. by apply Forall_drop.
    - exact Htk.
    - apply (mkDec_padded neg 0 0); [done|by rewrite take_drop, app_nil_r|].
      rewrite length_take. cbn [scanExponent]. unfold k in *. lia. }
  destruct ((-6 <? n) && (n <=? 0)) eqn:Hcc.
  { apply andb_true_iff in Hcc as [Hn6%Z.ltb_lt Hn%Z.leb_le].
    rewrite showDigits_zeros, <- showDigits_app.
    erewrite (parseDecimal_parts neg _ [0%nat]); cycle 1.
    - done.
    - change ("0"%char :: "."%char :: ?x) with (showDigits [0%nat] ++ "."%char :: x).
      apply spanDigits_show; [by repeat constructor|apply isDigit_point].
    - cbn beta iota. apply spanDigits_show_all.
      apply Forall_app. split; [apply zeros_digits|done].
    - done.
    - apply (mkDec_padded neg (S (Z.to_nat (- n))) 0); [done|by rewrite app_nil_r|].
      cbn [length scanExponent]. lia. }
  destruct r as [|d' r].
  - erewrite (parseDecimal_parts neg _ [d]); cycle 1.
    + by apply startsWith_Infinity_digit.
    + change (digitChar d :: ?x) with (showDigits [d] ++ x).
      apply spanDigits_show; [by constructor|apply isDigit_e].
    + done.
    + done.
    + rewrite scanExponent_show.
      apply (mkDec_padded neg 0 0); [done|done|]. cbn [length]. lia.
  - erewrite (parseDecimal_parts neg _ [d]); cycle 1.
    + by apply startsWith_Infinity_digit.
    + change (digitChar d :: ?x) with (showDigits [d] ++ x).
      apply spanDigits_show; [by constructor|apply isDigit_point].
    + cbn beta iota. apply spanDigits_show; [done|apply isDigit_e].
    + done.
    + rewrite scanExponent_show.
      apply (mkDec_padded neg 0 0); [done|by rewrite app_nil_r|]. cbn [length]. lia.
Qed.

Lemma trimStart_ascii c r :
  (nat_of_ascii c < 128)%nat -> isWhite c = false -> trimStart (c :: r) = c :: r.
Proof.
  intros Hc Hw. cbn [trimStart]. rewrite Hw.
  assert (H2 : forall c2, isWhite2 c c2 = false).
  { intros c2. unfold isWhite2.
    replace (nat_of_ascii c =? 194)%nat with false; [done|].
    symmetry. apply Nat.eqb_neq. lia. }
  assert (H3 : forall c2 c3, isWhite3 c c2 c3 = false).
  { intros c2 c3. unfold isWhite3. cbv zeta.
    replace (nat_of_ascii c =? 225)%nat with false by (symmetry; apply Nat.eqb_neq; lia).
    replace (nat_of_ascii c =? 226)%nat with false by (symmetry; apply Nat.eqb_neq; lia).
    replace (nat_of_ascii c =? 227)%nat with false by (symmetry; apply Nat.eqb_neq; lia).
    replace (nat_of_ascii c =? 239)%nat with false by (symmetry; apply Nat.eqb_neq; lia).
    done. }
  destruct r as [|c2 [|c3 r3]]; [done| |]; by rewrite H2, ?H3.
Qed.

Lemma digit_plain c r :
  isDigit c = true ->
  trimStart (c :: r) = c :: r /\ takeSign (c :: r) = (false, c :: r).
Proof.
  intros H.
  assert (Hc : (nat_of_ascii c < 128)%nat /\ isWhite c = false).
  { unfold isDigit in H. cbv zeta in H. apply andb_true_iff in H as [H1 H2].
    apply Nat.leb_le in H1, H2. split; [lia|]. unfold isWhite. cbv zeta.
    apply orb_false_iff. split.
    - apply andb_false_iff. right. apply Nat.leb_gt. lia.
    - apply Nat.eqb_neq. lia. }
  destruct Hc as [Hc Hw]. split; [by apply trimStart_ascii|].
  destruct c as [[] [] [] [] [] [] [] []]; try (by vm_compute in H); done.
Qed.

Lemma showDec_head ds n :
  canonicalDigits ds -> exists c rest, showDec ds n = c :: rest /\ isDigit c = true.
Proof.
  intros (Hlt & (d & r & -> & Hd) & _).
  pose proof (Forall_cons_1 _ _ _ Hlt) as [Hd10 _].
  destruct (digitChar_spec d Hd10) as [Hdig _].
  unfold showDec.
  destruct ((Z.of_nat (length (d :: r)) <=? n) && (n <=? 21)).
  { cbn [showDigits map app]. by eexists _, _. }
  destruct ((0 <? n) && (n <=? 21)) eqn:Hb.
  { apply andb_true_iff in Hb as [Hn0%Z.ltb_lt _].
    destruct (Z.to_nat n) eqn:E; [lia|].
    cbn [take showDigits map app]. by eexists _, _. }
  destruct ((-6 <? n) && (n <=? 0)); [by eexists _, _|].
  destruct r; by eexists _, _.
Qed.

(** [parseFloat(String(x))] is [x] for every number in canonical form. *)
Lemma parseFloatChars_numberToString x :
  canonical x -> parseFloatChars (numberToString x) = x.
Proof.
  destruct x as [|[]| |neg ds n]; try done. simpl. intros Hc.
  destruct (showDec_head ds n Hc) as (c & rest & Hs & Hdig).
  destruct (digit_plain c rest Hdig) as [Ht Hsg].
  unfold parseFloatChars. destruct neg; cbn [app].
  - rewrite trimStart_ascii; [|by apply Nat.ltb_lt|done]. cbn [takeSign].
    by apply parseDecimal_showDec.
  - rewrite Hs, Ht, Hsg, <- Hs. by apply parseDecimal_showDec.
Qed.

Lemma parseDecimal_canonical neg s : canonical (parseDecimal neg s).
Proof.
  unfold parseDecimal. destruct (startsWith _ s); [done|].
  pose proof (spanDigits_digits s) as Hip. destruct (spanDigits s) as [ip r1].
  assert (Hfp : Forall (fun d => (d < 10)%nat)
                  (match r1 with "."%char :: r => spanDigits r | _ => ([], r1) end).1).
  { destruct r1 as [|c r]; [constructor|].
    destruct (Ascii.eqb_spec c "."); [subst; apply spanDigits_digits|].
    destruct c as [[] [] [] [] [] [] [] []]; try done; constructor. }
  destruct (match r1 with "."%char :: r => spanDigits r | _ => ([], r1) end) as [fp r2].
  simpl in *.
  destruct ip, fp; try done; apply mkDec_canonical; by apply Forall_app.
Qed.

Lemma parseFloatChars_canonical s : canonical (parseFloatChars s).
Proof.
  unfold parseFloatChars. destruct (takeSign (trimStart s)). apply parseDecimal_canonical.
Qed.

(** [parseFloat(x)] of a number that [parseFloat] produced gives it back. *)
Lemma parseFloat_stable v x :
  parseFloat v = Ok x -> parseFloat (VNum x) = Ok x.
Proof.
  unfold parseFloat. destruct (toStr v) as [s|e]; simpl; [|done]. intros [= <-].
  rewrite list_ascii_of_string_of_list_ascii.
  by rewrite parseFloatChars_numberToString by apply parseFloatChars_canonical.
Qed.

Lemma parseInteger_decimal neg c rest :
  c <> "0"%char ->
  parseInteger neg (c :: rest) =
  match spanDigits (c :: rest) with
  | ([], _) => NaN
  | (ds, _) => mkDec neg ds (Z.of_nat (length ds))
  end.
Proof.
  intros Hc. destruct c as [[] [] [] [] [] [] [] []]; done.
Qed.

Lemma digitChar_nonzero d : (d < 10)%nat -> d <> 0%nat -> digitChar d <> "0"%char.
Proof.
  intros H H0. do 10 (destruct d as [|d]; [done|]). lia.
Qed.

(** [parseInt(String(x))] is [x] for an integer below 10^21. *)
Lemma parseIntChars_numberToString x :
  canonical x -> isInteger x -> below1e21 x ->
  match x with Infinity _ => False | _ => True end ->
  parseIntChars (numberToString x) = x.
Proof.
  destruct x as [|[]| |neg ds n]; try done. simpl. intros Hc Hint Hlow _.
  destruct (showDec_head ds n Hc) as (c & rest & Hs & Hdig).
  destruct (digit_plain c rest Hdig) as [Ht Hsg].
  assert (Hp : parseInteger neg (showDec ds n) = Dec neg ds n).
  { clear c rest Hs Hdig Ht Hsg. unfold showDec.
    replace ((Z.of_nat (length ds) <=? n) && (n <=? 21)) with true
      by (symmetry; apply andb_true_iff; split; apply Z.leb_le; lia).
    rewrite showDigits_zeros, <- showDigits_app.
    pose proof Hc as (Hlt & (d & r & -> & Hd) & _).
    pose proof (Forall_cons_1 _ _ _ Hlt) as [Hd10 _].
    set (zs := repeat 0%nat (Z.to_nat (n - Z.of_nat (length (d :: r))))).
    assert (Hall : Forall (fun d => (d < 10)%nat) ((d :: r) ++ zs))
      by (apply Forall_app; split; [done|apply zeros_digits]).
    pose proof (spanDigits_show_all _ Hall) as Hsp.
    cbn [app showDigits map] in *.
    rewrite parseInteger_decimal by (by apply digitChar_nonzero).
    rewrite Hsp.
    apply (mkDec_padded neg 0 (Z.to_nat (n - Z.of_nat (length (d :: r)))));
      [done|done|].
    cbn [length]. rewrite length_app. unfold zs. rewrite repeat_length.
    cbn [length] in *. lia. }
  unfold parseIntChars. destruct neg; cbn [app].
  - rewrite trimStart_ascii; [|by apply Nat.ltb_lt|done]. by cbn [takeSign].
  - by rewrite Hs, Ht, Hsg, <- Hs.
Qed.

Lemma withSign_canonical neg x :
  canonical x /\ isInteger x -> canonical (withSign neg x) /\ isInteger (withSign neg x).
Proof. by destruct x. Qed.

Lemma parseInteger_canonical neg s :
  canonical (parseInteger neg s) /\ isInteger (parseInteger neg s) /\
  match parseInteger neg s with Infinity _ => False | _ => True end.
Proof.
  assert (Hdec : forall t,
             let x := match spanDigits t with
                      | ([], _) => NaN
                      | (ds, _) => mkDec neg ds (Z.of_nat (length ds))
                      end in
             canonical x /\ isInteger x /\
             match x with Infinity _ => False | _ => True end).
  { intros t. pose proof (spanDigits_digits t) as Hd.
    destruct (spanDigits t) as [ds rest]. simpl in Hd.
    destruct ds as [|d ds]; [done|].
    destruct (mkDec_canonical neg (d :: ds) (Z.of_nat (length (d :: ds))) Hd) as [H1 H2].
    repeat split; [done|by apply H2|].
    by destruct (mkDec_cases neg (d :: ds) (Z.of_nat (length (d :: ds))))
      as [->|(? & ? & ->)]. }
  assert (Hdec' : forall t,
             let x := (let '(ds, _) := spanDigits t in mkDec neg ds (Z.of_nat (length ds))) in
             canonical x /\ isInteger x /\
             match x with Infinity _ => False | _ => True end).
  { intros t. pose proof (spanDigits_digits t) as Hd.
    destruct (spanDigits t) as [ds rest]. simpl in Hd.
    destruct (mkDec_canonical neg ds (Z.of_nat (length ds)) Hd) as [H1 H2].
    repeat split; [done|by apply H2|].
    by destruct (mkDec_cases neg ds (Z.of_nat (length ds))) as [->|(? & ? & ->)]. }
  assert (Hhex : forall r,
             let x := match spanHex None r with
                      | Some n => withSign neg (ofN n)
                      | None => NaN
                      end in
             canonical x /\ isInteger x /\
             match x with Infinity _ => False | _ => True end).
  { intros r. destruct (spanHex None r) as [m|]; [|done]. unfold ofN.
    destruct (mkDec_canonical false (digitsOfNat m)
                (Z.of_nat (length (digitsOfNat m))) (digitsOfUint_digits _)) as [H1 H2].
    specialize (H2 eq_refl).
    destruct (mkDec_cases false (digitsOfNat m) (Z.of_nat (length (digitsOfNat m))))
      as [->|(? & ? & Heq)]; [done|].
    rewrite Heq in *. done. }
  destruct s as [|c s]; [done|].
  destruct (Ascii.eqb_spec c "0") as [->|Hc].
  - unfold parseInteger. destruct s as [|x s]; [apply (Hdec ["0"%char])|].
    destruct (Ascii.eqb x "x" || Ascii.eqb x "X"); [apply Hhex|apply Hdec'].
  - rewrite (parseInteger_decimal neg c s Hc). apply Hdec.
Qed.

Lemma orElse_idem a d : orElse (orElse a d) d = orElse a d.
Proof. unfold orElse. destruct (truthy a) eqn:Ha; [by rewrite Ha|by destruct (truthy d)]. Qed.

Lemma orElse_number x :
  exists y, orElse (VNum x) (VNum Zero) = VNum y /\
            (y = x \/ y = Zero) /\
            orElse (VNum y) (VNum Zero) = VNum y.
Proof. destruct x as [|b| |neg ds n]; eexists; (split; [reflexivity|]); auto. Qed.

Section Idempotent.
Context {A : Type} (P : A -> Prop).

Lemma mapM_idem (f : A -> result A) l k :
  (forall x y, f x = Ok y -> P y -> f y = Ok y) ->
  mapM f l = Ok k -> Forall P k -> mapM f k = Ok k.
Proof.
  intros Hf Hl%mapM_Ok_inv Hk. apply mapM_Ok_intro.
  induction Hl as [|x y l k Hx _ IH]; [constructor|].
  apply Forall_cons in Hk as [Hy Hk]. constructor; eauto.
Qed.

Lemma mapWithIndex_idem (f : nat -> A -> result A) i l k :
  (forall j x y, f j x = Ok y -> P y -> f j y = Ok y) ->
  mapWithIndex f i l = Ok k -> Forall P k -> mapWithIndex f i k = Ok k.
Proof.
  intros Hf. revert i k. induction l as [|x l IH]; intros i k; simpl.
  - by intros [= <-].
  - destruct (f i x) as [y|e] eqn:Hx; simpl; [|done].
    destruct (mapWithIndex f (S i) l) as [k'|e] eqn:Hl; simpl; [|done].
    intros [= <-] [Hy Hk]%Forall_cons. simpl.
    by rewrite (Hf _ _ _ Hx Hy), (IH _ _ Hl Hk).
Qed.
End Idempotent.

Lemma Part000_normalizeSize_idem sz s1 :
  Part000.normalizeSize sz = Ok s1 -> stableSize s1 -> Part000.normalizeSize s1 = Ok s1.
Proof.
  unfold Part000.normalizeSize.
  destruct (getProp sz "name") as [n|e]; [|done]. cbn [mbind result_bind].
  destruct (toStr (orElse n (VStr "M"))) as [nm|e]; [|done]. cbn [mbind result_bind].
  destruct (getProp sz "stock") as [st|e]; [|done]. cbn [mbind result_bind].
  unfold parseInt. destruct (toStr st) as [s|e]; [|done]. cbn [mbind result_bind].
  intros [= <-]. unfold stableSize. cbn [field lookupField String.eqb Ascii.eqb Bool.eqb].
  intros [Hnm Hst]. cbn [getProp lookupField String.eqb Ascii.eqb Bool.eqb mbind result_bind].
  replace (orElse (VStr nm) (VStr "M")) with (VStr nm) by (by destruct nm).
  cbn [toStr mbind result_bind].
  set (x := parseIntChars (list_ascii_of_string s)) in *.
  destruct (parseInteger_canonical (takeSign (trimStart (list_ascii_of_string s))).1
              (takeSign (trimStart (list_ascii_of_string s))).2) as (Hc & Hi & Hinf).
  assert (Hx : canonical x /\ isInteger x /\ match x with Infinity _ => False | _ => True end).
  { unfold x, parseIntChars. by destruct (takeSign _). }
  clear Hc Hi Hinf. destruct Hx as (Hc & Hi & Hinf).
  destruct (orElse_number x) as (y & Hy & Hyx & Hyy). rewrite Hy in *.
  cbn [toStr mbind result_bind]. rewrite list_ascii_of_string_of_list_ascii.
  rewrite parseIntChars_numberToString; [by rewrite Hyy| | | |];
    by destruct Hyx as [->| ->].
Qed.

Lemma defaultSizes_idem :
  mapM Part000.normalizeSize (asList defaultSizes) = Ok (asList defaultSizes).
Proof. by vm_compute. Qed.

Lemma Part000_normalizeColor_idem color c1 :
  Part000.normalizeColor color = Ok c1 ->
  Forall stableSize (asList (field "sizes" c1)) ->
  Part000.normalizeColor c1 = Ok c1.
Proof.
  unfold Part000.normalizeColor.
  destruct (getProp color "name") as [n|e]; [|done]. cbn [mbind result_bind].
  destruct (getProp color "image") as [i|e]; [|done]. cbn [mbind result_bind].
  destruct (getProp color "sizes") as [ss|e]; [|done]. cbn [mbind result_bind].
  destruct (match ss with VArr l => _ | _ => _ end) as [ss'|e] eqn:Hss; [|done].
  cbn [mbind result_bind]. intros [= <-].
  cbn [field getProp lookupField String.eqb Ascii.eqb Bool.eqb mbind result_bind].
  intros Hst. rewrite !orElse_idem.
  assert (Hss' : exists l', ss' = VArr l' /\ mapM Part000.normalizeSize l' = Ok l').
  { destruct ss; try (injection Hss as <-; eexists; split; [done|apply defaultSizes_idem]).
    apply fmap_Ok_inv in Hss as (l' & Hl' & ->). eexists; split; [done|].
    eapply mapM_idem; [|done|done]. apply Part000_normalizeSize_idem. }
  destruct Hss' as (l' & -> & ->). done.
Qed.

Lemma defaultColor_idem image :
  mapM Part000.normalizeColor [defaultColor image] = Ok [defaultColor image].
Proof.
  unfold defaultColor.
  assert (Himg : truthy (orElse image (VStr placeholder)) = true).
  { unfold orElse. by destruct (truthy image) eqn:H. }
  revert Himg. generalize (orElse image (VStr placeholder)). intros img Himg.
  cbn [mapM]. unfold Part000.normalizeColor.
  cbn [field getProp lookupField String.eqb Ascii.eqb Bool.eqb mbind result_bind].
  unfold orElse at 2. rewrite Himg. by vm_compute.
Qed.

Lemma ofN_truthy n : n <> 0%N -> truthy (VNum (ofN n)) = true.
Proof.
  intros Hn. unfold ofN.
  destruct (mkDec_cases false (digitsOfNat n) (Z.of_nat (length (digitsOfNat n))))
    as [Hz|(? & ? & ->)]; [exfalso|done].
  apply Hn. rewrite <- (natOfDigits_digitsOfNat n).
  revert Hz. generalize (digitsOfNat n) (Z.of_nat (length (digitsOfNat n))).
  intros ds m. unfold mkDec.
  pose proof (stripZeros_spec ds) as H1. destruct (stripZeros ds) as [ds1 lead].
  destruct H1 as [-> _].
  pose proof (stripZeros_spec (rev ds1)) as H2.
  destruct (stripZeros (rev ds1)) as [rds2 trail]. destruct H2 as [Hrev _].
  destruct rds2; [|done]. intros _.
  assert (ds1 = repeat 0%nat trail) as ->.
  { rewrite <- (rev_involutive ds1), Hrev, app_nil_r. apply rev_repeat. }
  rewrite <- repeat_app. generalize (lead + trail)%nat. intros k.
  unfold natOfDigits. induction k as [|k IH]; [done|]. exact IH.
Qed.

Lemma Part000_normalizeProduct_idem index product p :
  Part000.normalizeProduct index product = Ok p ->
  stableProduct p ->
  Part000.normalizeProduct index p = Ok p.
Proof.
  unfold Part000.normalizeProduct.
  destruct (getProp product "id") as [pid|e] eqn:Hid; [|done].
  rewrite !(getProp_total _ _ _ Hid). cbn [mbind result_bind].
  destruct (match field "colors" product with VArr l => _ | _ => _ end)
    as [colors|e] eqn:Hcolors; [|done].
  cbn [mbind result_bind].
  destruct (parseFloat (field "price" product)) as [price|e] eqn:Hprice; [|done].
  cbn [mbind result_bind]. intros [= <-]. unfold stableProduct.
  cbn [field getProp lookupField String.eqb Ascii.eqb Bool.eqb mbind result_bind asList].
  intros Hst.
  assert (Hc : mapM Part000.normalizeColor colors = Ok colors).
  { destruct (field "colors" product);
      try (injection Hcolors as <-; apply defaultColor_idem).
    exact (mapM_idem _ _ _ _ Part000_normalizeColor_idem Hcolors Hst). }
  rewrite Hc. cbn [mbind result_bind].
  destruct (orElse_number price) as (y & Hy & Hyx & Hyy). rewrite Hy.
  assert (Hpy : parseFloat (VNum y) = Ok y).
  { destruct Hyx as [->| ->]; [by eapply parseFloat_stable|done]. }
  rewrite Hpy. cbn [mbind result_bind]. rewrite Hyy.
  by rewrite !orElse_idem.
Qed.

(** C7, as the code has it.  Normalising the output of [normalizeProducts]
    again gives the same list, provided no size in that output has the empty
    string for name and none has a stock of magnitude 10^21 or more.  This
    is for an input whose numbers, and those of its normalised form, have at
    most 15 significant digits, where the numbers of the model are those of
    the code. *)
Theorem Part000_normalizeProducts_idempotent (x : value) (y : list value) :
  exactValue x = true ->
  Part000.normalizeProducts x = Ok y ->
  forallb exactValue y = true ->
  Forall stableProduct y ->
  Part000.normalizeProducts (VArr y) = Ok y.
Proof.
  intros _ Hn _ Hst. destruct x; try (injection Hn as <-; done).
  simpl in *. eapply mapWithIndex_idem; [|done|done].
  apply Part000_normalizeProduct_idem.
Qed.

Lemma Part000_normalizeProducts_idempotent_witness :
  exists y,
    Part000.normalizeProducts
      (VArr [VObj [("title", VStr "Tee"); ("price", VStr "19.90");
                   ("colors", VArr [VObj [("name", VStr "Red");
                                          ("sizes", VArr [VObj [("stock", VStr "7")]])]])]])
    = Ok y /\
    forallb exactValue y = true /\
    Part000.normalizeProducts (VArr y) = Ok y.
Proof.
  eexists. split; [reflexivity|]. split; [by vm_compute|].
  refine (Part000_normalizeProducts_idempotent
            (VArr [VObj [("title", VStr "Tee"); ("price", VStr "19.90");
                         ("colors", VArr [VObj [("name", VStr "Red");
                                                ("sizes", VArr [VObj [("stock", VStr "7")]])]])]])
            _ eq_refl eq_refl eq_refl _).
  repeat constructor; simpl; try discriminate; lia.
Defined.

(** A stock of magnitude 10^21 or more is the other way a second pass
    changes the output: it prints with an exponent, of which [parseInt]
    reads the first digit only. *)
Example Part000_large_stock_not_stable :
  exists y z,
    Part000.normalizeProducts
      (VArr [VObj [("colors",
         VArr [VObj [("sizes",
           VArr [VObj [("name", VStr "M");
                       ("stock", VStr "2000000000000000000000")]])]])]]) = Ok y /\
    Part000.normalizeProducts (VArr y) = Ok z /\ z <> y.
Proof. eexists _, _. split; [reflexivity|]. split; [reflexivity|]. discriminate. Qed.

(** server.js has neither default: its normaliser is idempotent wherever it
    returns. *)
Lemma orElse_twice a d d' : truthy d = true -> orElse (orElse a d) d' = orElse a d.
Proof. unfold orElse. intros Hd. destruct (truthy a) eqn:Ha; by rewrite ?Ha, ?Hd. Qed.

Lemma ServerJs_normalizeColor_idem color c1 :
  ServerJs.normalizeColor color = Ok c1 -> ServerJs.normalizeColor c1 = Ok c1.
Proof.
  unfold ServerJs.normalizeColor.
  destruct (getProp color "name") as [n|e]; [|done]. cbn [mbind result_bind].
  destruct (getProp color "image") as [i|e]; [|done]. cbn [mbind result_bind].
  destruct (getProp color "sizes") as [ss|e]; [|done]. cbn [mbind result_bind].
  intros [= <-].
  cbn [field getProp lookupField String.eqb Ascii.eqb Bool.eqb mbind result_bind].
  by rewrite !orElse_idem.
Qed.

Lemma ServerJs_normalizeProduct_idem product p :
  ServerJs.normalizeProduct product = Ok p -> ServerJs.normalizeProduct p = Ok p.
Proof.
  unfold ServerJs.normalizeProduct.
  destruct (getProp product "sizes") as [sizes|e] eqn:Hsz; [|done].
  rewrite !(getProp_total _ _ _ Hsz). apply getProp_field in Hsz as ->.
  cbn [mbind result_bind].
  destruct (parseFloat (field "price" product)) as [price|e] eqn:Hprice; [|done].
  cbn [mbind result_bind].
  destruct (if truthy (field "sizes" product) && negb (truthy (field "colors" product))
            then _ else _) as [colors|e] eqn:Hcolors; [|done].
  cbn [mbind result_bind]. intros [= <-].
  cbn [field getProp lookupField String.eqb Ascii.eqb Bool.eqb mbind result_bind
       truthy andb negb].
  rewrite (parseFloat_stable _ _ Hprice). cbn [mbind result_bind].
  assert (Hc : mapM ServerJs.normalizeColor colors = Ok colors).
  { destruct (truthy (field "sizes" product) && negb (truthy (field "colors" product))).
    - injection Hcolors as <-. cbn [mapM]. unfold ServerJs.normalizeColor.
      cbn [field getProp lookupField String.eqb Ascii.eqb Bool.eqb mbind result_bind].
      by rewrite !orElse_idem, orElse_twice.
    - destruct (truthy (field "colors" product)); [|by injection Hcolors as <-].
      destruct (field "colors" product); try done.
      exact (mapM_idem (fun _ => True) _ _ _
               (fun x y H _ => ServerJs_normalizeColor_idem x y H) Hcolors
               (Forall_true _ _ (fun _ => I))). }
  rewrite Hc. cbn [mbind result_bind]. by rewrite !orElse_idem.
Qed.

Lemma ServerJs_normalizeProducts_idempotent (x : value) (y : list value) :
  ServerJs.normalizeProducts x = Ok y -> ServerJs.normalizeProducts (VArr y) = Ok y.
Proof.
  intros Hn. destruct x; try (injection Hn as <-; done). simpl in *.
  exact (mapM_idem (fun _ => True) _ _ _
           (fun x y H _ => ServerJs_normalizeProduct_idem x y H) Hn
           (Forall_true _ _ (fun _ => I))).
Qed.

(** *** The product cache *)

#[local] Arguments Part000.normalizeProducts : simpl never.
#[local] Arguments IndexJs.normalizeProducts : simpl never.
#[local] Arguments ServerJs.normalizeProducts : simpl never.
#[local] Arguments normalizeCategories : simpl never.

Lemma cacheRead_filled duration now t v w :
  cacheRead duration now (cache (filled v t w)) =
  if now - t <? duration then Some v else None.
Proof. done. Qed.

(** A miss that the store answers fills the cache with the normalised rows
    and the time of the request. *)
Lemma Part000_getProducts_fills now (w : world) v :
  cacheRead Part000.CACHE_DURATION now (cache w) = None ->
  faults w = [] ->
  Part000.normalizeProducts (VArr (products (db w))) = Ok v ->
  Part000.getProducts now w =
  (json (VObj [("products", VArr v)]),
   filled v now (issued SelectProducts [] (db w) w)).
Proof.
  intros Hmiss Hf Hn. unfold Part000.getProducts, tryCatch, bind, getCache.
  rewrite Hmiss. unfold call. rewrite Hf. simpl. unfold lift. by rewrite Hn.
Qed.

(** A GET on a cache filled with [v] at time [t]: served from the cache
    inside the window, sent to the store from then on and after
    [clearCache]. *)
Lemma Part000_getProducts_filled (w : world) (t now : Z) (v : list value) :
  (now - t < 120000 ->
   Part000.getProducts now (filled v t w)
   = (json (VObj [("products", VArr v)]), filled v t w)) /\
  (120000 <= now - t ->
   cacheRead Part000.CACHE_DURATION now (cache (filled v t w)) = None /\
   trace (Part000.getProducts now (filled v t w)).2 = trace w ++ [SelectProducts]) /\
  (cacheRead Part000.CACHE_DURATION now (cache (clearCache (filled v t w)).2) = None /\
   trace (Part000.getProducts now (clearCache (filled v t w)).2).2
   = trace w ++ [SelectProducts]).
Proof.
  assert (Hmiss : forall w', cacheRead Part000.CACHE_DURATION now (cache w') = None ->
                    trace (Part000.getProducts now w').2 = trace w' ++ [SelectProducts]).
  { intros w' Hm. unfold Part000.getProducts, tryCatch, bind, getCache.
    rewrite Hm. unfold call.
    destruct (faults w') as [|[| |] fs]; simpl; try done;
      unfold lift; by destruct (Part000.normalizeProducts _). }
  rewrite cacheRead_filled. change Part000.CACHE_DURATION with 120000.
  split; [|split].
  - intros H. apply Z.ltb_lt in H.
    unfold Part000.getProducts, tryCatch, bind, getCache.
    rewrite cacheRead_filled. change Part000.CACHE_DURATION with 120000.
    by rewrite H.
  - intros H. apply Z.ltb_ge in H. split; [by rewrite H|].
    rewrite Hmiss; [done|]. rewrite cacheRead_filled.
    change Part000.CACHE_DURATION with 120000. by rewrite H.
  - split; [done|]. by rewrite Hmiss.
Qed.

(** C6.  The GET handler fills the cache and reads it back.  A GET at time
    [t] that misses the cache and that the store answers returns the
    normalised list [v] and keeps it; a GET at time [now] then answers with
    [v] from the cache, without a call to the store, whenever [now - t] is
    less than the 120000 ms of [CACHE_DURATION]; once [now - t] reaches it,
    or after [clearCache], the GET misses and goes to the store. *)
Theorem Part000_cache_round_trip (w : world) (t now : Z) (v : list value) :
  cacheRead Part000.CACHE_DURATION t (cache w) = None ->
  faults w = [] ->
  Part000.normalizeProducts (VArr (products (db w))) = Ok v ->
  let first := Part000.getProducts t w in
  Part000.CACHE_DURATION = 120000 /\
  first.1 = json (VObj [("products", VArr v)]) /\
  trace first.2 = trace w ++ [SelectProducts] /\
  (now - t < 120000 ->
   cacheRead Part000.CACHE_DURATION now (cache first.2) = Some v /\
   Part000.getProducts now first.2 = (json (VObj [("products", VArr v)]), first.2)) /\
  (120000 <= now - t ->
   cacheRead Part000.CACHE_DURATION now (cache first.2) = None /\
   trace (Part000.getProducts now first.2).2 = trace first.2 ++ [SelectProducts]) /\
  (cacheRead Part000.CACHE_DURATION now (cache (clearCache first.2).2) = None /\
   trace (Part000.getProducts now (clearCache first.2).2).2
   = trace first.2 ++ [SelectProducts]).
Proof.
  intros Hmiss Hf Hn first. unfold first.
  rewrite (Part000_getProducts_fills t w v Hmiss Hf Hn). cbn [fst snd].
  set (w1 := issued SelectProducts [] (db w) w).
  assert (Ht : trace (filled v t w1) = trace w ++ [SelectProducts]) by done.
  destruct (Part000_getProducts_filled w1 t now v) as (Hhit & Hlate & Hclear).
  split; [done|]. split; [done|]. split; [done|]. rewrite Ht.
  split; [|split; [|done]].
  - intros H. split; [|by apply Hhit].
    rewrite cacheRead_filled. change Part000.CACHE_DURATION with 120000.
    apply Z.ltb_lt in H. by rewrite H.
  - intros H. by apply Hlate.
Qed.

Lemma Part000_cache_round_trip_witness :
  exists v,
    Part000.normalizeProducts (VArr (products (db (catalogWorld [])))) = Ok v /\
    (Part000.getProducts 1000000 (catalogWorld [])).1 = json (VObj [("products", VArr v)]) /\
    Part000.getProducts 1119999 (Part000.getProducts 1000000 (catalogWorld [])).2
    = (json (VObj [("products", VArr v)]),
       (Part000.getProducts 1000000 (catalogWorld [])).2) /\
    trace (Part000.getProducts 1120000 (Part000.getProducts 1000000 (catalogWorld [])).2).2
    = [SelectProducts; SelectProducts].
Proof.
  eexists. split; [reflexivity|].
  pose proof (Part000_cache_round_trip (catalogWorld []) 1000000 1119999 _
                eq_refl eq_refl eq_refl) as (_ & Hfirst & _ & Hhit & _).
  pose proof (Part000_cache_round_trip (catalogWorld []) 1000000 1120000 _
                eq_refl eq_refl eq_refl) as (_ & _ & Ht & _ & Hmiss & _).
  split; [exact Hfirst|]. split.
  - apply Hhit. lia.
  - rewrite (proj2 (Hmiss ltac:(lia))), Ht. done.
Defined.

(** *** GET /products *)

Lemma Part000_getProducts_cases now w :
  successWithProducts (Part000.getProducts now w).1 /\
  (cacheRead Part000.CACHE_DURATION now (cache w) = None ->
   storeFails w \/ (exists e, Part000.normalizeProducts (VArr (products (db w))) = Throw e) ->
   (Part000.getProducts now w).1 = emptyList).
Proof.
  unfold Part000.getProducts, tryCatch, bind, getCache.
  destruct (cacheRead Part000.CACHE_DURATION now (cache w)) as [ps|] eqn:Hc.
  { simpl. split; [by split; eauto|done]. }
  unfold call. destruct (faults w) as [|[| |] fs] eqn:Hf; simpl; unfold lift;
    try (split; [by split; eauto|done]).
  - destruct (Part000.normalizeProducts _) as [v|e] eqn:Hn; simpl.
    + split; [by split; eauto|]. intros _ [(? & ? & ? & ?)|[? ?]]; congruence.
    + split; [by split; eauto|done].
  - destruct (Part000.normalizeProducts _) as [v|e] eqn:Hn; simpl.
    + split; [by split; eauto|].
      intros _ [(? & ? & ? & ?)|[? ?]]; congruence.
    + split; [by split; eauto|done].
Qed.

Lemma IndexJs_getProducts_cases now w :
  successWithProducts (IndexJs.getProducts now w).1 /\
  (cacheRead IndexJs.CACHE_DURATION now (cache w) = None ->
   storeFails w \/ (exists e, IndexJs.normalizeProducts (VArr (products (db w))) = Throw e) ->
   (IndexJs.getProducts now w).1 = emptyList).
Proof.
  unfold IndexJs.getProducts, tryCatch, bind, getCache.
  destruct (cacheRead IndexJs.CACHE_DURATION now (cache w)) as [ps|] eqn:Hc.
  { simpl. split; [by split; eauto|done]. }
  unfold call. destruct (faults w) as [|[| |] fs] eqn:Hf; simpl; unfold lift;
    try (split; [by split; eauto|done]).
  - destruct (IndexJs.normalizeProducts _) as [v|e] eqn:Hn; simpl.
    + split; [by split; eauto|]. intros _ [(? & ? & ? & ?)|[? ?]]; congruence.
    + split; [by split; eauto|done].
  - destruct (IndexJs.normalizeProducts _) as [v|e] eqn:Hn; simpl.
    + split; [by split; eauto|].
      intros _ [(? & ? & ? & ?)|[? ?]]; congruence.
    + split; [by split; eauto|done].
Qed.

(** C4, as the code has it.  In index.js and in the file with the corrected
    normaliser, every GET /products answers with status 200 and a product
    list; when the cache misses and the store call hands back an error or
    throws, or the normaliser throws on the rows, the list is empty.  In
    server.js the same failures give status 500. *)
Theorem getProducts_on_failure (CACHE_DURATION now : Z) (w : world) :
  (successWithProducts (Part000.getProducts now w).1 /\
   successWithProducts (IndexJs.getProducts now w).1) /\
  (cacheRead 120000 now (cache w) = None ->
   storeFails w ->
   (Part000.getProducts now w).1 = emptyList /\
   (IndexJs.getProducts now w).1 = emptyList) /\
  (cacheRead CACHE_DURATION now (cache w) = None ->
   storeFails w ->
   status (ServerJs.getProducts CACHE_DURATION now w).1 = 500).
Proof.
  destruct (Part000_getProducts_cases now w) as [H1 H2].
  destruct (IndexJs_getProducts_cases now w) as [H3 H4].
  split; [done|]. split.
  - intros Hc Hf. split; [apply H2|apply H4]; auto.
  - intros Hc (f & fs & Hf & Hne).
    unfold ServerJs.getProducts, tryCatch, bind, getCache. rewrite Hc.
    unfold call. rewrite Hf. by destruct f.
Qed.

Lemma getProducts_on_failure_witness :
  (Part000.getProducts 5 failingWorld).1 = emptyList /\
  (IndexJs.getProducts 5 failingWorld).1 = emptyList.
Proof.
  apply (getProducts_on_failure 120000 5 failingWorld); [done|].
  by exists (Fails "connection refused"), [].
Defined.

(** C4 fails as stated: in server.js a store error on the GET is answered
    with status 500, not with an empty list. *)
Lemma ServerJs_getProducts_error_response :
  (ServerJs.getProducts 120000 5 failingWorld).1
  = failure 500 "Erro ao buscar produtos" /\
  ~ successWithProducts (ServerJs.getProducts 120000 5 failingWorld).1.
Proof. split; [done|]. by intros [? _]. Qed.

(** *** POST /products: the row-by-row retry *)

#[local] Arguments count : simpl never.
#[local] Arguments productsToInsert : simpl never.

Lemma Part000_insertEach_spec rows : forall errors successful w,
  exists successful' w',
    Part000.insertEach rows errors successful w
    = (Ok (errors ++ rowFailures rows (faults w), successful'), w') /\
    trace w' = trace w ++ map InsertProduct rows /\
    cache w' = cache w.
Proof.
  induction rows as [|row rest IH]; intros errors successful w.
  - eexists _, _. simpl. by rewrite !app_nil_r.
  - cbn [Part000.insertEach]. unfold call.
    destruct (faults w) as [|[|m|m] fs] eqn:Hf; cbn [rowFailures].
    + destruct (Supabase.insertProducts [row] (db w)) as [[added|m] d] eqn:Hi;
        [|done].
      destruct (IH errors (successful ++ [field "title" row]) (issued (InsertProduct row) [] d w))
        as (s' & w' & -> & Ht & Hc).
      eexists _, _. split; [|split; [rewrite Ht|rewrite Hc]]; simpl.
      * by destruct rest.
      * by rewrite <- app_assoc.
      * done.
    + destruct (Supabase.insertProducts [row] (db w)) as [[added|m] d] eqn:Hi;
        [|done].
      destruct (IH errors (successful ++ [field "title" row]) (issued (InsertProduct row) fs d w))
        as (s' & w' & -> & Ht & Hc).
      eexists _, _. split; [|split; [rewrite Ht|rewrite Hc]]; simpl.
      * done.
      * by rewrite <- app_assoc.
      * done.
    + destruct (IH (errors ++ Part000.rowError (field "title" row) m) successful
                  (issued (InsertProduct row) fs (db w) w)) as (s' & w' & -> & Ht & Hc).
      eexists _, _. split; [|split; [rewrite Ht|rewrite Hc]]; simpl.
      * by rewrite <- app_assoc.
      * by rewrite <- app_assoc.
      * done.
    + destruct (IH (errors ++ [(field "title" row, m)]) successful
                  (issued (InsertProduct row) fs (db w) w)) as (s' & w' & -> & Ht & Hc).
      eexists _, _. split; [|split; [rewrite Ht|rewrite Hc]]; simpl.
      * by rewrite <- app_assoc.
      * by rewrite <- app_assoc.
      * done.
Qed.

Lemma Part000_normalizeProducts_length xs ns :
  Part000.normalizeProducts (VArr xs) = Ok ns -> length ns = length xs.
Proof. intros H. by apply mapWithIndex_Ok_inv in H as [? _]. Qed.

(** C5, as the code has it.  For an authorised request whose product list
    normalises, when the bulk insert reports failure every row of
    [productsToInsert] is inserted again on its own, in order, and the
    failures are collected as [{product, error}] entries.  With no entry the
    answer is the success, its message counting as many products as the
    input has and its list being the normalised one, and the cache is
    cleared; with an entry the answer is status 500 carrying all of them. *)
Theorem Part000_replaceAllProducts_fallback
    (xs ns : list value) (w : world) (d : fault) (message : string) (fs : list fault) :
  xs <> [] ->
  Part000.normalizeProducts (VArr xs) = Ok ns ->
  faults w = d :: Fails message :: fs ->
  (forall m, d <> Rejects m) ->
  let rows := productsToInsert ns in
  let errors := rowFailures rows fs in
  let out := Part000.replaceAllProducts (adminRequest (VObj [("products", VArr xs)])) w in
  length ns = length xs /\
  trace out.2 = trace w ++ [DeleteProducts; InsertProducts rows] ++ map InsertProduct rows /\
  (errors = [] ->
   out.1 = savedProducts ns /\
   count (length ns) = count (length xs) /\
   cache out.2 = {| cache_products := None; productsTimestamp := 0 |}) /\
  (errors <> [] -> out.1 = partialWriteFailure errors).
Proof.
  intros Hxs Hn Hf Hd rows errors out.
  pose proof (Part000_normalizeProducts_length _ _ Hn) as Hlen.
  split; [done|].
  assert (Hpos : (0 <? length ns)%nat = true).
  { apply Nat.ltb_lt. rewrite Hlen. destruct xs; [done|simpl; lia]. }
  set (w1 := issued DeleteProducts (Fails message :: fs)
               (match d with Answers => (Supabase.deleteProducts (db w)).2 | _ => db w end) w).
  set (w2 := issued (InsertProducts rows) fs (db w1) w1).
  destruct (Part000_insertEach_spec rows [] [] w2) as (s' & w3 & He & Ht & Hc).
  assert (Hout : out =
            match rowFailures rows fs with
            | [] => (savedProducts ns, (clearCache w3).2)
            | _ => (partialWriteFailure (rowFailures rows fs), w3)
            end).
  { unfold out, Part000.replaceAllProducts, tryCatch, bind, lift, adminRequest. cbn.
    rewrite Hn. unfold call at 1. rewrite Hf.
    assert (Hdel : (match d with
                    | Answers => let '(r, d0) := Supabase.deleteProducts (db w) in
                                 (Ok r, issued DeleteProducts (Fails message :: fs) d0 w)
                    | Fails m => (Ok (Error m),
                                  issued DeleteProducts (Fails message :: fs) (db w) w)
                    | Rejects m => (Throw (StoreError m),
                                    issued DeleteProducts (Fails message :: fs) (db w) w)
                    end) = (Ok (match d with Answers => Data tt | Fails m => Error m
                                             | Rejects m => Error m end), w1)).
    { destruct d as [|m|m]; [done|done|by destruct (Hd m)]. }
    rewrite Hdel. cbn in Hpos. rewrite Hpos. fold rows. unfold call at 1. cbn [faults issued].
    change (issued (InsertProducts rows) fs (db w1) w1) with w2.
    change (faults w1) with (Fails message :: fs). cbn iota.
    change {| db := db w1; cache := cache w1; faults := fs;
              trace := trace w1 ++ [InsertProducts rows] |} with w2.
    cbv beta. change (issued (InsertProducts rows) fs (db w1) w1) with w2.
    rewrite He. cbn [app]. change (faults w2) with fs.
    by destruct (rowFailures rows fs). }
  assert (Htr : trace w3 = trace w ++ [DeleteProducts; InsertProducts rows]
                                     ++ map InsertProduct rows).
  { rewrite Ht. unfold w2, w1. simpl. by rewrite <- !app_assoc. }
  fold errors in Hout. rewrite Hout. destruct errors as [|err errs] eqn:Herr; simpl.
  - split; [done|]. split; [by rewrite Hlen|done].
  - split; [done|]. split; [done|]. by intros _.
Qed.

Lemma Part000_replaceAllProducts_fallback_witness :
  exists ns,
    Part000.normalizeProducts (VArr [tee]) = Ok ns /\
    (Part000.replaceAllProducts (adminRequest (VObj [("products", VArr [tee])]))
       (bulkFailingWorld [])).1 = savedProducts ns /\
    (Part000.replaceAllProducts (adminRequest (VObj [("products", VArr [tee])]))
       (bulkFailingWorld [Fails "row rejected"])).1
    = partialWriteFailure [(VStr "Tee", "row rejected"%string)].
Proof.
  eexists. split; [reflexivity|].
  split.
  - destruct (Part000_replaceAllProducts_fallback [tee] _ (bulkFailingWorld []) Answers
                "bulk insert failed" [] ltac:(done) eq_refl eq_refl ltac:(done))
      as (_ & _ & Hok & _).
    by apply Hok.
  - destruct (Part000_replaceAllProducts_fallback [tee] _
                (bulkFailingWorld [Fails "row rejected"]) Answers
                "bulk insert failed" [Fails "row rejected"]
                ltac:(done) eq_refl eq_refl ltac:(done))
      as (_ & _ & _ & Hko).
    by apply Hko.
Defined.

(** C5 fails as stated: in server.js a failed bulk insert ends the request
    with status 500 at once; no row is inserted on its own, although every
    such insert would have succeeded. *)
Lemma ServerJs_replaceAllProducts_no_retry :
  exists ns,
    ServerJs.normalizeProducts (VArr [tee]) = Ok ns /\
    rowFailures (productsToInsert ns) [] = [] /\
    (ServerJs.replaceAllProducts None
       (adminRequest (VObj [("products", VArr [tee])])) (bulkFailingWorld [])).1
    = failure 500 "Erro ao salvar novos dados" /\
    trace (ServerJs.replaceAllProducts None
             (adminRequest (VObj [("products", VArr [tee])])) (bulkFailingWorld [])).2
    = [DeleteProducts; InsertProducts (productsToInsert ns)].
Proof. eexists. by vm_compute. Qed.

(** *** POST /categories *)

#[local] Arguments categoriesToUpsert : simpl never.

Lemma memberOf_spec ids id : Supabase.memberOf ids id = true <-> id ∈ ids.
Proof.
  unfold Supabase.memberOf. rewrite existsb_exists. split.
  - intros (x & Hx & ->%String.eqb_eq). by apply list_elem_of_In.
  - intros H. exists id. split; [by apply list_elem_of_In|apply String.eqb_refl].
Qed.

Lemma upsertCategory_ids r t id :
  id ∈ idsOf (Supabase.upsertCategory r t) <-> id = cat_id r \/ id ∈ idsOf t.
Proof.
  unfold idsOf. induction t as [|c t IH]; simpl.
  - rewrite elem_of_cons, elem_of_nil. tauto.
  - destruct (String.eqb_spec (cat_id c) (cat_id r)) as [Heq|Hne]; simpl.
    + rewrite !elem_of_cons, Heq. tauto.
    + rewrite !elem_of_cons, IH. tauto.
Qed.




Lemma upsertAll_ids rows : forall t id,
  id ∈ idsOf (upsertAll rows t) <-> id ∈ idsOf rows \/ id ∈ idsOf t.
Proof.
  unfold upsertAll. induction rows as [|r rows IH]; intros t id; simpl.
  - unfold idsOf at 2. simpl. rewrite elem_of_nil. tauto.
  - rewrite IH, upsertCategory_ids. unfold idsOf at 3. simpl.
    rewrite elem_of_cons. tauto.
Qed.




Lemma categoriesToUpsert_ids ns ids :
  mapM (fun cat => toStr (field "id" cat)) ns = Ok ids ->
  idsOf (categoriesToUpsert ns) = ids.
Proof.
  intros H%mapM_Ok_inv. unfold idsOf, categoriesToUpsert.
  induction H as [|c id ns ids Hc _ IH]; simpl; [done|].
  f_equal; [|done]. unfold text. by rewrite Hc.
Qed.


Lemma adminRequest_authorized body :
  unauthorized Part000.checkAuth (adminRequest body) = false /\
  forall ADMIN_TOKEN, unauthorized (ServerJs.checkAuth ADMIN_TOKEN) (adminRequest body) = false.
Proof.
  split; [by vm_compute|]. intros t. unfold unauthorized, ServerJs.checkAuth.
  cbn [authorization adminRequest truthy negb orb].
  replace (removeFirst "Bearer " "Bearer authenticated_admin_token")
    with "authenticated_admin_token"%string by (by vm_compute).
  rewrite String.eqb_refl. by rewrite orb_true_r.
Qed.




(** *** DELETE /categories/:categoryId *)


Lemma hasCategory_setCategory id to row :
  hasCategory id row = true ->
  hasCategory to (Supabase.setCategory to row) = true /\
  (to <> id -> hasCategory id (Supabase.setCategory to row) = false).
Proof.
  unfold hasCategory, Supabase.setCategory. destruct row; try done. simpl.
  intros _. rewrite lookupField_setField, String.eqb_refl. split; [done|].
  intros Hne. by apply String.eqb_neq.
Qed.

Lemma moved_products id to (l : list value) :
  to <> id ->
  Forall2 (fun r r' => if hasCategory id r then hasCategory to r' = true else r' = r)
          l (map (fun r => if hasCategory id r then Supabase.setCategory to r else r) l) /\
  Forall (fun r => hasCategory id r = false)
         (map (fun r => if hasCategory id r then Supabase.setCategory to r else r) l).
Proof.
  intros Hne. induction l as [|r l [IH1 IH2]]; simpl; [by split; constructor|].
  split; constructor; try done.
  - destruct (hasCategory id r) eqn:Hr; [|done]. by apply (hasCategory_setCategory id).
  - destruct (hasCategory id r) eqn:Hr; [|done]. by apply (hasCategory_setCategory id).
Qed.

#[local] Arguments deletedMessage : simpl never.

(** When the store answers every call, the deletion of a category that has
    products and is not the only one first moves each of its products to the
    first other category and then deletes the row: no product is left with
    the deleted id, and the category they now name is still in the table.
    The three files run the same calls. *)
Lemma deleteCategory_reassigns (w : world) (id : string)
    (category other : categoryRow) (rest : list categoryRow) :
  faults w = [] ->
  filter (fun c => String.eqb (cat_id c) id) (categories (db w)) = [category] ->
  filter (fun r => hasCategory id r) (products (db w)) <> [] ->
  filter (fun c => negb (String.eqb (cat_id c) id)) (categories (db w)) = other :: rest ->
  let out := Part000.deleteCategory (deleteRequest id) w in
  out.1 = deletedCategory category /\
  trace out.2 = trace w ++ guardedDeletion id (cat_id other) /\
  Forall2 (fun r r' => if hasCategory id r
                       then hasCategory (cat_id other) r' = true
                       else r' = r)
          (products (db w)) (products (db out.2)) /\
  Forall (fun r => hasCategory id r = false) (products (db out.2)) /\
  categories (db out.2) = other :: rest /\
  IndexJs.deleteCategory (deleteRequest id) w = out.
Proof.
  intros Hf Hcat Hps Hother out.
  assert (Hne : cat_id other <> id).
  { assert (Hin : other ∈ filter (fun c => negb (String.eqb (cat_id c) id))
                            (categories (db w))) by (rewrite Hother; by left).
    apply list_elem_of_filter in Hin as [Hin _].
    apply negb_prop_elim in Hin. intros Heq. apply Hin, Is_true_true.
    by apply String.eqb_eq. }
  set (moved := map (fun r => if hasCategory id r
                              then Supabase.setCategory (cat_id other) r else r)
                    (products (db w))).
  set (d1 := {| products := moved; categories := categories (db w);
                nextId := nextId (db w); inList := inList (db w) |}).
  set (d2 := {| products := moved; categories := other :: rest;
                nextId := nextId (db w); inList := inList (db w) |}).
  set (w' := {| db := d2; cache := cache w; faults := [];
                trace := (trace w ++ guardedDeletion id (cat_id other)) |}).
  assert (Hlen : exists p ps, filter (fun r => hasCategory id r) (products (db w)) = p :: ps).
  { destruct (filter _ (products (db w))) as [|p ps]; [done|by eexists _, _]. }
  destruct Hlen as (p & ps & Hfilter).
  assert (Hout : out = (deletedCategory category, w')).
  { unfold out, Part000.deleteCategory, tryCatch, bind.
    replace (unauthorized Part000.checkAuth (deleteRequest id)) with false
      by (by vm_compute).
    cbn [categoryId deleteRequest]. unfold call. rewrite Hf.
    unfold Supabase.selectCategory. rewrite Hcat.
    cbn [issued faults db Supabase.selectProductsOf]. rewrite Hfilter.
    cbn [length Nat.ltb Nat.leb issued faults db Supabase.selectOtherCategory].
    rewrite Hother.
    cbn [take issued faults db Supabase.updateProductsCategory Supabase.deleteCategory
         ret products categories nextId trace cache].
    rewrite Hother. unfold deletedCategory, w', d2, guardedDeletion, issued.
    cbn [trace cache]. by rewrite <- !app_assoc. }
  assert (Hout' : IndexJs.deleteCategory (deleteRequest id) w = (deletedCategory category, w')).
  { unfold IndexJs.deleteCategory, tryCatch, bind.
    replace (unauthorized IndexJs.checkAuth (deleteRequest id)) with false
      by (by vm_compute).
    cbn [categoryId deleteRequest]. unfold call. rewrite Hf.
    unfold Supabase.selectCategory. rewrite Hcat.
    cbn [issued faults db Supabase.selectProductsOf]. rewrite Hfilter.
    cbn [issued faults db Supabase.selectOtherCategory].
    rewrite Hother.
    cbn [take issued faults db Supabase.updateProductsCategory Supabase.deleteCategory
         ret products categories nextId trace cache].
    rewrite Hother. unfold deletedCategory, w', d2, guardedDeletion, issued.
    cbn [trace cache]. by rewrite <- !app_assoc. }
  rewrite Hout' , Hout. cbn [fst snd w' d2 db trace products categories].
  destruct (moved_products id (cat_id other) (products (db w)) Hne) as [H1 H2].
  by repeat split.
Qed.

Example deleteCategory_reassigns_catalog :
  let out := Part000.deleteCategory (deleteRequest "camisa") (catalogWorld []) in
  trace out.2 = guardedDeletion "camisa" "calca" /\
  Forall (fun r => hasCategory "camisa" r = false) (products (db out.2)).
Proof.
  destruct (deleteCategory_reassigns (catalogWorld []) "camisa"
              (categoryRowOf "camisa" "Camisa") (categoryRowOf "calca" "Calca") []
              eq_refl eq_refl ltac:(done) eq_refl) as (_ & Ht & _ & Hp & _).
  by split.
Qed.

(** C1, where the code falls short of it.  In index.js (and in server.js,
    which has the same lines) the answer of the store to the update is not
    looked at: when the update fails, the category is deleted all the same
    and its products keep the deleted id.  The file with the corrected
    normaliser checks that answer, throws, and leaves the category in place. *)
Theorem IndexJs_deleteCategory_ignores_update_error :
  let w := catalogWorld [Answers; Answers; Answers; Fails "statement timeout"] in
  let out := IndexJs.deleteCategory (deleteRequest "camisa") w in
  let out' := Part000.deleteCategory (deleteRequest "camisa") w in
  (out.1 = deletedCategory (categoryRowOf "camisa" "Camisa") /\
   trace out.2 = guardedDeletion "camisa" "calca" /\
   idsOf (categories (db out.2)) = ["calca"]%string /\
   filter (fun r => hasCategory "camisa" r) (products (db out.2))
   = [productRow 1 "Tee" "camisa"; productRow 2 "Polo" "camisa"]) /\
  (status out'.1 = 500 /\
   idsOf (categories (db out'.2)) = ["camisa"; "calca"]%string).
Proof. by vm_compute. Qed.

(** Neither file looks at the error of the search for another category: when
    that call fails the products are not moved and the row is deleted. *)
Example Part000_deleteCategory_lookup_error :
  let w := catalogWorld [Answers; Answers; Fails "statement timeout"] in
  let out := Part000.deleteCategory (deleteRequest "camisa") w in
  status out.1 = 200 /\
  trace out.2 = [SelectCategory "camisa"; SelectProductsOf "camisa";
                 SelectOtherCategory "camisa"; DeleteCategory "camisa"] /\
  idsOf (categories (db out.2)) = ["calca"]%string /\
  filter (fun r => hasCategory "camisa" r) (products (db out.2))
  = [productRow 1 "Tee" "camisa"; productRow 2 "Polo" "camisa"].
Proof. by vm_compute. Qed.

(** Deleting the only category leaves its products with the deleted id. *)
Example deleteCategory_last_category :
  let w := {| db := {| products := [productRow 1 "Tee" "camisa"];
                       categories := [categoryRowOf "camisa" "Camisa"];
                       nextId := 2; inList := singleQuoted |};
              cache := cache emptyWorld; faults := []; trace := [] |} in
  let out := Part000.deleteCategory (deleteRequest "camisa") w in
  status out.1 = 200 /\ categories (db out.2) = [] /\
  products (db out.2) = [productRow 1 "Tee" "camisa"].
Proof. by vm_compute. Qed.

Example simpleEncrypt_admin123 :
  simpleEncrypt "admin123" = "=MjMx4WatRWY" /\ simpleDecrypt "=MjMx4WatRWY" = Some "admin123"%string.
Proof. by vm_compute. Qed.

(** *** The password scrambler *)

Lemma charSextet_sextetChar n : (n < 64)%N -> charSextet (sextetChar n) = Some n.
Proof.
  intros H.
  assert (Hall : forallb (fun k => match charSextet (sextetChar (N.of_nat k)) with
                                   | Some m => N.eqb m (N.of_nat k)
                                   | None => false
                                   end) (seq 0 64) = true) by (by vm_compute).
  rewrite forallb_forall in Hall. specialize (Hall (N.to_nat n)).
  rewrite N2Nat.id in Hall.
  destruct (charSextet (sextetChar n)) as [m|].
  - f_equal. apply N.eqb_eq, Hall, in_seq. lia.
  - exfalso. assert (false = true); [|done]. apply Hall, in_seq. lia.
Qed.

Lemma sextetChar_not_pad n : (n < 64)%N -> Ascii.eqb (sextetChar n) "=" = false.
Proof.
  intros H.
  assert (Hall : forallb (fun k => negb (Ascii.eqb (sextetChar (N.of_nat k)) "="))
                         (seq 0 64) = true) by (by vm_compute).
  rewrite forallb_forall in Hall. specialize (Hall (N.to_nat n)).
  rewrite N2Nat.id in Hall. apply negb_true_iff, Hall, in_seq. lia.
Qed.

Ltac bytes_arith :=
  zify; Z.to_euclidean_division_equations; lia.

Lemma fromBase64_toBase64_bounded n : forall bytes,
  (length bytes <= n)%nat ->
  Forall (fun b => (b < 256)%N) bytes ->
  fromBase64 (toBase64 bytes) = Some bytes.
Proof.
  induction n as [|n IH]; intros bytes Hlen Hb.
  { destruct bytes; [done|simpl in Hlen; lia]. }
  destruct bytes as [|a [|b [|c rest]]]; [done| | |].
  - apply Forall_cons in Hb as [Ha _]. cbn [toBase64 fromBase64].
    rewrite !charSextet_sextetChar by bytes_arith.
    change (Ascii.eqb "=" "=") with true. cbv beta zeta iota.
    f_equal. f_equal. bytes_arith.
  - apply Forall_cons in Hb as [Ha Hb]. apply Forall_cons in Hb as [Hb _].
    cbn [toBase64 fromBase64].
    rewrite !charSextet_sextetChar by bytes_arith.
    rewrite sextetChar_not_pad by bytes_arith.
    change (Ascii.eqb "=" "=") with true. cbv beta zeta iota.
    f_equal. f_equal; [bytes_arith|]. f_equal. bytes_arith.
  - apply Forall_cons in Hb as [Ha Hb]. apply Forall_cons in Hb as [Hb Hc].
    apply Forall_cons in Hc as [Hc Hrest].
    cbn [toBase64 fromBase64].
    rewrite !charSextet_sextetChar by bytes_arith.
    rewrite !sextetChar_not_pad by bytes_arith.
    rewrite IH by (simpl in Hlen; (lia || done)). cbv beta zeta iota.
    f_equal. f_equal; [bytes_arith|]. f_equal; [bytes_arith|]. f_equal. bytes_arith.
Qed.


Lemma fromBase64_toBase64 bytes :
  Forall (fun b => (b < 256)%N) bytes -> fromBase64 (toBase64 bytes) = Some bytes.
Proof. by apply (fromBase64_toBase64_bounded (length bytes)). Qed.

Lemma bytesOf_bounded t : Forall (fun b => (b < 256)%N) (bytesOf t).
Proof.
  unfold bytesOf. apply Forall_forall. intros b Hb.
  apply list_elem_of_fmap in Hb as (c & -> & _). apply N_ascii_bounded.
Qed.

Lemma textOf_bytesOf t : textOf (bytesOf t) = t.
Proof.
  unfold textOf, bytesOf. rewrite map_map.
  rewrite (map_ext _ (fun c => c)) by apply ascii_N_embedding.
  by rewrite map_id, string_of_list_ascii_of_string.
Qed.

Lemma utf8Bytes_other a r : a <> 237%N -> utf8Bytes (a :: r) = a :: utf8Bytes r.
Proof.
  intros Ha. cbn [utf8Bytes]. destruct r as [|b [|c r2]]; [done..|].
  apply N.eqb_neq in Ha. by rewrite Ha.
Qed.

Ltac leb_prop :=
  repeat match goal with
         | H : (_ && _) = true |- _ => apply andb_true_iff in H as [? ?]
         | H : (_ <=? _)%N = true |- _ => apply N.leb_le in H
         | H : (_ <=? _)%N = false |- _ => apply N.leb_gt in H
         | H : (_ =? _)%N = true |- _ => apply N.eqb_eq in H
         end.

Lemma continuation_other b : continuation b = true -> b <> 237%N.
Proof. unfold continuation. intros H. leb_prop. lia. Qed.

Lemma utf8Bytes_utf8_bounded n : forall bytes,
  (length bytes <= n)%nat -> utf8 bytes = true -> utf8Bytes bytes = bytes.
Proof.
  induction n as [|n IH]; intros bytes Hlen Hu.
  { destruct bytes; [done|simpl in Hlen; lia]. }
  destruct bytes as [|a r]; [done|]. cbn [utf8] in Hu. cbn [length] in Hlen.
  destruct (a <=? 127)%N eqn:H1.
  { rewrite utf8Bytes_other by (leb_prop; lia). f_equal. apply IH; [lia|done]. }
  destruct r as [|b r1]; [done|]. cbn [length] in Hlen.
  destruct ((194 <=? a) && (a <=? 223))%N eqn:H2.
  { apply andb_true_iff in Hu as [Hb Hu].
    rewrite utf8Bytes_other by (leb_prop; lia).
    rewrite utf8Bytes_other by (by apply continuation_other).
    do 2 f_equal. apply IH; [lia|done]. }
  destruct r1 as [|c r2]; [done|]. cbn [length] in Hlen.
  destruct ((224 <=? a) && (a <=? 239))%N eqn:H3.
  { apply andb_true_iff in Hu as [Hu Hr]. apply andb_true_iff in Hu as [Hu Hx].
    apply andb_true_iff in Hu as [Hb Hc].
    assert (Hhead : utf8Bytes (a :: b :: c :: r2) = a :: utf8Bytes (b :: c :: r2)).
    { destruct (N.eq_dec a 237%N) as [->|Ha]; [|by apply utf8Bytes_other].
      cbn [utf8Bytes]. change (237 =? 224)%N with false in Hx.
      change (237 =? 237)%N with true in Hx. cbv beta iota in Hx.
      replace (160 <=? b)%N with false by (symmetry; apply N.leb_gt; leb_prop; lia).
      done. }
    rewrite Hhead.
    rewrite utf8Bytes_other by (by apply continuation_other).
    rewrite utf8Bytes_other by (by apply continuation_other).
    do 3 f_equal. apply IH; [lia|done]. }
  destruct r2 as [|d r3]; [done|]. cbn [length] in Hlen.
  apply andb_true_iff in Hu as [Hu Hr]. apply andb_true_iff in Hu as [Hu Hx].
  apply andb_true_iff in Hu as [Hu Hd]. apply andb_true_iff in Hu as [Hu Hc].
  apply andb_true_iff in Hu as [Ha Hb].
  rewrite utf8Bytes_other by (leb_prop; lia).
  rewrite utf8Bytes_other by (by apply continuation_other).
  rewrite utf8Bytes_other by (by apply continuation_other).
  rewrite utf8Bytes_other by (by apply continuation_other).
  do 4 f_equal. apply IH; [lia|done].
Qed.

Lemma utf8Bytes_utf8 bytes : utf8 bytes = true -> utf8Bytes bytes = bytes.
Proof. by apply (utf8Bytes_utf8_bounded (length bytes)). Qed.

Lemma utf8Bytes_bounded n : forall bytes,
  (length bytes <= n)%nat ->
  Forall (fun b => (b < 256)%N) bytes -> Forall (fun b => (b < 256)%N) (utf8Bytes bytes).
Proof.
  induction n as [|n IH]; intros bytes Hlen Hb.
  { destruct bytes; [done|simpl in Hlen; lia]. }
  destruct bytes as [|a r]; [done|]. cbn [length] in Hlen.
  apply Forall_cons in Hb as [Ha Hr]. cbn [utf8Bytes].
  assert (Hrest : Forall (fun b => (b < 256)%N) (a :: utf8Bytes r)).
  { apply Forall_cons. split; [done|]. apply IH; [lia|done]. }
  destruct r as [|b [|c r2]]; [done..|].
  destruct ((a =? 237) && (160 <=? b) && (b <=? 191) && continuation c)%N; [|done].
  apply Forall_cons in Hr as [_ Hr]. apply Forall_cons in Hr as [_ Hr].
  cbn [length] in Hlen. repeat (apply Forall_cons; split; [done|]).
  apply IH; [lia|done].
Qed.

Lemma simpleEncrypt_decoded t :
  fromBase64 (rev (list_ascii_of_string (simpleEncrypt t))) = Some (utf8Bytes (bytesOf t)).
Proof.
  unfold simpleEncrypt. rewrite list_ascii_of_string_of_list_ascii, rev_involutive.
  apply fromBase64_toBase64.
  apply (utf8Bytes_bounded (length (bytesOf t))); [done|apply bytesOf_bounded].
Qed.

Lemma simpleEncrypt_same a b :
  utf8 (bytesOf a) = true -> utf8 (bytesOf b) = true ->
  simpleEncrypt a = simpleEncrypt b -> a = b.
Proof.
  intros Hua Hub H. pose proof (simpleEncrypt_decoded a) as Ha.
  rewrite H, simpleEncrypt_decoded in Ha.
  rewrite (utf8Bytes_utf8 _ Hua), (utf8Bytes_utf8 _ Hub) in Ha.
  assert (Hb : bytesOf b = bytesOf a) by congruence.
  by rewrite <- (textOf_bytesOf a), <- Hb, textOf_bytesOf.
Qed.

#[local] Arguments simpleEncrypt : simpl never.

(** X1.  What [simpleEncrypt] has scrambled [simpleDecrypt] gives back: for
    every text that is well-formed UTF-8, decrypting the encrypted text
    returns the text. *)
Theorem simpleDecrypt_simpleEncrypt (t : string) :
  utf8 (bytesOf t) = true -> simpleDecrypt (simpleEncrypt t) = Some t.
Proof.
  intros Hutf. unfold simpleDecrypt.
  by rewrite simpleEncrypt_decoded, (utf8Bytes_utf8 _ Hutf), Hutf, textOf_bytesOf.
Qed.

Lemma simpleDecrypt_simpleEncrypt_witness :
  utf8 (bytesOf "admin123") = true /\
  simpleDecrypt (simpleEncrypt "admin123") = Some "admin123"%string.
Proof.
  split; [by vm_compute|]. apply simpleDecrypt_simpleEncrypt. by vm_compute.
Defined.

(** X2.  On well-formed texts [simpleEncrypt] loses nothing: two texts that
    are well-formed UTF-8 (no lone surrogate) have the same encrypted form
    only when they are the same text. *)
Theorem simpleEncrypt_injective (a b : string) :
  utf8 (bytesOf a) = true -> utf8 (bytesOf b) = true ->
  simpleEncrypt a = simpleEncrypt b <-> a = b.
Proof.
  intros Hua Hub. split; [by apply simpleEncrypt_same|by intros ->].
Qed.

Lemma simpleEncrypt_injective_witness :
  utf8 (bytesOf "admin123") = true /\ utf8 (bytesOf "admin124") = true /\
  (simpleEncrypt "admin123" = simpleEncrypt "admin124"
   <-> "admin123"%string = "admin124"%string).
Proof.
  split; [by vm_compute|]. split; [by vm_compute|].
  apply simpleEncrypt_injective; by vm_compute.
Defined.

(** A lone surrogate is not kept apart from the replacement character: the
    texts of U+D800 and of U+FFFD have the same encrypted form. *)
Example simpleEncrypt_lone_surrogate :
  textOf [237; 160; 128]%N <> textOf [239; 191; 189]%N /\
  simpleEncrypt (textOf [237; 160; 128]%N) = "9+77"%string /\
  simpleEncrypt (textOf [239; 191; 189]%N) = "9+77"%string.
Proof. split; [by vm_compute|]. split; by vm_compute. Qed.


(** *** Login and the admin token *)

Lemma removeFirst_unfold pattern s :
  removeFirst pattern s =
  if String.prefix pattern s then
    String.substring (String.length pattern) (String.length s - String.length pattern) s
  else match s with
       | EmptyString => EmptyString
       | String c r => String c (removeFirst pattern r)
       end.
Proof. by destruct s. Qed.

Lemma prefix_append p t : String.prefix p (p ++ t)%string = true.
Proof.
  induction p as [|c p IH]; simpl; [by destruct t|].
  by destruct (Ascii.ascii_dec c c).
Qed.

Lemma substring_all t : String.substring 0 (String.length t) t = t.
Proof. induction t as [|c t IH]; simpl; [done|by rewrite IH]. Qed.

Lemma substring_append p t n :
  String.substring (String.length p) n (p ++ t)%string = String.substring 0 n t.
Proof. induction p as [|c p IH]; simpl; [done|apply IH]. Qed.

Lemma length_append p t :
  String.length (p ++ t)%string = (String.length p + String.length t)%nat.
Proof. induction p as [|c p IH]; simpl; [done|by rewrite IH]. Qed.

Lemma removeFirst_prefix p t : removeFirst p (p ++ t)%string = t.
Proof.
  rewrite removeFirst_unfold, prefix_append, substring_append, length_append.
  replace (String.length p + String.length t - String.length p)%nat
    with (String.length t) by lia.
  apply substring_all.
Qed.

Lemma bearer_authorized (checkAuth : string -> bool) token body categoryId :
  checkAuth token = true ->
  unauthorized checkAuth (bearer token body categoryId) = false.
Proof.
  intros H. unfold unauthorized, bearer. cbn [authorization].
  by rewrite removeFirst_prefix, H.
Qed.

Lemma loginWith_success token answer username password r :
  loginWith token answer username password = Some r ->
  status r = 200 ->
  r = json (VObj [("success", VBool true); ("token", token);
                  ("user", VObj [("username", username)])]) /\
  exists row p,
    answer = Ok (Data row) /\ truthy row = true /\ password = VStr p /\
    (field "encrypted_password" row = VStr (simpleEncrypt p) \/
     field "password" row = VStr p).
Proof.
  unfold loginWith. intros H Hs.
  destruct answer as [[row|m]|e]; [| |]; try (injection H as <-; done).
  destruct (truthy row) eqn:Hrow; cbn [negb] in H; [|injection H as <-; done].
  destruct password as [| |b|x|p|l|fs]; cbn [encrypted] in H;
    try done; try (injection H as <-; done).
  destruct (isStr (simpleEncrypt p) (field "encrypted_password" row)) eqn:He.
  - cbn [orb] in H. injection H as <-. split; [done|]. exists row, p.
    repeat split; try done. left. unfold isStr in He.
    destruct (field "encrypted_password" row); try done.
    by apply String.eqb_eq in He as ->.
  - cbn [orb] in H. destruct (isStr p (field "password" row)) eqn:Hp;
      [|injection H as <-; done].
    injection H as <-. split; [done|]. exists row, p. repeat split; try done.
    right. unfold isStr in Hp. destruct (field "password" row); try done.
    by apply String.eqb_eq in Hp as ->.
Qed.

Lemma loginOf_success f answer req r :
  loginOf f answer req = Some r ->
  status r = 200 ->
  exists token username password,
    loginWith token answer username password = Some r /\
    getProp (body req) "password" = Ok password /\
    token = match f with
            | server_js ADMIN_TOKEN => ServerJs.envToken ADMIN_TOKEN
            | _ => VStr "authenticated_admin_token"
            end.
Proof.
  intros H Hs.
  destruct f as [| |T]; cbn [loginOf] in H;
    unfold Part000.login, IndexJs.login, ServerJs.login in H;
    destruct (getProp (body req) "username") as [username|];
    destruct (getProp (body req) "password") as [password|];
    try (injection H as <-; done).
  - by eexists _, username, password.
  - by eexists _, username, password.
  - destruct (negb (truthy username) || negb (truthy password));
      [injection H as <-; done|].
    destruct (toStr username); [|injection H as <-; done].
    by eexists _, username, password.
Qed.

Lemma loginWith_answers token answer username password :
  match password with VArr _ | VObj _ => false | _ => true end = true ->
  exists r, loginWith token answer username password = Some r.
Proof.
  intros Hp. unfold loginWith.
  destruct answer as [[row|m]|e]; [|by eexists..].
  destruct (negb (truthy row)); [by eexists|].
  destruct password; cbn [encrypted]; try done; try (by eexists).
  match goal with |- context [if ?c then _ else _] => destruct c end; by eexists.
Qed.

Lemma loginOf_answers f answer req :
  plainPassword req = true -> exists r, loginOf f answer req = Some r.
Proof.
  unfold plainPassword. intros Hp.
  destruct f as [| |T]; cbn [loginOf];
    unfold Part000.login, IndexJs.login, ServerJs.login;
    destruct (getProp (body req) "username") as [username|];
    destruct (getProp (body req) "password") as [password|];
    try (by eexists); try (by apply loginWith_answers).
  destruct (negb (truthy username) || negb (truthy password)); [by eexists|].
  destruct (toStr username); [|by eexists].
  by apply loginWith_answers.
Qed.

(** X3.  Login hands out a token only against a credentials row.  For a
    request whose password is not an array or an object (what [Buffer.from]
    makes of those is left out of the model), each of the three login
    handlers answers, and whenever it answers 200 the store answered the
    query with a row, the password of the request is a string, and that
    string is the row's [password] or its scrambled form is the row's
    [encrypted_password]. *)
Theorem login_only_with_matching_row (f : file) (answer : result (reply value))
    (req : request) :
  plainPassword req = true ->
  exists r,
    loginOf f answer req = Some r /\
    (status r = 200 ->
     exists row p,
       answer = Ok (Data row) /\ truthy row = true /\
       getProp (body req) "password" = Ok (VStr p) /\
       (field "encrypted_password" row = VStr (simpleEncrypt p) \/
        field "password" row = VStr p)).
Proof.
  intros Hplain. destruct (loginOf_answers f answer req Hplain) as [r H].
  exists r. split; [done|]. intros Hs.
  destruct (loginOf_success f answer req r H Hs) as (token & u & pw & Hw & Hp & _).
  destruct (loginWith_success _ _ _ _ _ Hw Hs) as (_ & row & p & -> & Hrow & -> & Hm).
  by exists row, p.
Qed.

Lemma login_only_with_matching_row_witness :
  plainPassword (loginRequest (VStr "admin") (VStr "admin123")) = true /\
  exists r,
    loginOf part_000 (Ok (Data seededCredentials))
            (loginRequest (VStr "admin") (VStr "admin123")) = Some r /\
    (status r = 200 ->
     exists row p,
       Ok (Data seededCredentials) = Ok (Data row) /\ truthy row = true /\
       getProp (body (loginRequest (VStr "admin") (VStr "admin123"))) "password"
       = Ok (VStr p) /\
       (field "encrypted_password" row = VStr (simpleEncrypt p) \/
        field "password" row = VStr p)).
Proof.
  split; [by vm_compute|].
  apply (login_only_with_matching_row part_000 (Ok (Data seededCredentials))
           (loginRequest (VStr "admin") (VStr "admin123"))).
  by vm_compute.
Defined.

Lemma isStr_true s v : isStr s v = true <-> v = VStr s.
Proof.
  unfold isStr. destruct v; try (split; done). rewrite String.eqb_eq.
  split; [by intros ->|by intros [= ->]].
Qed.

(** X4.  A credentials row that holds a password and the scrambled form of
    that same password, as the seeding of index.js writes it, admits that
    password and no other well-formed one: in part_000 and index.js, when
    the stored password and the password of the request are well-formed
    UTF-8 (no lone surrogate, which the scrambler does not keep apart from
    U+FFFD), the login answers 200 with the fixed token when the password is
    the stored one, and 401 otherwise. *)
Theorem login_admits_only_the_password (row username : value) (p0 p : string) :
  utf8 (bytesOf p0) = true ->
  utf8 (bytesOf p) = true ->
  field "password" row = VStr p0 ->
  field "encrypted_password" row = VStr (simpleEncrypt p0) ->
  let r := if String.eqb p p0
           then loggedIn (VStr "authenticated_admin_token") username
           else invalidCredentials in
  Part000.login (Ok (Data row)) (loginRequest username (VStr p)) = Some r /\
  IndexJs.login (Ok (Data row)) (loginRequest username (VStr p)) = Some r /\
  (status r = 200 <-> p = p0).
Proof.
  intros Hu0 Hu Hp He r.
  assert (Hrow : truthy row = true) by (by destruct row).
  assert (Hl : loginWith (VStr "authenticated_admin_token") (Ok (Data row)) username (VStr p)
               = Some r).
  { unfold loginWith. rewrite Hrow. cbn [negb encrypted]. rewrite Hp, He.
    unfold r, loggedIn, invalidCredentials. cbn [isStr].
    destruct (String.eqb_spec p p0) as [->|Hne].
    - by rewrite String.eqb_refl.
    - destruct (String.eqb_spec (simpleEncrypt p) (simpleEncrypt p0)) as [Heq|_]; [|done].
      by apply simpleEncrypt_same in Heq. }
  split; [|split].
  - unfold Part000.login, loginRequest. cbn [body getProp lookupField].
    by vm_compute String.eqb.
  - unfold IndexJs.login, loginRequest. cbn [body getProp lookupField].
    by vm_compute String.eqb.
  - unfold r. destruct (String.eqb_spec p p0); by split.
Qed.

Lemma login_admits_only_the_password_witness :
  Part000.login (Ok (Data seededCredentials)) (loginRequest (VStr "admin") (VStr "admin124"))
  = Some invalidCredentials /\
  Part000.login (Ok (Data seededCredentials)) (loginRequest (VStr "admin") (VStr "admin123"))
  = Some (loggedIn (VStr "authenticated_admin_token") (VStr "admin")).
Proof.
  split.
  - exact (proj1 (login_admits_only_the_password seededCredentials (VStr "admin")
                    "admin123" "admin124" eq_refl eq_refl eq_refl eq_refl)).
  - exact (proj1 (login_admits_only_the_password seededCredentials (VStr "admin")
                    "admin123" "admin123" eq_refl eq_refl eq_refl eq_refl)).
Defined.

(** X5.  The token handed out by a successful login opens the admin routes
    of the same file: sent back as [Bearer <token>] it passes the check made
    by every admin-gated handler.  In server.js this needs [ADMIN_TOKEN] to
    be set; when it is not, the success body carries no token. *)
Theorem login_token_opens_gate (f : file) (answer : result (reply value))
    (req : request) (r : response) :
  loginOf f answer req = Some r ->
  status r = 200 ->
  match f with
  | server_js None => field "token" (sent r) = VUndefined
  | _ =>
      exists token,
        field "token" (sent r) = VStr token /\
        forall body categoryId,
          unauthorized (checkAuthOf f) (bearer token body categoryId) = false
  end.
Proof.
  intros H Hs.
  destruct (loginOf_success f answer req r H Hs) as (token & u & pw & Hw & _ & Ht).
  destruct (loginWith_success _ _ _ _ _ Hw Hs) as (-> & _).
  destruct f as [| |[T|]]; subst token; cbn [sent payload json field lookupField];
    try done.
  - eexists. split; [by vm_compute|]. intros. by apply bearer_authorized.
  - eexists. split; [by vm_compute|]. intros. by apply bearer_authorized.
  - exists T. split; [by vm_compute|]. intros. apply bearer_authorized.
    unfold checkAuthOf, ServerJs.checkAuth. by rewrite String.eqb_refl.
Qed.

Lemma login_token_opens_gate_witness :
  exists token,
    field "token" (sent (loggedIn (VStr "s3cret") (VStr "admin"))) = VStr token /\
    forall body categoryId,
      unauthorized (checkAuthOf (server_js (Some "s3cret"))) (bearer token body categoryId)
      = false.
Proof.
  apply (login_token_opens_gate (server_js (Some "s3cret")) (Ok (Data seededCredentials))
           (loginRequest (VStr "admin") (VStr "admin123"))
           (loggedIn (VStr "s3cret") (VStr "admin")));
    by vm_compute.
Defined.

(** X6.  server.js refuses a login without username or password with 400,
    whatever the store would answer; with both present (and a username that
    has a string form) it answers with the same status as part_000. *)
Theorem ServerJs_login_requires_both (ADMIN_TOKEN : option string)
    (answer : result (reply value)) (username password : value) :
  (truthy username && truthy password = false ->
   ServerJs.login ADMIN_TOKEN answer (loginRequest username password)
   = Some (failure 400 "Username e password são obrigatórios")) /\
  (truthy username && truthy password = true ->
   forall s, toStr username = Ok s ->
   option_map status (ServerJs.login ADMIN_TOKEN answer (loginRequest username password))
   = option_map status (Part000.login answer (loginRequest username password))).
Proof.
  unfold ServerJs.login, Part000.login, loginRequest. cbn [body getProp lookupField].
  vm_compute String.eqb. split.
  - intros H. by destruct (truthy username), (truthy password).
  - intros H s Hs. rewrite Hs.
    destruct (truthy username), (truthy password); try done. cbn [negb orb].
    unfold loginWith. destruct answer as [[row|m]|e]; try done.
    destruct (negb (truthy row)); [done|].
    destruct (encrypted password) as [[enc|e]|]; try done.
    by destruct (_ || _).
Qed.

Lemma ServerJs_login_requires_both_witness :
  ServerJs.login None (Ok (Data seededCredentials)) (loginRequest (VStr "admin") (VStr ""))
  = Some (failure 400 "Username e password são obrigatórios") /\
  option_map status (ServerJs.login None (Ok (Data seededCredentials))
                       (loginRequest (VStr "admin") (VStr "admin123")))
  = option_map status (Part000.login (Ok (Data seededCredentials))
                         (loginRequest (VStr "admin") (VStr "admin123"))).
Proof.
  split.
  - exact (proj1 (ServerJs_login_requires_both None (Ok (Data seededCredentials))
                    (VStr "admin") (VStr "")) eq_refl).
  - exact (proj2 (ServerJs_login_requires_both None (Ok (Data seededCredentials))
                    (VStr "admin") (VStr "admin123")) eq_refl "admin"%string eq_refl).
Defined.

Lemma truthy_VStr_false s : truthy (VStr s) = false -> s = EmptyString.
Proof. by destruct s. Qed.

Lemma removeFirst_empty p : removeFirst p EmptyString = EmptyString.
Proof. simpl. by destruct p. Qed.

(** X7.  [/api/auth/verify] says [valid] for exactly the headers that the
    admin-gated handlers let through, in part_000, in index.js, and in
    server.js unless [ADMIN_TOKEN] is the empty string. *)
Theorem verify_agrees_with_gate (f : file) (req : request) :
  f <> server_js (Some EmptyString) ->
  valid (verifyOf f req) = negb (unauthorized (checkAuthOf f) req).
Proof.
  intros Hf.
  assert (Hempty : checkAuthOf f EmptyString = false).
  { destruct f as [| |[T|]]; try done. cbn. destruct T; [by destruct Hf|done]. }
  assert (Hv : verifyOf f req = verifyWith (checkAuthOf f) req) by (by destruct f).
  rewrite Hv. unfold verifyWith, unauthorized.
  destruct (authorization req) as [h|]; [|done].
  destruct (truthy (VStr h)) eqn:Hh.
  - cbn [negb orb]. destruct (truthy (VStr (removeFirst "Bearer " h))) eqn:Ht.
    + cbn [andb]. by destruct (checkAuthOf f (removeFirst "Bearer " h)).
    + apply truthy_VStr_false in Ht. rewrite Ht, Hempty. done.
  - apply truthy_VStr_false in Hh. subst h. rewrite removeFirst_empty.
    cbn [truthy andb]. done.
Qed.

Lemma verify_agrees_with_gate_witness :
  valid (verifyOf (server_js (Some "s3cret")) (bearer "s3cret" VUndefined ""))
  = negb (unauthorized (checkAuthOf (server_js (Some "s3cret"))) (bearer "s3cret" VUndefined "")).
Proof.
  apply (verify_agrees_with_gate (server_js (Some "s3cret"))
           (bearer "s3cret" VUndefined "")).
  discriminate.
Defined.


(** *** The admin gate *)

(** X8.  A request that does not pass the token check changes nothing: every
    admin-gated handler of the three files (the saves of products and of
    categories, the addition and the deletion of a category) answers 401,
    issues no call to the store and leaves the tables and the cache as they
    are. *)
Theorem unauthorized_request_changes_nothing (data : list categoryRow -> value)
    (f : file) (req : request) (w : world) :
  unauthorized (checkAuthOf f) req = true ->
  Forall (fun handler => handler req w = (notAuthorized, w)) (adminHandlers data f).
Proof.
  intros H. destruct f as [| |T]; cbn [adminHandlers checkAuthOf] in *;
    repeat constructor;
    unfold Part000.replaceAllProducts, Part000.replaceAllCategories, Part000.addCategory,
      Part000.deleteCategory, IndexJs.replaceAllProducts, IndexJs.addCategory,
      IndexJs.deleteCategory, ServerJs.replaceAllProducts, ServerJs.replaceAllCategories,
      ServerJs.addCategory, ServerJs.deleteCategory, tryCatch; by rewrite H.
Qed.

Lemma unauthorized_request_changes_nothing_witness :
  unauthorized (checkAuthOf (server_js (Some "s3cret")))
               {| authorization := Some "Bearer guess"; body := VObj [];
                  categoryId := "camisa" |} = true /\
  Forall (fun handler =>
            handler {| authorization := Some "Bearer guess"; body := VObj [];
                       categoryId := "camisa" |} (catalogWorld [])
            = (notAuthorized, catalogWorld []))
         (adminHandlers (fun _ => VNull) (server_js (Some "s3cret"))).
Proof.
  split; [by vm_compute|].
  apply unauthorized_request_changes_nothing. by vm_compute.
Defined.


(** *** POST /categories/add *)

#[local] Arguments addedMessage : simpl never.

Lemma addRequest_authorized category :
  unauthorized Part000.checkAuth (addRequest category) = false /\
  unauthorized IndexJs.checkAuth (addRequest category) = false.
Proof. by vm_compute. Qed.

Lemma addRequest_category category :
  getProp (body (addRequest category)) "category" = Ok category.
Proof. by vm_compute. Qed.

(** X9.  [/api/categories/add] never writes a category that lacks an id or a
    name: when the category of the request is missing, or its id or name is
    missing or empty, part_000 and index.js answer 400 and issue no call to
    the store. *)
Theorem addCategory_invalid_changes_nothing (category : value) (w : world) :
  invalidCategory category = true ->
  Part000.addCategory (addRequest category) w = (invalidCategoryData, w) /\
  IndexJs.addCategory (addRequest category) w = (invalidCategoryData, w).
Proof.
  intros H. destruct (addRequest_authorized category) as [H1 H2].
  unfold Part000.addCategory, IndexJs.addCategory, tryCatch, bind, lift.
  by rewrite H1, H2, addRequest_category, H.
Qed.

Lemma addCategory_invalid_changes_nothing_witness :
  Part000.addCategory (addRequest (VObj [("id", VStr "bone")])) (catalogWorld [])
  = (invalidCategoryData, catalogWorld []).
Proof.
  exact (proj1 (addCategory_invalid_changes_nothing (VObj [("id", VStr "bone")])
                  (catalogWorld []) eq_refl)).
Defined.

Lemma addCategory_answered (category : value) (id name : string) (w : world) :
  faults w = [] ->
  field "id" category = VStr id -> id <> EmptyString ->
  field "name" category = VStr name -> name <> EmptyString ->
  let row := addedRow category id name in
  let w' := {| db := {| products := products (db w);
                        categories := Supabase.upsertCategory row (categories (db w));
                        nextId := nextId (db w); inList := inList (db w) |};
               cache := cache w; faults := [];
               trace := trace w ++ [UpsertCategories [row]] |} in
  Part000.addCategory (addRequest category) w
  = (json (VObj [("success", VBool true); ("message", VStr (addedMessage name));
                 ("category", category)]), w') /\
  IndexJs.addCategory (addRequest category) w
  = (json (VObj [("success", VBool true); ("message", VStr (addedMessage name))]), w').
Proof.
  intros Hf Hid Hi Hname Hn row w'.
  destruct (addRequest_authorized category) as [H1 H2].
  assert (Hc : truthy category = true) by (by destruct category).
  assert (Hv : invalidCategory category = false).
  { unfold invalidCategory. rewrite Hc, Hid, Hname. by destruct id, name. }
  assert (Hrows : categoriesToUpsert [categoryToAdd category name] = [row]).
  { unfold categoriesToUpsert, categoryToAdd, row, addedRow. cbn [map field lookupField].
    vm_compute String.eqb. cbv iota. by rewrite Hid, Hname. }
  unfold Part000.addCategory, IndexJs.addCategory, tryCatch, bind, lift.
  rewrite H1, H2, addRequest_category, Hv, Hname, Hid. cbn [toStr].
  rewrite Hrows. unfold call. rewrite Hf.
  by unfold Supabase.upsertCategories, issued, ret.
Qed.



Lemma upsertCategory_twice r t :
  Supabase.upsertCategory r (Supabase.upsertCategory r t) = Supabase.upsertCategory r t.
Proof.
  induction t as [|c t IH]; simpl.
  - by rewrite String.eqb_refl.
  - destruct (String.eqb (cat_id c) (cat_id r)) eqn:Hc; simpl.
    + by rewrite String.eqb_refl.
    + by rewrite Hc, IH.
Qed.

(** X11.  Adding the same category a second time changes nothing more: the
    tables after two additions are the tables after one. *)
Theorem addCategory_twice (category : value) (id name : string) (w : world) :
  faults w = [] ->
  field "id" category = VStr id -> id <> EmptyString ->
  field "name" category = VStr name -> name <> EmptyString ->
  let once := (Part000.addCategory (addRequest category) w).2 in
  let twice := (Part000.addCategory (addRequest category) once).2 in
  db twice = db once.
Proof.
  intros Hf Hid Hi Hname Hn once twice. unfold twice, once.
  destruct (addCategory_answered category id name w Hf Hid Hi Hname Hn) as [H1 _].
  rewrite H1. cbn [snd].
  match goal with |- db (Part000.addCategory _ ?w1).2 = _ =>
    destruct (addCategory_answered category id name w1 eq_refl Hid Hi Hname Hn) as [H3 _];
    rewrite H3 end.
  cbn [snd db products categories nextId]. by rewrite upsertCategory_twice.
Qed.

Lemma addCategory_twice_witness :
  db (Part000.addCategory (addRequest (VObj [("id", VStr "bone"); ("name", VStr "Bone")]))
        (Part000.addCategory (addRequest (VObj [("id", VStr "bone"); ("name", VStr "Bone")]))
           (catalogWorld [])).2).2
  = db (Part000.addCategory (addRequest (VObj [("id", VStr "bone"); ("name", VStr "Bone")]))
          (catalogWorld [])).2.
Proof.
  refine (addCategory_twice (VObj [("id", VStr "bone"); ("name", VStr "Bone")])
            "bone" "Bone" (catalogWorld []) eq_refl eq_refl _ eq_refl _);
    discriminate.
Defined.


(** *** normalizeCategories: a second pass *)

Lemma capitalized_truthy s : s <> EmptyString -> truthy (VStr (capitalized s)) = true.
Proof. destruct s as [|c s]; [done|]. intros _. unfold capitalized. by cbn. Qed.

Lemma normalizeCategory_stable x c :
  normalizeCategory x = Ok c -> isNull c = false -> x <> VStr EmptyString ->
  normalizeCategory c = Ok c.
Proof.
  intros H Hc Hx. destruct x as [| |b|n|s|l|fs]; cbn [normalizeCategory] in H;
    try (injection H as <-; done).
  - injection H as <-. assert (Hs : s <> EmptyString) by congruence.
    cbn [normalizeCategory lookupField]. vm_compute String.eqb. cbv iota.
    rewrite (capitalized_truthy s Hs). by destruct s.
  - destruct (truthy (lookupField "id" fs)) eqn:Hid; [|injection H as <-; done].
    apply bind_Ok_inv in H as (name & Hname & H).
    apply bind_Ok_inv in H as (d & Hd & H). injection H as <-.
    assert (Hn : truthy name = true).
    { destruct (truthy (lookupField "name" fs)) eqn:Hn; [congruence|].
      destruct (lookupField "id" fs) as [| |?|?|s|?|?]; try done.
      injection Hname as <-. apply capitalized_truthy. by destruct s. }
    assert (Hdt : truthy d = true).
    { destruct (truthy (lookupField "description" fs)) eqn:Hdt; [congruence|].
      apply bind_Ok_inv in Hd as (s & _ & [= <-]). done. }
    cbn [normalizeCategory lookupField]. vm_compute String.eqb. cbv iota.
    by rewrite Hid, Hn, Hdt.
Qed.

Lemma normalizeCategories_stable l : forall mapped,
  Forall2 (fun x c => normalizeCategory x = Ok c) l mapped ->
  VStr EmptyString ∉ l ->
  let y := filter (fun cat => negb (isNull cat)) mapped in
  mapM normalizeCategory y = Ok y /\ filter (fun cat => negb (isNull cat)) y = y.
Proof.
  induction 1 as [|x c l mapped Hx _ IH]; intros Hl; [done|].
  apply not_elem_of_cons in Hl as [Hne Hl]. specialize (IH Hl).
  cbv zeta in *. destruct IH as [IH1 IH2].
  rewrite filter_cons. destruct (isNull c) eqn:Hc; simpl; [done|].
  rewrite filter_cons, Hc. simpl. rewrite IH2. split; [|done].
  rewrite (normalizeCategory_stable x c Hx Hc) by congruence. simpl.
  by rewrite IH1.
Qed.

(** X12.  [normalizeCategories] leaves its own output alone, the empty
    string apart: when it returns on an input none of whose elements is the
    empty string, normalising the output again gives the same list.  (The
    empty string becomes a category with an empty id, which a second pass
    drops.) *)
Theorem normalizeCategories_idempotent (x : value) (y : list value) :
  normalizeCategories x = Ok y ->
  VStr EmptyString ∉ asList x ->
  normalizeCategories (VArr y) = Ok y.
Proof.
  intros H Hx. destruct x as [| |b|n|s|l|fs]; try (injection H as <-; done).
  unfold normalizeCategories in H. apply bind_Ok_inv in H as (mapped & Hm & [= <-]).
  apply mapM_Ok_inv in Hm.
  destruct (normalizeCategories_stable l mapped Hm Hx) as [H1 H2].
  unfold normalizeCategories. rewrite H1. simpl. by rewrite H2.
Qed.

Lemma normalizeCategories_idempotent_witness :
  (VStr EmptyString ∉ asList (VArr [VStr "shoes"; VNull; VObj [("id", VStr "hats")]])) /\
  exists y,
    normalizeCategories (VArr [VStr "shoes"; VNull; VObj [("id", VStr "hats")]]) = Ok y /\
    normalizeCategories (VArr y) = Ok y.
Proof.
  assert (H : VStr EmptyString ∉ asList (VArr [VStr "shoes"; VNull; VObj [("id", VStr "hats")]])).
  { cbn [asList]. rewrite !not_elem_of_cons. repeat split; try done. apply not_elem_of_nil. }
  split; [exact H|]. eexists. split; [reflexivity|].
  exact (normalizeCategories_idempotent
           (VArr [VStr "shoes"; VNull; VObj [("id", VStr "hats")]]) _ eq_refl H).
Defined.

Example normalizeCategories_empty_string_dropped :
  exists c, normalizeCategories (VArr [VStr ""]) = Ok [c] /\
            normalizeCategories (VArr [c]) = Ok [].
Proof. eexists. by vm_compute. Qed.

(** *** GET /categories *)

(** X13.  GET /categories never answers with an error: in the three files
    the status is 200 and the body a category list, which is empty when the
    store hands back an error or the call throws. *)
Theorem getCategories_never_fails (f : file) (answer : result (reply (list value))) :
  exists cs, getCategoriesOf f answer = categoryList cs /\
             (noRows answer = true -> cs = []).
Proof.
  destruct f as [| |T]; cbn [getCategoriesOf];
    unfold Part000.getCategories, IndexJs.getCategories, ServerJs.getCategories;
    destruct answer as [[[|row rows]|m]|e]; try (by eexists);
    match goal with |- context [normalizeCategories ?a] =>
      destruct (normalizeCategories a) end; by eexists.
Qed.

Lemma rowValue_normalized c :
  cat_id c <> EmptyString -> cat_name c <> EmptyString -> cat_description c <> EmptyString ->
  normalizeCategory (rowValue c) = Ok (rowValue c).
Proof.
  intros Hi Hn Hd. unfold rowValue. cbn [normalizeCategory lookupField].
  vm_compute String.eqb. cbv iota.
  by destruct (cat_id c), (cat_name c), (cat_description c).
Qed.

(** X14.  GET /categories hands the rows of the store on as they are: when
    the store answers rows whose id, name and description are not empty, the
    body lists exactly these rows, in the order of the store's answer. *)
Theorem getCategories_returns_rows (f : file) (table : list categoryRow) :
  Forall (fun c => cat_id c <> EmptyString /\ cat_name c <> EmptyString /\
                   cat_description c <> EmptyString) table ->
  getCategoriesOf f (Ok (Data (map rowValue table))) = categoryList (map rowValue table).
Proof.
  intros H.
  assert (Hn : normalizeCategories (VArr (map rowValue table)) = Ok (map rowValue table)).
  { unfold normalizeCategories.
    assert (Hm : mapM normalizeCategory (map rowValue table) = Ok (map rowValue table)).
    { apply mapM_Ok_intro. induction H as [|c t (Hi & Hn & Hd) _ IH]; constructor; [|done].
      by apply rowValue_normalized. }
    rewrite Hm. simpl. f_equal. clear. induction table as [|c t IH]; [done|].
    cbn [map]. rewrite filter_cons. simpl. by rewrite IH. }
  destruct f as [| |T]; cbn [getCategoriesOf];
    unfold Part000.getCategories, IndexJs.getCategories, ServerJs.getCategories.
  - destruct table as [|c t]; [done|]. cbn [map] in *. by rewrite Hn.
  - destruct table as [|c t]; [done|]. cbn [map] in *. by rewrite Hn.
  - by rewrite Hn.
Qed.

Lemma getCategories_returns_rows_witness :
  getCategoriesOf part_000
    (Ok (Data (map rowValue [categoryRowOf "calca" "Calca"; categoryRowOf "camisa" "Camisa"])))
  = categoryList (map rowValue [categoryRowOf "calca" "Calca"; categoryRowOf "camisa" "Camisa"]).
Proof.
  apply getCategories_returns_rows. by repeat constructor.
Defined.


(** *** DELETE /categories/:categoryId, the store answering *)

Lemma deleteRequest_authorized f id :
  unauthorized (checkAuthOf f) (deleteRequest id) = false.
Proof.
  destruct f as [| |T]; [by vm_compute|by vm_compute|].
  unfold unauthorized, checkAuthOf, ServerJs.checkAuth.
  cbn [authorization deleteRequest truthy negb orb].
  replace (removeFirst "Bearer " "Bearer authenticated_admin_token")
    with "authenticated_admin_token"%string by (by vm_compute).
  rewrite String.eqb_refl. by rewrite orb_true_r.
Qed.

Lemma filter_absent id (table : list categoryRow) :
  id ∉ idsOf table -> filter (fun c => String.eqb (cat_id c) id) table = [].
Proof.
  unfold idsOf. induction table as [|c t IH]; [done|]. cbn [map].
  intros [Hne Ht]%not_elem_of_cons. rewrite filter_cons.
  destruct (String.eqb_spec (cat_id c) id) as [Heq|_]; [by destruct Hne|].
  simpl. by apply IH.
Qed.

(** X15.  Deleting a category that is not in the table changes nothing: when
    the store answers and no row carries the id, or when the store hands
    back an error for the lookup, the three files answer 404 after that one
    call; tables and cache are as before. *)
Theorem deleteCategory_not_found (f : file) (id : string) (w : world) :
  (faults w = [] /\ id ∉ idsOf (categories (db w))) \/
  (exists message fs, faults w = Fails message :: fs) ->
  let out := deleteCategoryOf f (deleteRequest id) w in
  out.1 = categoryNotFound /\
  db out.2 = db w /\ cache out.2 = cache w /\
  trace out.2 = trace w ++ [SelectCategory id].
Proof.
  intros H out. pose proof (deleteRequest_authorized f id) as Ha.
  assert (Hout : out = (categoryNotFound,
                        issued (SelectCategory id) (tail (faults w)) (db w) w)).
  { unfold out. destruct f as [| |T]; cbn [deleteCategoryOf checkAuthOf] in *;
      unfold Part000.deleteCategory, IndexJs.deleteCategory, ServerJs.deleteCategory,
        tryCatch, bind; rewrite Ha; cbn [categoryId deleteRequest]; unfold call;
      (destruct H as [[Hf Hid]|(m & fs & Hf)]; rewrite Hf;
       [unfold Supabase.selectCategory; by rewrite (filter_absent _ _ Hid)|done]). }
  by rewrite Hout.
Qed.

Lemma deleteCategory_not_found_witness :
  (deleteCategoryOf index_js (deleteRequest "bone") (catalogWorld [])).1 = categoryNotFound /\
  db (deleteCategoryOf index_js (deleteRequest "bone") (catalogWorld [])).2
  = db (catalogWorld []).
Proof.
  assert (H : "bone"%string ∉ idsOf (categories (db (catalogWorld [])))).
  { cbn. rewrite !not_elem_of_cons. repeat split; try done. apply not_elem_of_nil. }
  destruct (deleteCategory_not_found index_js "bone" (catalogWorld [])
              (or_introl (conj eq_refl H))) as (H1 & H2 & _).
  by split.
Defined.

Lemma deleteCategory_answered (f : file) (id : string) (category : categoryRow) (w : world) :
  faults w = [] ->
  filter (fun c => String.eqb (cat_id c) id) (categories (db w)) = [category] ->
  deleteCategoryOf f (deleteRequest id) w
  = (deletedCategory category,
     {| db := {| products := afterMove id (db w);
                 categories := filter (fun c => negb (String.eqb (cat_id c) id))
                                      (categories (db w));
                 nextId := nextId (db w); inList := inList (db w) |};
        cache := cache w; faults := [];
        trace := trace w ++ deletionCalls id (db w) |}).
Proof.
  intros Hf Hcat. pose proof (deleteRequest_authorized f id) as Ha.
  unfold afterMove, deletionCalls, guardedDeletion.
  destruct f as [| |T]; cbn [deleteCategoryOf checkAuthOf] in *;
    unfold Part000.deleteCategory, IndexJs.deleteCategory, ServerJs.deleteCategory,
      tryCatch, bind; rewrite Ha; cbn [categoryId deleteRequest]; unfold call;
    rewrite Hf; unfold Supabase.selectCategory; rewrite Hcat;
    cbn [issued faults db Supabase.selectProductsOf];
    (destruct (filter (fun r => hasCategory id r) (products (db w))) as [|p ps];
     [cbn [length Nat.ltb Nat.leb issued faults db ret Supabase.deleteCategory
           products categories nextId trace cache];
      unfold deletedCategory, issued; cbn [trace cache]; by rewrite <- !app_assoc|]);
    cbn [length Nat.ltb Nat.leb issued faults db Supabase.selectOtherCategory];
    (destruct (filter (fun c => negb (String.eqb (cat_id c) id)) (categories (db w)))
       as [|other rest] eqn:Ho;
     cbn [take issued faults db ret Supabase.updateProductsCategory Supabase.deleteCategory
          products categories nextId trace cache];
     rewrite ?Ho; unfold deletedCategory, issued; cbn [trace cache];
     by rewrite <- !app_assoc).
Qed.


Lemma hasCategory_differs a b r :
  hasCategory a r = true -> hasCategory b r = false -> a <> b.
Proof. intros Ha Hb ->. congruence. Qed.

Lemma kept_category id (c : categoryRow) (table : list categoryRow) :
  c ∈ table -> cat_id c <> id ->
  c ∈ filter (fun c => negb (String.eqb (cat_id c) id)) table.
Proof.
  intros Hc Hne. apply list_elem_of_filter. split; [|done].
  apply Is_true_true, negb_true_iff. by apply String.eqb_neq.
Qed.

Lemma deleted_id_gone id (table : list categoryRow) :
  id ∉ idsOf (filter (fun c => negb (String.eqb (cat_id c) id)) table).
Proof.
  unfold idsOf. intros (c & -> & [Hc _]%list_elem_of_filter)%list_elem_of_fmap.
  apply Is_true_true, negb_true_iff in Hc. by rewrite String.eqb_refl in Hc.
Qed.

(** X16.  Deletion keeps the products consistent when another category is
    there and the store answers: if before the request every product names a
    category of the table, then after the deletion of a category, in each of
    the three files, every product still names a category of the table, and
    the deleted id is no longer in it. *)
Theorem deleteCategory_keeps_products_consistent
    (f : file) (id : string) (category other : categoryRow) (rest : list categoryRow)
    (w : world) :
  faults w = [] ->
  filter (fun c => String.eqb (cat_id c) id) (categories (db w)) = [category] ->
  filter (fun c => negb (String.eqb (cat_id c) id)) (categories (db w)) = other :: rest ->
  consistent (db w) ->
  let out := deleteCategoryOf f (deleteRequest id) w in
  out.1 = deletedCategory category /\
  consistent (db out.2) /\
  id ∉ idsOf (categories (db out.2)).
Proof.
  intros Hf Hcat Hother Hcons out. unfold out.
  rewrite (deleteCategory_answered f id category w Hf Hcat).
  cbn [fst snd db]. split; [done|]. split; [|apply deleted_id_gone].
  assert (Ho : other ∈ filter (fun c => negb (String.eqb (cat_id c) id)) (categories (db w)))
    by (rewrite Hother; by left).
  unfold consistent, afterMove in *. cbn [products categories]. rewrite Hother in *.
  destruct (filter (fun r => hasCategory id r) (products (db w))) as [|p ps] eqn:Hps.
  - apply Forall_forall. intros r Hr.
    rewrite Forall_forall in Hcons. destruct (Hcons r Hr) as (c & Hc & Hrc).
    exists c. split; [|done]. rewrite <- Hother. apply kept_category; [done|].
    apply (hasCategory_differs _ _ r Hrc).
    destruct (hasCategory id r) eqn:Hid; [|done].
    assert (Hin : r ∈ filter (fun r => hasCategory id r) (products (db w))).
    { apply list_elem_of_filter. split; [by apply Is_true_true|done]. }
    rewrite Hps in Hin. by apply elem_of_nil in Hin.
  - apply Forall_map. eapply Forall_impl; [exact Hcons|].
    intros r (c & Hc & Hrc). cbv beta.
    destruct (hasCategory id r) eqn:Hid.
    + exists other. split; [done|]. by apply (hasCategory_setCategory id).
    + exists c. split; [|done]. rewrite <- Hother. apply kept_category; [done|].
      by apply (hasCategory_differs _ _ r Hrc).
Qed.

Lemma catalog_consistent : consistent (db (catalogWorld [])).
Proof.
  unfold consistent. cbn [catalogWorld db products categories].
  repeat constructor.
  - exists (categoryRowOf "camisa" "Camisa"). split; [by left|done].
  - exists (categoryRowOf "camisa" "Camisa"). split; [by left|done].
  - exists (categoryRowOf "calca" "Calca"). split; [by right; left|done].
Defined.

Lemma deleteCategory_keeps_products_consistent_witness :
  consistent (db (catalogWorld [])) /\
  consistent (db (deleteCategoryOf (server_js None) (deleteRequest "camisa")
                    (catalogWorld [])).2).
Proof.
  split; [exact catalog_consistent|].
  exact (proj1 (proj2 (deleteCategory_keeps_products_consistent (server_js None) "camisa"
                         (categoryRowOf "camisa" "Camisa") (categoryRowOf "calca" "Calca") []
                         (catalogWorld []) eq_refl eq_refl eq_refl catalog_consistent))).
Defined.

(** X17.  Deleting the only category orphans its products: when the table
    holds one category and the store answers, the three files delete the row
    and answer success, and every product is left as it was, those naming the
    deleted category included. *)
Theorem deleteCategory_last_category_orphans
    (f : file) (category : categoryRow) (w : world) :
  faults w = [] ->
  categories (db w) = [category] ->
  let out := deleteCategoryOf f (deleteRequest (cat_id category)) w in
  out.1 = deletedCategory category /\
  categories (db out.2) = [] /\
  products (db out.2) = products (db w).
Proof.
  intros Hf Hc out. unfold out.
  assert (H1 : filter (fun c => String.eqb (cat_id c) (cat_id category)) (categories (db w))
               = [category]).
  { rewrite Hc, filter_cons. by rewrite String.eqb_refl. }
  assert (H2 : filter (fun c => negb (String.eqb (cat_id c) (cat_id category)))
                      (categories (db w)) = []).
  { rewrite Hc, filter_cons. by rewrite String.eqb_refl. }
  rewrite (deleteCategory_answered f _ category w Hf H1).
  cbn [fst snd db products categories]. unfold afterMove. rewrite H2.
  split; [done|]. split; [done|].
  by destruct (filter (fun r => hasCategory (cat_id category) r) (products (db w))).
Qed.

Lemma deleteCategory_last_category_orphans_witness :
  categories (db (deleteCategoryOf part_000 (deleteRequest "camisa") lastCategoryWorld).2) = [] /\
  products (db (deleteCategoryOf part_000 (deleteRequest "camisa") lastCategoryWorld).2)
  = [productRow 1 "Tee" "camisa"].
Proof.
  exact (proj2 (deleteCategory_last_category_orphans part_000
                  (categoryRowOf "camisa" "Camisa") lastCategoryWorld eq_refl eq_refl)).
Defined.


(** *** POST /products without a product list *)

Lemma productsRequest_authorized products :
  unauthorized Part000.checkAuth (productsRequest products) = false /\
  unauthorized IndexJs.checkAuth (productsRequest products) = false /\
  forall ADMIN_TOKEN,
    unauthorized (ServerJs.checkAuth ADMIN_TOKEN) (productsRequest products) = false.
Proof.
  split; [by vm_compute|]. split; [by vm_compute|].
  apply (adminRequest_authorized (VObj [("products", products)])).
Qed.

Lemma productsRequest_products products :
  getProp (body (productsRequest products)) "products" = Ok products.
Proof. by vm_compute. Qed.

(** X18.  What is sent in place of a product list decides between a refusal
    and an empty catalog.  When [products] is not an array (and not an
    object), part_000 and server.js answer 400 without a call to the store;
    index.js has no such check: it normalises the value to the empty list,
    deletes every product (those of id 0 apart), clears the cache and
    answers success with [0 produtos salvos]. *)
Theorem IndexJs_replaceAllProducts_without_list (products : value) (w : world) :
  isArray products = false ->
  isPlainObject products = false ->
  faults w = [] ->
  let req := productsRequest products in
  IndexJs.replaceAllProducts req w
  = (json (VObj [("success", VBool true);
                 ("message", VStr (count 0 ++ " produtos salvos")%string)]),
     {| db := wiped (db w); cache := clearedCache; faults := [];
        trace := trace w ++ [DeleteProducts] |}) /\
  Part000.replaceAllProducts req w = (failure 400 "Dados de produtos inválidos", w) /\
  forall ADMIN_TOKEN,
    ServerJs.replaceAllProducts ADMIN_TOKEN req w = (failure 400 "Formato de dados inválido", w).
Proof.
  intros Ha Ho Hf req.
  destruct (productsRequest_authorized products) as (H1 & H2 & H3).
  assert (Hn : IndexJs.normalizeProducts products = Ok []) by (by destruct products).
  assert (Hl : logLength products = Ok EmptyString) by (by destruct products).
  split; [|split].
  - unfold IndexJs.replaceAllProducts, tryCatch, bind, lift, req.
    rewrite H2, productsRequest_products, Hl, Hn. unfold call. rewrite Hf.
    by cbn.
  - unfold Part000.replaceAllProducts, tryCatch, bind, lift, req.
    rewrite H1, productsRequest_products, Hl. cbn [mbind result_bind].
    rewrite Ha. by rewrite orb_true_r.
  - intros T. unfold ServerJs.replaceAllProducts, tryCatch, bind, lift, req.
    by rewrite H3, productsRequest_products, Ha.
Qed.

Lemma IndexJs_replaceAllProducts_without_list_witness :
  products (db (IndexJs.replaceAllProducts (productsRequest VUndefined) (catalogWorld [])).2) = [] /\
  Part000.replaceAllProducts (productsRequest VUndefined) (catalogWorld [])
  = (failure 400 "Dados de produtos inválidos", catalogWorld []).
Proof.
  destruct (IndexJs_replaceAllProducts_without_list VUndefined (catalogWorld [])
              eq_refl eq_refl eq_refl) as (H1 & H2 & _).
  split; [by rewrite H1|exact H2].
Defined.


(** *** POST /products, then GET /products *)

Lemma Part000_replaceAllProducts_answered (xs ns : list value) (w : world) :
  xs <> [] ->
  Part000.normalizeProducts (VArr xs) = Ok ns ->
  sentAsIs (productsToInsert ns) ->
  faults w = [] ->
  Part000.replaceAllProducts (productsRequest (VArr xs)) w
  = (savedProducts ns,
     {| db := {| products := filter (fun r => isRow0 r) (products (db w))
                             ++ storedProducts (nextId (db w)) ns;
                 categories := categories (db w);
                 nextId := (nextId (db w) + N.of_nat (length (productsToInsert ns)))%N;
                 inList := inList (db w) |};
        cache := clearedCache; faults := [];
        trace := trace w ++ [DeleteProducts; InsertProducts (productsToInsert ns)] |}).
Proof.
  intros Hxs Hn Hjson Hf.
  pose proof (Part000_normalizeProducts_length _ _ Hn) as Hlen.
  assert (Hpos : (0 <? length ns)%nat = true).
  { apply Nat.ltb_lt. rewrite Hlen. destruct xs; [done|simpl; lia]. }
  destruct (productsRequest_authorized (VArr xs)) as (H1 & _).
  unfold Part000.replaceAllProducts, tryCatch, bind, lift.
  rewrite H1, productsRequest_products. cbn [logLength mbind result_bind truthy isArray negb orb].
  rewrite Hn, Hpos. unfold call. rewrite Hf.
  cbn [Supabase.deleteProducts issued faults db Supabase.insertProducts ret clearCache
       setCache products categories nextId trace cache inList].
  rewrite Hjson.
  unfold savedProducts, storedProducts, clearedCache. by rewrite <- !app_assoc.
Qed.

Lemma mapWithIndex_fixed {A} (f : nat -> A -> result A) (l : list A) :
  Forall (fun x => forall j, f j x = Ok x) l ->
  forall i, mapWithIndex f i l = Ok l.
Proof.
  induction 1 as [|x l Hx _ IH]; intros i; simpl; [done|].
  by rewrite Hx, IH.
Qed.

(** A saved row goes through the normaliser unchanged: the store has put its
    own id first, and the six fields sent are already normalised. *)
Lemma Part000_stored_row_stable i x p (id : N) (j : nat) :
  Part000.normalizeProduct i x = Ok p ->
  stableProduct p ->
  id <> 0%N ->
  forall rows, productsToInsert [p] = rows ->
  Forall (fun row => Part000.normalizeProduct j (withId id row) = Ok (withId id row)) rows.
Proof.
  unfold Part000.normalizeProduct at 1.
  destruct (getProp x "id") as [pid|e] eqn:Hid; [|done].
  rewrite !(getProp_total _ _ _ Hid). cbn [mbind result_bind].
  destruct (match field "colors" x with VArr l => _ | _ => _ end)
    as [colors|e] eqn:Hcolors; [|done].
  cbn [mbind result_bind].
  destruct (parseFloat (field "price" x)) as [price|e] eqn:Hprice; [|done].
  cbn [mbind result_bind]. intros [= <-]. unfold stableProduct.
  cbn [field getProp lookupField String.eqb Ascii.eqb Bool.eqb mbind result_bind asList].
  intros Hst Hne rows <-.
  assert (Hc : mapM Part000.normalizeColor colors = Ok colors).
  { destruct (field "colors" x);
      try (injection Hcolors as <-; apply defaultColor_idem).
    exact (mapM_idem _ _ _ _ Part000_normalizeColor_idem Hcolors Hst). }
  destruct (orElse_number price) as (y & Hy & Hyx & Hyy).
  assert (Hpy : parseFloat (VNum y) = Ok y).
  { destruct Hyx as [->| ->]; [by eapply parseFloat_stable|done]. }
  unfold productsToInsert. cbn [map]. constructor; [|constructor].
  cbn [field lookupField String.eqb Ascii.eqb Bool.eqb withId].
  rewrite Hy. unfold Part000.normalizeProduct.
  cbn [field getProp lookupField String.eqb Ascii.eqb Bool.eqb mbind result_bind].
  rewrite Hc. cbn [mbind result_bind]. rewrite Hpy. cbn [mbind result_bind].
  rewrite Hyy, !orElse_idem. by rewrite (orElse_true _ _ (ofN_truthy id Hne)).
Qed.

Lemma Part000_stored_stable (xs ns : list value) :
  Part000.normalizeProducts (VArr xs) = Ok ns ->
  Forall stableProduct ns ->
  forall id, id <> 0%N ->
  Forall (fun row => forall j, Part000.normalizeProduct j row = Ok row) (storedProducts id ns).
Proof.
  intros Hn Hst. cbn [Part000.normalizeProducts] in Hn.
  apply mapWithIndex_Ok_inv in Hn as [Hlen Hn].
  assert (Hall : Forall (fun p => exists i x, Part000.normalizeProduct i x = Ok p) ns).
  { apply Forall_lookup. intros j p Hp.
    destruct (lookup_lt_is_Some_2 xs j) as [x Hx].
    { rewrite <- Hlen. by eapply lookup_lt_Some. }
    destruct (Hn j x Hx) as (y & Hy & Hxy). exists (0 + j)%nat, x. congruence. }
  clear Hn Hlen. unfold storedProducts.
  induction ns as [|p ns IH]; intros id Hid; [constructor|].
  apply Forall_cons in Hst as [Hp Hst]. apply Forall_cons in Hall as [(i & x & Hx) Hall].
  change (productsToInsert (p :: ns)) with (productsToInsert [p] ++ productsToInsert ns).
  cbn [productsToInsert map app numbered]. constructor.
  - intros j.
    pose proof (Part000_stored_row_stable i x p id j Hx Hp Hid _ eq_refl) as H.
    by apply Forall_cons in H as [H _].
  - apply IH; [done|done|lia].
Qed.

Lemma storedProducts_fields (ns : list value) : forall id,
  Forall2 (fun p row => forall k, k <> "id"%string ->
                        k ∈ ["title"; "category"; "price"; "description"; "status";
                             "colors"]%string ->
                        field k row = field k p)
          ns (storedProducts id ns).
Proof.
  unfold storedProducts.
  induction ns as [|p ns IH]; intros id; [constructor|].
  change (productsToInsert (p :: ns)) with (productsToInsert [p] ++ productsToInsert ns).
  cbn [productsToInsert map app numbered]. constructor; [|apply IH].
  intros k Hk Hin. cbn [withId field lookupField].
  destruct (String.eqb_spec k "id") as [->|_]; [done|].
  rewrite !elem_of_cons, elem_of_nil in Hin.
  destruct Hin as [->|[->|[->|[->|[->|[->|[]]]]]]]; by vm_compute String.eqb.
Qed.

Lemma storedProducts_ids (ns : list value) : forall id j row,
  storedProducts id ns !! j = Some row ->
  field "id" row = VNum (ofN (id + N.of_nat j)).
Proof.
  unfold storedProducts.
  induction ns as [|p ns IH]; intros id j row; [done|].
  change (productsToInsert (p :: ns)) with (productsToInsert [p] ++ productsToInsert ns).
  cbn [productsToInsert map app numbered]. destruct j as [|j].
  - intros [= <-]. cbn [withId field lookupField]. vm_compute String.eqb. cbv iota.
    by rewrite N.add_0_r.
  - intros H. rewrite (IH _ _ _ H). do 2 f_equal. lia.
Qed.

(** X19.  What is saved is what is read back.  In part_000, when the store
    answers, has no row of id 0 and numbers its rows from a non-zero id, a
    save of a non-empty product list followed by a GET at any time returns
    one product per input product, in order: each with the title, category,
    price, description, status and colors of the normalised input, and with
    the id the store gave to its row.  This is for a list whose numbers, and
    those of its normalised form, have at most 15 significant digits (where
    the numbers of the model are those of the code), whose normalised form
    is stable, and whose rows reach the store as they are (nothing
    undefined, no price or stock that is not finite: JSON would send null
    for those).  What the cache held before the save plays no part. *)
Theorem Part000_saved_products_read_back (xs ns : list value) (w : world) (now : Z) :
  xs <> [] ->
  forallb exactValue xs = true ->
  Part000.normalizeProducts (VArr xs) = Ok ns ->
  forallb exactValue ns = true ->
  Forall stableProduct ns ->
  sentAsIs (productsToInsert ns) ->
  faults w = [] ->
  nextId (db w) <> 0%N ->
  filter (fun r => isRow0 r) (products (db w)) = [] ->
  let saved := Part000.replaceAllProducts (productsRequest (VArr xs)) w in
  let read := Part000.getProducts now saved.2 in
  saved.1 = savedProducts ns /\
  read.1 = productList (products (db read.2)) /\
  Forall2 (fun p row => forall k, k <> "id"%string ->
                        k ∈ ["title"; "category"; "price"; "description"; "status";
                             "colors"]%string ->
                        field k row = field k p)
          ns (products (db read.2)) /\
  (forall j row, products (db read.2) !! j = Some row ->
                 field "id" row = VNum (ofN (nextId (db w) + N.of_nat j))).
Proof.
  intros Hxs _ Hn _ Hst Hjson Hf Hid H0 saved read. unfold read, saved.
  rewrite (Part000_replaceAllProducts_answered xs ns w Hxs Hn Hjson Hf). cbn [fst snd].
  rewrite H0. cbn [app].
  match goal with |- context [Part000.getProducts now ?w1] =>
    rewrite (Part000_getProducts_fills now w1 (storedProducts (nextId (db w)) ns)) end.
  - cbn [fst snd filled setCache issued db products]. split; [done|]. split; [done|].
    split; [apply storedProducts_fields|apply storedProducts_ids].
  - done.
  - done.
  - cbn [db products Part000.normalizeProducts].
    apply mapWithIndex_fixed.
    eapply Forall_impl; [by apply (Part000_stored_stable xs ns Hn Hst)|].
    intros row Hrow j. apply Hrow.
Qed.

Lemma Part000_saved_products_read_back_witness :
  exists ns,
    Part000.normalizeProducts (VArr [tee]) = Ok ns /\
    forallb exactValue ns = true /\ sentAsIs (productsToInsert ns) /\
    (Part000.getProducts 0
       (Part000.replaceAllProducts (productsRequest (VArr [tee])) emptyWorld).2).1
    = productList (storedProducts 1 ns).
Proof.
  eexists. split; [reflexivity|]. split; [by vm_compute|]. split; [by vm_compute|].
  refine (proj1 (proj2 (Part000_saved_products_read_back [tee] _ emptyWorld 0
                          _ eq_refl eq_refl eq_refl _ eq_refl eq_refl _ eq_refl))).
  - discriminate.
  - repeat constructor; simpl; try discriminate; lia.
  - discriminate.
Defined.


(** *** POST /categories without a valid category *)

(** X20.  A list without a valid category deletes nothing: when the
    [categories] of the request normalise to the empty list (not an array,
    an empty array, or elements that are all dropped), part_000 and
    server.js issue no call to the store.  server.js answers 400.  part_000
    answers 400 as well, [Nenhuma categoria fornecida], unless [categories]
    is an object whose [length] has no string form: the line that logs the
    length then throws, and the answer is 500. *)
Theorem replaceAllCategories_empty_changes_nothing
    (ADMIN_TOKEN : option string) (categories : value) (w : world) :
  normalizeCategories categories = Ok [] ->
  let req := categoriesRequest categories in
  Part000.replaceAllCategories req w
  = (match logLength categories with
     | Ok _ => failure 400 "Nenhuma categoria fornecida"
     | Throw e => {| status := 500;
                     payload := ErrorJson "Erro ao salvar categorias: " (Some e) false |}
     end, w) /\
  (isPlainObject categories = false -> exists s, logLength categories = Ok s) /\
  exists r, ServerJs.replaceAllCategories ADMIN_TOKEN req w = (r, w) /\ status r = 400.
Proof.
  intros Hn req. unfold req, categoriesRequest.
  destruct (adminRequest_authorized (VObj [("categories", categories)])) as [H1 H2].
  assert (Hc : getProp (body (adminRequest (VObj [("categories", categories)]))) "categories"
               = Ok categories) by (by vm_compute).
  split; [|split].
  - unfold Part000.replaceAllCategories, tryCatch, bind, lift.
    rewrite H1, Hc. destruct (logLength categories); [|done].
    cbn [mbind result_bind]. by rewrite Hn.
  - intros Ho. destruct categories; try done; by eexists.
  - unfold ServerJs.replaceAllCategories, tryCatch, bind, lift.
    rewrite H2, Hc.
    destruct (isArray categories); cbn [negb]; [|by eexists].
    rewrite Hn. by eexists.
Qed.

Lemma replaceAllCategories_empty_changes_nothing_witness :
  Part000.replaceAllCategories (categoriesRequest (VArr [VNull; VObj [("name", VStr "Bone")]]))
    (catalogWorld [])
  = (failure 400 "Nenhuma categoria fornecida", catalogWorld []) /\
  status (Part000.replaceAllCategories
            (categoriesRequest (VObj [("length", VObj [("toString", VNum (ofN 1))])]))
            (catalogWorld [])).1 = 500.
Proof.
  split.
  - exact (proj1 (replaceAllCategories_empty_changes_nothing None
                    (VArr [VNull; VObj [("name", VStr "Bone")]]) (catalogWorld []) eq_refl)).
  - by rewrite (proj1 (replaceAllCategories_empty_changes_nothing None
                         (VObj [("length", VObj [("toString", VNum (ofN 1))])])
                         (catalogWorld []) eq_refl)).
Defined.

(** *** Reads and writes that fail *)

(** X21.  A read that fails is not remembered: when the cache misses and the
    store does not answer the product query, the GET handlers of the three
    files leave cache and tables as they were, so that the next GET asks the
    store again. *)
Theorem getProducts_failure_not_cached (CACHE_DURATION now : Z) (w : world) :
  storeFails w ->
  cacheRead 120000 now (cache w) = None ->
  cacheRead CACHE_DURATION now (cache w) = None ->
  Forall (fun out : response * world =>
            cache out.2 = cache w /\ db out.2 = db w /\
            trace out.2 = trace w ++ [SelectProducts])
         [Part000.getProducts now w; IndexJs.getProducts now w;
          ServerJs.getProducts CACHE_DURATION now w].
Proof.
  intros (f & fs & Hf & Hne) H1 H2.
  repeat constructor;
    unfold Part000.getProducts, IndexJs.getProducts, ServerJs.getProducts, tryCatch, bind,
      getCache;
    change Part000.CACHE_DURATION with 120000; change IndexJs.CACHE_DURATION with 120000;
    rewrite ?H1, ?H2; unfold call; rewrite Hf; by destruct f.
Qed.

Lemma getProducts_failure_not_cached_witness :
  Forall (fun out : response * world =>
            cache out.2 = cache failingWorld /\ db out.2 = db failingWorld /\
            trace out.2 = trace failingWorld ++ [SelectProducts])
         [Part000.getProducts 5 failingWorld; IndexJs.getProducts 5 failingWorld;
          ServerJs.getProducts 60000 5 failingWorld].
Proof.
  apply getProducts_failure_not_cached; [|done|done].
  eexists _, _. split; [reflexivity|discriminate].
Defined.

(** X22.  A save whose insert fails empties the catalog and keeps the cache.
    In index.js, when the delete of the old rows is answered and the insert
    of a non-empty normalised list is not, the answer is 500, every product
    but those of id 0 is gone, nothing is inserted, and the cache is not
    cleared: a GET inside the cache window still answers with the list
    cached before, which the store no longer holds. *)
Theorem IndexJs_failed_save_keeps_stale_cache
    (xs ns v : list value) (w : world) (f : fault) (fs : list fault) (t now : Z) :
  IndexJs.normalizeProducts (VArr xs) = Ok ns ->
  ns <> [] ->
  faults w = Answers :: f :: fs ->
  f <> Answers ->
  cache w = cachedAt v t ->
  now - t < 120000 ->
  let out := IndexJs.replaceAllProducts (productsRequest (VArr xs)) w in
  status out.1 = 500 /\
  db out.2 = wiped (db w) /\
  trace out.2 = trace w ++ [DeleteProducts; InsertProducts (productsToInsert ns)] /\
  IndexJs.getProducts now out.2 = (productList v, out.2).
Proof.
  intros Hn Hns Hf Hne Hc Hnow out.
  destruct (productsRequest_authorized (VArr xs)) as (_ & H2 & _).
  assert (Hpos : (0 <? length ns)%nat = true) by (by destruct ns).
  set (w' := {| db := wiped (db w); cache := cache w; faults := fs;
                trace := trace w ++ [DeleteProducts; InsertProducts (productsToInsert ns)] |}).
  assert (Hout : exists r, out = (r, w') /\ status r = 500).
  { unfold out, IndexJs.replaceAllProducts, tryCatch, bind, lift.
    rewrite H2, productsRequest_products. cbn [logLength mbind result_bind].
    rewrite Hn, Hpos. unfold call. rewrite Hf.
    cbn [Supabase.deleteProducts issued faults db ret].
    unfold w', wiped, issued. cbn [trace cache db]. rewrite <- !app_assoc.
    destruct f as [|m|m]; [done| |]; by eexists. }
  destruct Hout as (r & -> & Hr). cbn [fst snd]. repeat split; try done.
  unfold IndexJs.getProducts, tryCatch, bind, getCache, cacheRead.
  cbn [cache w']. rewrite Hc. cbn [cachedAt cache_products productsTimestamp].
  change IndexJs.CACHE_DURATION with 120000.
  by replace (now - t <? 120000) with true by (symmetry; apply Z.ltb_lt; lia).
Qed.

Lemma IndexJs_failed_save_keeps_stale_cache_witness :
  db (IndexJs.replaceAllProducts (productsRequest (VArr [tee]))
        (filled [tee] 0 (catalogWorld [Answers; Fails "statement timeout"]))).2
  = wiped (db (catalogWorld [])) /\
  (IndexJs.getProducts 1000
     (IndexJs.replaceAllProducts (productsRequest (VArr [tee]))
        (filled [tee] 0 (catalogWorld [Answers; Fails "statement timeout"]))).2).1
  = productList [tee].
Proof.
  destruct (IndexJs_failed_save_keeps_stale_cache [tee] [tee] [tee]
              (filled [tee] 0 (catalogWorld [Answers; Fails "statement timeout"]))
              (Fails "statement timeout") [] 0 1000
              eq_refl ltac:(discriminate) eq_refl ltac:(discriminate) eq_refl ltac:(lia))
    as (_ & Hd & _ & Hg).
  split; [exact Hd|by rewrite Hg].
Defined.


(** *** normalizeProducts: the canonical schema *)

Lemma orElse_truthy a d : truthy d = true -> truthy (orElse a d) = true.
Proof. unfold orElse. intros Hd. by destruct (truthy a) eqn:Ha. Qed.

Lemma orElse_number_not_NaN x :
  exists y, orElse (VNum x) (VNum Zero) = VNum y /\ y <> NaN.
Proof. destruct x as [|b| |neg ds n]; by eexists. Qed.

Lemma Part000_normalizeSize_canonical sz s1 :
  Part000.normalizeSize sz = Ok s1 -> canonicalSize s1.
Proof.
  unfold Part000.normalizeSize.
  destruct (getProp sz "name") as [n|e]; [|done]. cbn [mbind result_bind].
  destruct (toStr (orElse n (VStr "M"))) as [nm|e]; [|done]. cbn [mbind result_bind].
  destruct (getProp sz "stock") as [st|e]; [|done]. cbn [mbind result_bind].
  destruct (parseInt st) as [stock|e]; [|done]. cbn [mbind result_bind].
  intros [= <-]. destruct (orElse_number_not_NaN stock) as (y & -> & Hy).
  by exists nm, y.
Qed.

Lemma defaultSizes_canonical :
  exists sizes, defaultSizes = VArr sizes /\ Forall canonicalSize sizes.
Proof.
  eexists. split; [reflexivity|]. repeat constructor; by eexists _, _.
Qed.

Lemma Part000_normalizeColor_canonical color c1 :
  Part000.normalizeColor color = Ok c1 -> canonicalColor c1.
Proof.
  unfold Part000.normalizeColor.
  destruct (getProp color "name") as [n|e]; [|done]. cbn [mbind result_bind].
  destruct (getProp color "image") as [i|e]; [|done]. cbn [mbind result_bind].
  destruct (getProp color "sizes") as [ss|e]; [|done]. cbn [mbind result_bind].
  destruct (match ss with VArr l => _ | _ => _ end) as [ss'|e] eqn:Hss; [|done].
  cbn [mbind result_bind]. intros [= <-].
  assert (Hs : exists sizes, ss' = VArr sizes /\ Forall canonicalSize sizes).
  { destruct ss; try (injection Hss as <-; apply defaultSizes_canonical).
    apply fmap_Ok_inv in Hss as (l' & Hl' & ->). exists l'. split; [done|].
    apply mapM_Ok_inv in Hl'. induction Hl' as [|x y l k Hx _ IH]; constructor; [|done].
    by apply (Part000_normalizeSize_canonical x). }
  destruct Hs as (sizes & -> & Hsizes).
  eexists _, _, sizes. split; [reflexivity|]. by repeat split; try apply orElse_truthy.
Qed.

Lemma Part000_normalizeProduct_canonical index product p :
  Part000.normalizeProduct index product = Ok p -> canonicalProduct p.
Proof.
  unfold Part000.normalizeProduct.
  destruct (getProp product "id") as [pid|e] eqn:Hid; [|done].
  rewrite !(getProp_total _ _ _ Hid). cbn [mbind result_bind].
  destruct (match field "colors" product with VArr l => _ | _ => _ end)
    as [colors|e] eqn:Hcolors; [|done].
  cbn [mbind result_bind].
  destruct (parseFloat (field "price" product)) as [price|e] eqn:Hprice; [|done].
  cbn [mbind result_bind]. intros [= <-].
  destruct (orElse_number_not_NaN price) as (y & -> & Hy).
  assert (Hc : Forall canonicalColor colors).
  { destruct (field "colors" product) as [| |?|?|?|l|?];
      try (injection Hcolors as <-; constructor; [|constructor];
           destruct defaultSizes_canonical as (sizes & -> & Hs);
           eexists _, _, sizes; split; [reflexivity|];
           by repeat split; try apply orElse_truthy).
    apply mapM_Ok_inv in Hcolors.
    induction Hcolors as [|x c l k Hx _ IH]; constructor; [|done].
    by apply (Part000_normalizeColor_canonical x). }
  eexists _, _, _, y, _, _, colors. split; [reflexivity|].
  repeat split; try done; try (by apply orElse_truthy).
  apply orElse_truthy, ofN_truthy. lia.
Qed.

(** X23.  The normaliser of part_000 produces the canonical schema: every
    product it returns is an object with exactly the keys id, title,
    category, price, description, status and colors, in this order; id,
    title, category, description and status are never empty (truthy), price
    is a number other than NaN, and colors is an array of objects with
    exactly the keys name, image and sizes, name and image never empty, whose
    sizes are objects with exactly a string name and a numeric stock other
    than NaN. *)
Theorem Part000_normalizeProducts_canonical (x : value) (ns : list value) :
  Part000.normalizeProducts x = Ok ns -> Forall canonicalProduct ns.
Proof.
  intros Hn. destruct x as [| |?|?|?|l|?]; try (injection Hn as <-; constructor).
  cbn [Part000.normalizeProducts] in Hn.
  apply mapWithIndex_Ok_inv in Hn as [Hlen Hn].
  apply Forall_lookup. intros j p Hp.
  destruct (lookup_lt_is_Some_2 l j) as [y Hy].
  { rewrite <- Hlen. by eapply lookup_lt_Some. }
  destruct (Hn j y Hy) as (p' & Hp' & Hnp).
  apply (Part000_normalizeProduct_canonical (0 + j) y). congruence.
Qed.

Lemma Part000_normalizeProducts_canonical_witness :
  exists ns, Part000.normalizeProducts (VArr [tee; VStr "?"]) = Ok ns /\
             Forall canonicalProduct ns.
Proof.
  eexists. split; [reflexivity|].
  exact (Part000_normalizeProducts_canonical (VArr [tee; VStr "?"]) _ eq_refl).
Defined.

(** *** normalizeProducts of index.js and server.js: a second pass *)

Lemma lookupField_setField_other k k' v fs :
  k <> k' -> lookupField k (setField k' v fs) = lookupField k fs.
Proof.
  intros Hne. induction fs as [|[k0 v0] fs IH]; cbn [setField lookupField].
  - by destruct (String.eqb_spec k k').
  - destruct (String.eqb_spec k' k0) as [->|Hk0]; cbn [lookupField].
    + destruct (String.eqb_spec k k0); [done|].
      by destruct (String.eqb_spec k k0).
    + by rewrite IH.
Qed.

Lemma setField_setField k v v' fs :
  setField k v (setField k v' fs) = setField k v fs.
Proof.
  induction fs as [|[k0 v0] fs IH]; cbn [setField].
  - by rewrite String.eqb_refl.
  - destruct (String.eqb_spec k k0) as [->|Hne]; cbn [setField].
    + by rewrite String.eqb_refl.
    + destruct (String.eqb_spec k k0); [done|]. by rewrite IH.
Qed.

Lemma IndexJs_normalizeColor_idem color c1 :
  IndexJs.normalizeColor color = Ok c1 -> IndexJs.normalizeColor c1 = Ok c1.
Proof.
  unfold IndexJs.normalizeColor.
  destruct (getProp color "name") as [n|e]; [|done]. cbn [mbind result_bind].
  destruct (getProp color "image") as [i|e]; [|done]. cbn [mbind result_bind].
  destruct (getProp color "sizes") as [ss|e]; [|done]. cbn [mbind result_bind].
  intros [= <-].
  cbn [field getProp lookupField String.eqb Ascii.eqb Bool.eqb mbind result_bind].
  by rewrite !orElse_idem.
Qed.

Lemma IndexJs_normalizeProduct_idem product p :
  IndexJs.normalizeProduct product = Ok p -> IndexJs.normalizeProduct p = Ok p.
Proof.
  intros H. pose proof H as H0. unfold IndexJs.normalizeProduct in H.
  destruct (getProp product "sizes") as [sizes|e] eqn:Hsizes; [|done].
  rewrite !(getProp_total _ _ _ Hsizes) in H. apply getProp_field in Hsizes as ->.
  cbn [mbind result_bind] in H.
  destruct (truthy (field "sizes" product) && negb (truthy (field "colors" product)))
    eqn:Hcond.
  - apply andb_true_iff in Hcond as [Hs Hc].
    destruct product as [| |?|?|?|?|fs]; try done. cbn [field] in *.
    injection H as <-. unfold IndexJs.normalizeProduct, IndexJs.spreadWithColors.
    cbn [getProp mbind result_bind].
    rewrite lookupField_setField, (lookupField_setField_other "sizes" "colors") by done.
    rewrite Hs. cbn [truthy negb andb mapM]. unfold IndexJs.normalizeColor.
    cbn [field getProp lookupField String.eqb Ascii.eqb Bool.eqb mbind result_bind].
    rewrite (orElse_twice _ (VStr "Padrão")) by done.
    rewrite orElse_idem, (orElse_true _ _ Hs).
    unfold mret, result_ret. cbn [mbind result_bind]. by rewrite setField_setField.
  - destruct (field "colors" product) as [| |?|?|?|l|?] eqn:Hcolors;
      try (injection H as <-; exact H0).
    destruct product as [| |?|?|?|?|fs]; try done. cbn [field] in *.
    destruct (mapM IndexJs.normalizeColor l) as [colors|e] eqn:Hm; [|done].
    cbn [mbind result_bind] in H. injection H as <-.
    unfold IndexJs.normalizeProduct, IndexJs.spreadWithColors.
    cbn [getProp mbind result_bind].
    rewrite lookupField_setField. cbn [truthy negb]. rewrite andb_false_r.
    rewrite (mapM_idem (fun _ => True) _ _ _
               (fun x y H _ => IndexJs_normalizeColor_idem x y H) Hm
               (Forall_true _ _ (fun _ => I))).
    cbn [mbind result_bind]. by rewrite setField_setField.
Qed.

(** X24.  The normalisers of index.js and of server.js leave their own
    output alone: wherever [normalizeProducts] returns, normalising the
    result again gives the same list. *)
Theorem normalizeProducts_idempotent_elsewhere (x : value) (y : list value) :
  (IndexJs.normalizeProducts x = Ok y -> IndexJs.normalizeProducts (VArr y) = Ok y) /\
  (ServerJs.normalizeProducts x = Ok y -> ServerJs.normalizeProducts (VArr y) = Ok y).
Proof.
  split; [|apply ServerJs_normalizeProducts_idempotent].
  intros Hn. destruct x as [| |?|?|?|l|?]; try (injection Hn as <-; done).
  unfold IndexJs.normalizeProducts in *.
  exact (mapM_idem (fun _ => True) _ _ _
           (fun x y H _ => IndexJs_normalizeProduct_idem x y H) Hn
           (Forall_true _ _ (fun _ => I))).
Qed.

Lemma normalizeProducts_idempotent_elsewhere_witness :
  exists y,
    IndexJs.normalizeProducts
      (VArr [VObj [("title", VStr "Tee"); ("color", VStr "Red");
                   ("sizes", VArr [VObj [("name", VStr "M"); ("stock", VStr "7")]])]])
    = Ok y /\
    IndexJs.normalizeProducts (VArr y) = Ok y.
Proof.
  eexists. split; [reflexivity|].
  exact (proj1 (normalizeProducts_idempotent_elsewhere
                  (VArr [VObj [("title", VStr "Tee"); ("color", VStr "Red");
                               ("sizes", VArr [VObj [("name", VStr "M");
                                                     ("stock", VStr "7")]])]]) _) eq_refl).
Defined.


(** *** Category writes and the product cache *)

Lemma keepsCache_ret {A} (a : A) : keepsCache (ret a).
Proof. done. Qed.

Lemma keepsCache_lift {A} (r : result A) : keepsCache (lift r).
Proof. done. Qed.

Lemma keepsCache_throw {A} (e : exn) : keepsCache (@throw A e).
Proof. done. Qed.

Lemma keepsCache_call {A} c (op : store -> reply A * store) : keepsCache (call c op).
Proof.
  intros w. unfold call. destruct (faults w) as [|[|m|m] fs]; try done;
    by destruct (op (db w)).
Qed.

Lemma keepsCache_bind {A B} (m : M A) (k : A -> M B) :
  keepsCache m -> (forall a, keepsCache (k a)) -> keepsCache (bind m k).
Proof.
  intros Hm Hk w. unfold bind. specialize (Hm w).
  destruct (m w) as [[a|e] w']; cbn [snd] in *; [|done].
  by rewrite Hk.
Qed.

Lemma keepsCache_tryCatch (body : M response) handler w :
  keepsCache body -> cache (tryCatch body handler w).2 = cache w.
Proof.
  intros H. unfold tryCatch. specialize (H w). by destruct (body w) as [[r|e] w'].
Qed.

Ltac keeps_cache :=
  repeat first
    [ apply keepsCache_ret | apply keepsCache_lift | apply keepsCache_throw
    | apply keepsCache_call
    | apply keepsCache_bind; [|intros ?]
    | match goal with
      | |- keepsCache (if ?b then _ else _) => destruct b
      | |- keepsCache (match ?x with _ => _ end) => destruct x
      end ].

(** X25.  No category write invalidates the product cache: whatever the
    request and whatever the store answers, the handlers of the three files
    that add, replace or delete categories leave the cache as it was, also
    when a deletion has moved products to another category.  A GET inside
    the cache window then still answers with the products as they were
    before the move. *)
Theorem category_writes_keep_cache (data : list categoryRow -> value) (f : file)
    (req : request) (w : world) :
  Forall (fun handler => cache (handler req w).2 = cache w) (categoryHandlers data f).
Proof.
  destruct f as [| |T]; cbn [categoryHandlers]; repeat constructor;
    unfold Part000.replaceAllCategories, Part000.addCategory, Part000.deleteCategory,
      IndexJs.addCategory, IndexJs.deleteCategory, ServerJs.replaceAllCategories,
      ServerJs.addCategory, ServerJs.deleteCategory;
    apply keepsCache_tryCatch; cbv zeta; keeps_cache.
Qed.

Lemma hasCategory_same a b r :
  hasCategory a r = true -> hasCategory b r = true -> a = b.
Proof.
  unfold hasCategory. destruct (field "category" r); try done.
  intros ->%String.eqb_eq ->%String.eqb_eq. done.
Qed.

(** *** POST /categories and the products *)

(** X26.  Replacing the categories can orphan products.  In part_000, when
    the store answers, POST /categories with a list that does not name a
    category deletes that category even though products still name it: when
    the id of the category is neither in the input nor in the list that the
    store reads in the filter text of the delete, the products are left
    untouched, the id is gone from the table, and the store is no longer
    consistent.  Only [DELETE /categories/:id] moves products.  (The input
    categories have strings as id, name and description, and a derived name
    starts with an ASCII character.) *)
Theorem Part000_replaceAllCategories_can_orphan
    (cats : value) (ns : list value) (ids : list string) (w : world)
    (r : value) (c : string) :
  normalizeCategories cats = Ok ns ->
  ns <> [] ->
  forallb asciiNamed (asList cats) = true ->
  forallb textual ns = true ->
  mapM (fun cat => toStr (field "id" cat)) ns = Ok ids ->
  faults w = [] ->
  r ∈ products (db w) ->
  hasCategory c r = true ->
  c ∉ ids ->
  c ∉ inList (db w) (notInFilter ids) ->
  let out := Part000.replaceAllCategories (categoriesRequest cats) w in
  out.1 = savedCategories ns /\
  products (db out.2) = products (db w) /\
  (c ∉ idsOf (categories (db out.2))) /\
  ~ consistent (db out.2).
Proof.
  intros Hn Hne _ _ Hids Hf Hr Hc Hnot Hread out.
  destruct (adminRequest_authorized (VObj [("categories", cats)])) as [Ha _].
  assert (Hlen : (length ns =? 0)%nat = false) by (by destruct ns).
  assert (Hlog : logLength cats = Ok EmptyString).
  { destruct cats; try done. unfold normalizeCategories in Hn. congruence. }
  pose proof (categoriesToUpsert_ids _ _ Hids) as Hrows.
  set (rows := categoriesToUpsert ns) in *.
  set (text := notInFilter ids) in *.
  assert (Hout : out = (savedCategories ns,
            issued (UpsertCategories rows) []
              (Supabase.upsertCategories rows (Supabase.deleteCategoriesNotIn text (db w)).2).2
              (issued (DeleteCategoriesNotIn text) []
                 (Supabase.deleteCategoriesNotIn text (db w)).2 w))).
  { unfold out, categoriesRequest, Part000.replaceAllCategories, tryCatch, bind, lift.
    rewrite Ha.
    cbn [adminRequest body getProp lookupField String.eqb Ascii.eqb Bool.eqb].
    rewrite Hlog, Hn, Hlen, Hids. unfold call. rewrite Hf. cbn. done. }
  rewrite Hout. cbn [fst snd issued db Supabase.upsertCategories
                     Supabase.deleteCategoriesNotIn categories products].
  fold (upsertAll rows (filter (fun c => Supabase.memberOf (inList (db w) text) (cat_id c))
                               (categories (db w)))).
  assert (Hgone : c ∉ idsOf (upsertAll rows
                    (filter (fun c => Supabase.memberOf (inList (db w) text) (cat_id c))
                            (categories (db w))))).
  { rewrite upsertAll_ids, Hrows. intros [?|Hin]; [done|].
    unfold idsOf in Hin. apply list_elem_of_fmap in Hin as (c' & -> & Hin).
    apply list_elem_of_filter in Hin as [Hin _].
    apply Is_true_true, memberOf_spec in Hin. done. }
  repeat split; try done.
  unfold consistent. cbn [products categories]. rewrite Forall_forall.
  intros H. destruct (H r Hr) as (c' & Hc' & Hrc').
  apply Hgone. rewrite (hasCategory_same _ _ _ Hc Hrc').
  unfold idsOf. by apply list_elem_of_fmap_2.
Qed.

Lemma Part000_replaceAllCategories_can_orphan_witness :
  inList (db (catalogWorld [])) (notInFilter ["calca"%string]) = ["calca"%string] /\
  products (db (Part000.replaceAllCategories (categoriesRequest (VArr [VStr "calca"]))
                  (catalogWorld [])).2)
  = products (db (catalogWorld [])) /\
  ~ consistent (db (Part000.replaceAllCategories (categoriesRequest (VArr [VStr "calca"]))
                      (catalogWorld [])).2).
Proof.
  assert (Hr : productRow 1 "Tee" "camisa" ∈ products (db (catalogWorld []))) by (by left).
  assert (Hc : "camisa"%string ∉ ["calca"%string]).
  { rewrite not_elem_of_cons. split; [done|apply not_elem_of_nil]. }
  destruct (Part000_replaceAllCategories_can_orphan (VArr [VStr "calca"]) _ ["calca"%string]
              (catalogWorld []) (productRow 1 "Tee" "camisa") "camisa"
              eq_refl ltac:(discriminate) eq_refl eq_refl eq_refl eq_refl Hr eq_refl Hc Hc)
    as (_ & Hp & _ & Hn).
  split; [by vm_compute|]. by split.
Defined.
